(** * Titan scheduler: validation engine, node table and region suffix

    A shallow embedding of the scheduler core of the titan edge CDN:
    - [node/scheduler/validate/validate.go]: the validation round engine
      ([startValidate], [checkValidateTimeOut], [execute], [validateMapping],
      [assemblyValidateReqAndStore], [handleValidateResult],
      [StartValidateOnceTask]);
    - the persistent SQL store ([SetAllNodeOffline], [ReplaceArea] and the
      table-name formats);
    - the scheduler API entry point [AllocateNodes].

    Go values are embedded as follows: [int]/[int64] as [Z], [string] as
    [string] (a sequence of bytes), Go maps as [gmap], the Redis set of
    verifying devices as [gset string], SQL tables as lists of rows.  Calls
    into the two stores thread an explicit [World]; a store call can fail,
    which is decided by a fault oracle carried in the world. *)

From Stdlib Require Import ZArith Ascii String List Lia Bool.
From stdpp Require Import base gmap strings list pretty.

Open Scope string_scope.
Open Scope Z_scope.
Open Scope list_scope.

(* ===================================================================== *)
(** * Go standard library pieces used by the code *)
(* ===================================================================== *)

Module GoStrings.

(** [c >= utf8.RuneSelf]: the byte starts a multi-byte rune. *)
Definition is_ascii_byte (c : ascii) : bool := (N_of_ascii c <? 128)%N.

(** ['A' <= c && c <= 'Z'] on a byte. *)
Definition is_upper (c : ascii) : bool :=
  ((65 <=? N_of_ascii c) && (N_of_ascii c <=? 90))%N.

(** [c += 'a' - 'A'] for an upper-case byte, identity otherwise. *)
Definition lower_byte (c : ascii) : ascii :=
  if is_upper c then ascii_of_N (N_of_ascii c + 32) else c.

Fixpoint all_bytes (p : ascii -> bool) (s : string) : bool :=
  match s with
  | EmptyString => true
  | String c s' => p c && all_bytes p s'
  end.

Fixpoint any_byte (p : ascii -> bool) (s : string) : bool :=
  match s with
  | EmptyString => false
  | String c s' => p c || any_byte p s'
  end.

Fixpoint map_bytes (f : ascii -> ascii) (s : string) : string :=
  match s with
  | EmptyString => EmptyString
  | String c s' => String (f c) (map_bytes f s')
  end.

Section ToLower.
(** [strings.Map(unicode.ToLower, s)], the path Go takes for a string
    that holds a byte outside ASCII.  The Unicode tables are not part of
    the program, so the mapping is a parameter. *)
Variable unicodeToLower : string -> string.

(** [strings.ToLower]: a pure-ASCII string without upper-case letters is
    returned as it is, a pure-ASCII string is lowered byte by byte, any
    other string goes through the Unicode mapping. *)
Definition ToLower (s : string) : string :=
  let isASCII := all_bytes is_ascii_byte s in
  let hasUpper := any_byte is_upper s in
  if isASCII then
    if negb hasUpper then s else map_bytes lower_byte s
  else unicodeToLower s.
End ToLower.

(** [strings.HasPrefix]. *)
Fixpoint HasPrefix (s prefix : string) : bool :=
  match prefix, s with
  | EmptyString, _ => true
  | String p prefix', String c s' =>
      if Ascii.eqb p c then HasPrefix s' prefix' else false
  | String _ _, EmptyString => false
  end.

(** The replacement loop of [strings.Replace] for a non-empty [old]:
    [skip] counts the bytes of a matched [old] still to be dropped, [n]
    the replacements still allowed (negative: no limit). *)
Fixpoint replace_from (skip : nat) (s old new : string) (n : Z) : string :=
  match s with
  | EmptyString => EmptyString
  | String c s' =>
      match skip with
      | S k => replace_from k s' old new n
      | O =>
          if (n =? 0) then s
          else if HasPrefix s old
               then new +:+ replace_from (String.length old - 1)%nat s' old new (n - 1)
               else String c (replace_from 0 s' old new n)
      end
  end.

(** [strings.Replace(s, old, new, n)].  With [old == new] or [n == 0] the
    string is returned as it is.  An empty [old] (Go then inserts [new]
    between runes) does not occur in the program; the embedding returns
    [s] for it. *)
Definition Replace (s old new : string) (n : Z) : string :=
  if String.eqb old new || (n =? 0) then s
  else match old with
       | EmptyString => s
       | String _ _ => replace_from 0 s old new n
       end.

(** An operand of [fmt.Sprintf]: the program passes strings and ints. *)
Inductive operand : Type :=
| Str (s : string)
| Int (z : Z).

(** How an operand prints under the verb [verb] ([s] or [d]); a verb that
    does not fit the operand prints Go's [%!verb(type=value)]. *)
Definition print_operand (verb : ascii) (a : operand) : string :=
  match a with
  | Str s => if Ascii.eqb verb "s"%char then s
             else "%!" +:+ String verb ("(string=" +:+ s +:+ ")")
  | Int z => if Ascii.eqb verb "d"%char then pretty z
             else "%!" +:+ String verb ("(int=" +:+ pretty z +:+ ")")
  end.

Fixpoint extra_operands (args : list operand) : string :=
  match args with
  | [] => EmptyString
  | a :: rest =>
      (match a with Str s => "string=" +:+ s | Int z => "int=" +:+ pretty z end)
      +:+ (match rest with [] => EmptyString | _ => ", " +:+ extra_operands rest end)
  end.

(** [fmt.Sprintf] restricted to the verbs [%s] and [%d]: each verb consumes
    one operand, a verb without operand prints [%!verb(MISSING)], operands
    left over are reported after the text. *)
Fixpoint Sprintf (format : string) (args : list operand) : string :=
  match format with
  | EmptyString =>
      match args with
      | [] => EmptyString
      | _ => "%!(EXTRA " +:+ extra_operands args +:+ ")"
      end
  | String c rest =>
      match rest with
      | String d rest' =>
          if Ascii.eqb c "%"%char && (Ascii.eqb d "s"%char || Ascii.eqb d "d"%char) then
            match args with
            | a :: args' => print_operand d a +:+ Sprintf rest' args'
            | [] => "%!" +:+ String d ("(MISSING)" +:+ Sprintf rest' [])
            end
          else String c (Sprintf rest args)
      | EmptyString => String c (Sprintf rest args)
      end
  end.

End GoStrings.

(* ===================================================================== *)
(** * Go errors *)
(* ===================================================================== *)

(** A Go [error] value: [nil] (written [nil_err]), an error built in the program by
    [fmt.Errorf]/[xerrors.Errorf]/[xerrors.New] (with its message), or an
    error handed back by a database driver or the Redis client. *)
Inductive error : Type :=
| nil_err
| Errorf (msg : string)
| driverError (code : Z).

Definition is_nil (e : error) : bool :=
  match e with nil_err => true | _ => false end.

(** [err.Error()]; calling it on [nil] dereferences a nil interface. *)
Definition Error (e : error) : option string :=
  match e with
  | nil_err => None
  | Errorf msg => Some msg
  | driverError code => Some ("driver error " +:+ pretty code)
  end.

(* ===================================================================== *)
(** * The persistent SQL store *)
(* ===================================================================== *)

Module Persistent.
Import GoStrings.

(** The table-name formats declared at the head of the SQL store. *)
Definition deviceBlockTable : string := "device_blocks_%s".
Definition dataInfoTable : string := "data_info_%s".
Definition blockInfoTable : string := "block_info_%s".
Definition cacheInfoTable : string := "cache_info_%s".

Section Area.
Variable unicodeToLower : string -> string.
(** The package variable [serverArea], set at start-up from [--area]. *)
Variable serverArea : string.

(** [ReplaceArea]. *)
Definition ReplaceArea : string :=
  let str := ToLower unicodeToLower serverArea in
  let str := Replace str "-" "_" (-1) in
  str.

(** [fmt.Sprintf(deviceBlockTable, area)] and its three siblings, as they
    are written at every query site. *)
Definition deviceBlockTableName : string := Sprintf deviceBlockTable [Str ReplaceArea].
Definition dataInfoTableName : string := Sprintf dataInfoTable [Str ReplaceArea].
Definition blockInfoTableName : string := Sprintf blockInfoTable [Str ReplaceArea].
Definition cacheInfoTableName : string := Sprintf cacheInfoTable [Str ReplaceArea].

(** The suffix in the specification's words: the lower-cased region
    with every ['-'] turned into ['_']. *)
Definition dash_to_underscore (c : ascii) : ascii :=
  if Ascii.eqb c "-"%char then "_"%char else c.

Definition lowercased (region : string) : string :=
  if all_bytes is_ascii_byte region
  then map_bytes lower_byte region
  else unicodeToLower region.

Definition region_suffix_spec (region : string) : string :=
  map_bytes dash_to_underscore (lowercased region).
End Area.

(** A row of table [node]; the columns are those of the INSERT statement
    in [SetNodeInfo]. *)
Record NodeInfo : Type := mkNodeInfo {
  DeviceID : string;
  LastTime : string;
  Geo : string;
  NodeType : Z;
  IsOnline : Z;
  Address : string;
  ServerName : string;
  CreateTime : string
}.

(** The status of a validation row.  The constants are used by the engine;
    their declaration is outside the sources at hand, so rows keep the
    constant itself where the program stores [status.Int()]. *)
Inductive ValidateStatus : Type :=
| ValidateStatusCreate
| ValidateStatusSuccess
| ValidateStatusTimeOut
| ValidateStatusCancel
| ValidateStatusFail
| ValidateStatusOther.

#[global] Instance ValidateStatus_eq_dec : EqDecision ValidateStatus.
Proof. solve_decision. Defined.

(** A row of table [validate_result] ([persistent.ValidateResult]).  Times
    are Unix nanoseconds ([0] for the zero time); [Bandwidth] is a float64
    that the program only copies, kept as its 64 bits. *)
Record ValidateResult : Type := mkValidateResult {
  vr_RoundID : Z;
  vr_DeviceID : string;
  vr_ValidatorID : string;
  vr_BlockNumber : Z;
  vr_Msg : string;
  vr_Status : ValidateStatus;
  vr_Bandwidth : Z;
  vr_Duration : Z;
  vr_StartTime : Z;
  vr_EndTime : Z
}.

(** A row of the per-node block table ([NodeBlocks]): the block [CID] a
    device stores under index [FID]. *)
Record NodeBlocks : Type := mkNodeBlocks {
  nb_DeviceID : string;
  nb_FID : Z;
  nb_CID : string
}.

(** The SQL database behind [sqlDB.cli].  [sql_fault k] tells whether the
    [k]-th statement sent to the server fails (connection lost, timeout);
    [sql_calls] counts the statements sent so far. *)
Record sqlDB : Type := mkSqlDB {
  node : list NodeInfo;
  validate_result : list ValidateResult;
  device_blocks : list NodeBlocks;
  sql_fault : nat -> bool;
  sql_calls : nat
}.

Definition set_tables (db : sqlDB) (n : list NodeInfo)
    (vrs : list ValidateResult) (bs : list NodeBlocks) : sqlDB :=
  mkSqlDB n vrs bs (sql_fault db) (S (sql_calls db)).

(** One statement sent to the server: it either fails and leaves the
    tables as they are, or applies its effect. *)
Definition tick (db : sqlDB) : sqlDB :=
  set_tables db (node db) (validate_result db) (device_blocks db).

Definition faulty (db : sqlDB) : bool := sql_fault db (sql_calls db).

Definition the_fault (db : sqlDB) : error := driverError (Z.of_nat (sql_calls db)).

Definition set_IsOnline (r : NodeInfo) (b : Z) : NodeInfo :=
  mkNodeInfo (DeviceID r) (LastTime r) (Geo r) (NodeType r) b
             (Address r) (ServerName r) (CreateTime r).

(** [UPDATE node SET is_online=:is_online WHERE server_name=:server_name]
    with [info = NodeInfo{IsOnline: 0, ServerName: serverName}]. *)
Definition update_node_offline (serverName : string) (r : NodeInfo) : NodeInfo :=
  if String.eqb (ServerName r) serverName then set_IsOnline r 0 else r.

(** [SetAllNodeOffline]; [serverName] is the package variable set by
    [NewDB]. *)
Definition SetAllNodeOffline (serverName : string) (db : sqlDB) : error * sqlDB :=
  if faulty db then (the_fault db, tick db)
  else (nil_err, set_tables db (map (update_node_offline serverName) (node db))
                        (validate_result db) (device_blocks db)).

(** The key of a validation row: [WHERE device_id=:device_id AND
    round_id=:round_id]. *)
Definition row_is (roundId : Z) (deviceID : string) (r : ValidateResult) : bool :=
  (vr_RoundID r =? roundId) && String.eqb (vr_DeviceID r) deviceID.

Definition fail_row (info r : ValidateResult) : ValidateResult :=
  if row_is (vr_RoundID info) (vr_DeviceID info) r
  then mkValidateResult (vr_RoundID r) (vr_DeviceID r) (vr_ValidatorID r)
         (vr_BlockNumber r) (vr_Msg info) (vr_Status info)
         (vr_Bandwidth r) (vr_Duration r) (vr_StartTime r) (vr_EndTime info)
  else r.

Definition success_row (info r : ValidateResult) : ValidateResult :=
  if row_is (vr_RoundID info) (vr_DeviceID info) r
  then mkValidateResult (vr_RoundID r) (vr_DeviceID r) (vr_ValidatorID r)
         (vr_BlockNumber info) (vr_Msg info) (vr_Status info)
         (vr_Bandwidth info) (vr_Duration info) (vr_StartTime r) (vr_EndTime info)
  else r.

(** Modelled from the spec: [InsertValidateResultInfo] is not among the
    sources.  "Insert a ValidationResult row with status created": the row
    is added to [validate_result], as the INSERT of [SetValidateResultInfo]
    does. *)
Definition InsertValidateResultInfo (info : ValidateResult) (db : sqlDB) : error * sqlDB :=
  if faulty db then (the_fault db, tick db)
  else (nil_err, set_tables db (node db) (validate_result db ++ [info]) (device_blocks db)).

(** Modelled from the spec: [UpdateFailValidateResultInfo] is not among the
    sources.  The row of [(round_id, device_id)] takes the terminal status,
    the message and the end time, as the UPDATE of [SetValidateResultInfo]
    does ([SET end_time, status, msg WHERE device_id AND round_id]). *)
Definition UpdateFailValidateResultInfo (info : ValidateResult) (db : sqlDB) : error * sqlDB :=
  if faulty db then (the_fault db, tick db)
  else (nil_err, set_tables db (node db) (map (fail_row info) (validate_result db)) (device_blocks db)).

(** Modelled from the spec: [UpdateSuccessValidateResultInfo] is not among
    the sources.  The row of [(round_id, device_id)] takes the status, the
    message, the end time and the measured [block_count], [bandwidth] and
    [duration] of the ValidationResult record. *)
Definition UpdateSuccessValidateResultInfo (info : ValidateResult) (db : sqlDB) : error * sqlDB :=
  if faulty db then (the_fault db, tick db)
  else (nil_err, set_tables db (node db) (map (success_row info) (validate_result db)) (device_blocks db)).

(** [GetBlocksFID] as the engine uses it (a [map[int]string] from [fid] to
    [cid]): the rows of the device are read in table order and
    [m[i.FID] = i.CID] is executed for each.  The rows of [device_blocks]
    are rows that scan; a row on which [StructScan] fails is skipped by
    the source (see [BlockStore.GetBlocksFID]). *)
Definition blocks_of (deviceID : string) (rows : list NodeBlocks) : gmap Z string :=
  foldl (fun m r => if String.eqb (nb_DeviceID r) deviceID
                    then <[nb_FID r := nb_CID r]> m else m) ∅ rows.

Definition GetBlocksFID (deviceID : string) (db : sqlDB) : (option (gmap Z string) * error) * sqlDB :=
  if faulty db then ((None, the_fault db), tick db)
  else ((Some (blocks_of deviceID (device_blocks db)), nil_err), tick db).

(** Modelled from the spec: [CountCidOfDevice] is not among the sources.
    "The number of cached content units the node holds": the count of the
    device's rows in the block table, as [GetDeviceBlockNum] computes. *)
Definition CountCidOfDevice (deviceID : string) (db : sqlDB) : (Z * error) * sqlDB :=
  if faulty db then ((0, the_fault db), tick db)
  else ((Z.of_nat (length (filter (fun r => nb_DeviceID r = deviceID) (device_blocks db))), nil_err),
        tick db).

End Persistent.

(* ===================================================================== *)
(** * The ephemeral store (Redis) *)
(* ===================================================================== *)

Module Cache.

(** The keys of the ephemeral store the engine touches.  [cache_fault] and
    [cache_calls] play the role of [sql_fault] and [sql_calls]. *)
Record cacheDB : Type := mkCacheDB {
  roundID : Z;
  verifying : gset string;
  validators : list string;
  nodeCacheFid : gmap string Z;
  cache_fault : nat -> bool;
  cache_calls : nat
}.

Definition set_keys (db : cacheDB) (r : Z) (vs : gset string) : cacheDB :=
  mkCacheDB r vs (validators db) (nodeCacheFid db) (cache_fault db) (S (cache_calls db)).

Definition tick (db : cacheDB) : cacheDB := set_keys db (roundID db) (verifying db).

Definition faulty (db : cacheDB) : bool := cache_fault db (cache_calls db).

Definition the_fault (db : cacheDB) : error := driverError (Z.of_nat (cache_calls db)).

(** Modelled from the spec: [GetPreviousAndCurrentRoundId] is not among the
    sources.  "Read and increment the round id from B, obtaining
    (previous_round_id, current_round_id)". *)
Definition GetPreviousAndCurrentRoundId (db : cacheDB) : (Z * Z * error) * cacheDB :=
  if faulty db then ((0, 0, the_fault db), tick db)
  else ((roundID db, roundID db + 1, nil_err), set_keys db (roundID db + 1) (verifying db)).

(** Modelled from the spec: the Redis client is not among the sources.
    [GetNodesWithVerifyingList] reads the members of the "verifying" set. *)
Definition GetNodesWithVerifyingList (db : cacheDB) : (list string * error) * cacheDB :=
  if faulty db then (([], the_fault db), tick db)
  else ((elements (verifying db), nil_err), tick db).

(** Modelled from the spec: [RemoveVerifyingList] clears the "verifying"
    set in one command. *)
Definition RemoveVerifyingList (db : cacheDB) : error * cacheDB :=
  if faulty db then (the_fault db, tick db)
  else (nil_err, set_keys db (roundID db) ∅).

(** Modelled from the spec: [GetValidatorsWithList] reads the validator
    list that the election stored. *)
Definition GetValidatorsWithList (db : cacheDB) : (list string * error) * cacheDB :=
  if faulty db then (([], the_fault db), tick db)
  else ((validators db, nil_err), tick db).

(** Modelled from the spec: [GetNodeCacheFid] reads the node's [max_fid];
    a device without the key is a driver error (Redis nil). *)
Definition GetNodeCacheFid (deviceID : string) (db : cacheDB) : (Z * error) * cacheDB :=
  if faulty db then ((0, the_fault db), tick db)
  else match nodeCacheFid db !! deviceID with
       | Some fid => ((fid, nil_err), tick db)
       | None => ((0, the_fault db), tick db)
       end.

(** Modelled from the spec: [SetNodeToVerifyingList] adds the device to the
    "verifying" set. *)
Definition SetNodeToVerifyingList (deviceID : string) (db : cacheDB) : error * cacheDB :=
  if faulty db then (the_fault db, tick db)
  else (nil_err, set_keys db (roundID db) ({[deviceID]} ∪ verifying db)).

(** Modelled from the spec: [RemoveNodeWithVerifyingList] removes the
    device from the "verifying" set. *)
Definition RemoveNodeWithVerifyingList (deviceID : string) (db : cacheDB) : error * cacheDB :=
  if faulty db then (the_fault db, tick db)
  else (nil_err, set_keys db (roundID db) (verifying db ∖ {[deviceID]})).

(** Modelled from the spec: [CountVerifyingNode] is the cardinality of the
    "verifying" set. *)
Definition CountVerifyingNode (db : cacheDB) : (Z * error) * cacheDB :=
  if faulty db then ((0, the_fault db), tick db)
  else ((Z.of_nat (size (verifying db)), nil_err), tick db).

End Cache.

(* ===================================================================== *)
(** * API types *)
(* ===================================================================== *)

Module Api.

(** [api.NodeType]; the engine uses [NodeEdge] and [NodeCandidate], the
    scheduler API also [NodeValidate]. *)
Inductive NodeType : Type :=
| NodeEdge
| NodeCandidate
| NodeValidate.

#[global] Instance NodeType_eq_dec : EqDecision NodeType.
Proof. solve_decision. Defined.

(** [api.ValidateResults], the report of an audited node. *)
Record ValidateResults : Type := mkValidateResults {
  Validator : string;
  RoundID : Z;
  DeviceID : string;
  Cids : list string;
  RandomCount : Z;
  Bandwidth : Z;
  CostTime : Z;
  IsCancel : bool;
  IsTimeout : bool
}.

(** [api.ReqValidate], one challenge of the batch sent to a validator. *)
Record ReqValidate : Type := mkReqValidate {
  Seed : Z;
  NodeURL : string;
  Duration : Z;
  ReqRoundID : Z;
  ReqNodeType : NodeType;
  MaxFid : Z
}.

End Api.

(* ===================================================================== *)
(** * The validation engine ([validate.go]) *)
(* ===================================================================== *)

Module Validate.
Import Api.

Definition errMsgTimeOut : string := "time out".
Definition errMsgCancel : string := "verification canceled due to download".

Inductive validateState : Type :=
| validationNotStarted
| validationStarting.

#[global] Instance validateState_eq_dec : EqDecision validateState.
Proof. solve_decision. Defined.

(** The [Validate] struct.  The field [validateState] is written [vState]
    (the type has the name); [crontabRunning] is the state of [v.crontab]
    ([Start]/[Stop]); the context, the result queue and its channel carry
    no data of the functions embedded here. *)
Record Validate : Type := mkValidate {
  seed : Z;
  preRoundId : Z;
  curRoundId : Z;
  duration : Z;
  interval : Z;
  maxFidMap : gmap string Z;
  crontabRunning : bool;
  vState : validateState;
  enable : bool
}.

(** A session of the node registry: [DeviceId] and [Node.GetAddress()]. *)
Record Node : Type := mkNode {
  DeviceId : string;
  GetAddress : string
}.

Record tmpDeviceMeta : Type := mkTmpDeviceMeta {
  deviceId : string;
  nodeType : NodeType;
  addr : string
}.

#[global] Instance tmpDeviceMeta_eq_dec : EqDecision tmpDeviceMeta.
Proof. solve_decision. Defined.

(** Everything the engine reads and writes: its own struct, the two
    stores, the registry maps of [node.Manager], the clock, the outcomes
    of the global random source ([rand.Seed(now); rand.Intn(max)] yields
    [globalRand k mod max] at its [k]-th use), the batches sent to
    validators by [ValidateBlocks], and the goroutines that sleep before
    restarting the timer (each with the time it still sleeps). *)
Record World : Type := mkWorld {
  engine : Validate;
  cache : Cache.cacheDB;
  sql : Persistent.sqlDB;
  EdgeNodeMap : gmap string Node;
  CandidateNodeMap : gmap string Node;
  now : Z;
  globalRand : nat -> Z;
  randCalls : nat;
  sent : list (string * list ReqValidate);
  sleepers : list Z
}.

Definition with_engine (w : World) (e : Validate) : World :=
  mkWorld e (cache w) (sql w) (EdgeNodeMap w) (CandidateNodeMap w) (now w)
          (globalRand w) (randCalls w) (sent w) (sleepers w).

Definition with_cache (w : World) (c : Cache.cacheDB) : World :=
  mkWorld (engine w) c (sql w) (EdgeNodeMap w) (CandidateNodeMap w) (now w)
          (globalRand w) (randCalls w) (sent w) (sleepers w).

Definition with_sql (w : World) (d : Persistent.sqlDB) : World :=
  mkWorld (engine w) (cache w) d (EdgeNodeMap w) (CandidateNodeMap w) (now w)
          (globalRand w) (randCalls w) (sent w) (sleepers w).

Definition with_randCalls (w : World) (n : nat) : World :=
  mkWorld (engine w) (cache w) (sql w) (EdgeNodeMap w) (CandidateNodeMap w) (now w)
          (globalRand w) n (sent w) (sleepers w).

Definition with_sent (w : World) (s : list (string * list ReqValidate)) : World :=
  mkWorld (engine w) (cache w) (sql w) (EdgeNodeMap w) (CandidateNodeMap w) (now w)
          (globalRand w) (randCalls w) s (sleepers w).

Definition with_sleepers (w : World) (s : list Z) : World :=
  mkWorld (engine w) (cache w) (sql w) (EdgeNodeMap w) (CandidateNodeMap w) (now w)
          (globalRand w) (randCalls w) (sent w) s.

Definition set_rounds (e : Validate) (pre cur sd : Z) : Validate :=
  mkValidate sd pre cur (duration e) (interval e) (maxFidMap e)
             (crontabRunning e) (vState e) (enable e).

Definition set_maxFidMap (e : Validate) (m : gmap string Z) : Validate :=
  mkValidate (seed e) (preRoundId e) (curRoundId e) (duration e) (interval e) m
             (crontabRunning e) (vState e) (enable e).

Definition set_crontabRunning (e : Validate) (b : bool) : Validate :=
  mkValidate (seed e) (preRoundId e) (curRoundId e) (duration e) (interval e)
             (maxFidMap e) b (vState e) (enable e).

Definition set_vState (e : Validate) (s : validateState) : Validate :=
  mkValidate (seed e) (preRoundId e) (curRoundId e) (duration e) (interval e)
             (maxFidMap e) (crontabRunning e) s (enable e).

Definition set_enable (e : Validate) (b : bool) : Validate :=
  mkValidate (seed e) (preRoundId e) (curRoundId e) (duration e) (interval e)
             (maxFidMap e) (crontabRunning e) (vState e) b.

(** ** Computations over the world

    A Go function body either returns a value or panics; both leave a
    world behind. *)
Inductive res (A : Type) : Type :=
| Ret (a : A)
| Panic (msg : string).
Arguments Ret {A} a.
Arguments Panic {A} msg.

Definition M (A : Type) : Type := World -> res A * World.

Definition ret {A} (a : A) : M A := fun w => (Ret a, w).

Definition bind {A B} (m : M A) (k : A -> M B) : M B :=
  fun w => match m w with
           | (Ret a, w') => k a w'
           | (Panic msg, w') => (Panic msg, w')
           end.

Definition panic {A} (msg : string) : M A := fun w => (Panic msg, w).

Notation "x <- m ;; k" := (bind m (fun x => k))
  (at level 100, m at next level, right associativity).
Notation "m ;;; k" := (bind m (fun _ => k))
  (at level 100, right associativity).

Definition get : M World := fun w => (Ret w, w).
Definition modify (f : World -> World) : M unit := fun w => (Ret tt, f w).

(** A call into the ephemeral store, a call into the SQL store. *)
Definition onCache {A} (op : Cache.cacheDB -> A * Cache.cacheDB) : M A :=
  fun w => let '(a, c) := op (cache w) in (Ret a, with_cache w c).

Definition onSql {A} (op : Persistent.sqlDB -> A * Persistent.sqlDB) : M A :=
  fun w => let '(a, d) := op (sql w) in (Ret a, with_sql w d).

Definition setState (s : validateState) : M unit :=
  modify (fun w => with_engine w (set_vState (engine w) s)).

(** ** Partition: [validateMapping] *)

(** [generatorForRandomNumber(start, end)]. *)
Definition generatorForRandomNumber (start end_ : Z) : M Z :=
  let max := end_ - start in
  if max <=? 0 then ret start
  else fun w =>
    let y := globalRand w (randCalls w) `mod` max in
    (Ret (start + y), with_randCalls w (S (randCalls w))).

(** [validatorList[i]]: an index outside the slice panics. *)
Definition index_validator (validatorList : list string) (i : Z) : M string :=
  match (if i <? 0 then None else validatorList !! Z.to_nat i) with
  | Some validatorID => ret validatorID
  | None => panic "index out of range"
  end.

(** The [if validated, ok := result[validatorID]; ok { append } else
    { make; append }] block shared by both loops. *)
Definition assign (result : gmap string (list tmpDeviceMeta))
    (validatorID : string) (tn : tmpDeviceMeta) : gmap string (list tmpDeviceMeta) :=
  match result !! validatorID with
  | Some validated => <[validatorID := validated ++ [tn]]> result
  | None => <[validatorID := [] ++ [tn]]> result
  end.

(** The body of [EdgeNodeMap.Range]. *)
Definition mapEdge (validatorList : list string) (edgeNode : Node)
    (result : gmap string (list tmpDeviceMeta)) : M (gmap string (list tmpDeviceMeta)) :=
  let tn := mkTmpDeviceMeta (DeviceId edgeNode) NodeEdge (GetAddress edgeNode) in
  i <- generatorForRandomNumber 0 (Z.of_nat (length validatorList)) ;;
  validatorID <- index_validator validatorList i ;;
  ret (assign result validatorID tn).

(** The body of [CandidateNodeMap.Range]. *)
Definition mapCandidate (validatorList : list string) (candidateNode : Node)
    (result : gmap string (list tmpDeviceMeta)) : M (gmap string (list tmpDeviceMeta)) :=
  let tn := mkTmpDeviceMeta (DeviceId candidateNode) NodeCandidate (GetAddress candidateNode) in
  i <- generatorForRandomNumber 0 (Z.of_nat (length validatorList)) ;;
  validatorID <- index_validator validatorList i ;;
  if String.eqb validatorID (DeviceId candidateNode) then ret result
  else ret (assign result validatorID tn).

(** [sync.Map.Range]: the callback runs on every entry, in the order the
    map enumerates them. *)
Fixpoint Range {S : Type} (f : Node -> S -> M S) (entries : list (string * Node)) (acc : S) : M S :=
  match entries with
  | [] => ret acc
  | (_, value) :: rest => acc' <- f value acc ;; Range f rest acc'
  end.

Definition validateMapping (validatorList : list string)
    : M (option (gmap string (list tmpDeviceMeta)) * error) :=
  w <- get ;;
  result <- Range (mapEdge validatorList) (map_to_list (EdgeNodeMap w)) ∅ ;;
  result <- Range (mapCandidate validatorList) (map_to_list (CandidateNodeMap w)) result ;;
  if (Z.of_nat (size result) =? 0)
  then ret (None, Errorf "edge node and candidate node are empty")
  else ret (Some result, nil_err).

(** ** Dispatch: [assemblyValidateReqAndStore] and [execute] *)

(** One iteration of the loop over [list] (here [list_]); [continue] returns the batch
    built so far. *)
Definition assemblyDevice (validatorID : string) (device : tmpDeviceMeta)
    (req : list ReqValidate) : M (list ReqValidate) :=
  r <- onSql (Persistent.CountCidOfDevice (deviceId device)) ;;
  let '(num, err) := r in
  if negb (is_nil err) then ret req else
  if num <=? 0 then ret req else
  r <- onCache (Cache.GetNodeCacheFid (deviceId device)) ;;
  let '(maxFid, err) := r in
  if negb (is_nil err) then ret req else
  modify (fun w => with_engine w
            (set_maxFidMap (engine w) (<[deviceId device := maxFid]> (maxFidMap (engine w))))) ;;;
  w <- get ;;
  let req := req ++ [mkReqValidate (seed (engine w)) (addr device) (duration (engine w))
                                   (curRoundId (engine w)) (nodeType device) maxFid] in
  err <- onCache (Cache.SetNodeToVerifyingList (deviceId device)) ;;
  if negb (is_nil err) then ret req else
  let resultInfo :=
    Persistent.mkValidateResult (curRoundId (engine w)) (deviceId device) validatorID
      0 EmptyString Persistent.ValidateStatusCreate 0 0 (now w) 0 in
  err <- onSql (Persistent.InsertValidateResultInfo resultInfo) ;;
  ret req.

Fixpoint assemblyLoop (validatorID : string) (list_ : list tmpDeviceMeta)
    (req : list ReqValidate) : M (list ReqValidate) :=
  match list_ with
  | [] => ret req
  | device :: rest =>
      req' <- assemblyDevice validatorID device req ;;
      assemblyLoop validatorID rest req'
  end.

Definition assemblyValidateReqAndStore (validatorID : string) (list_ : list tmpDeviceMeta)
    : M (list ReqValidate) :=
  assemblyLoop validatorID list_ [].

(** The goroutine started for one validator.  [GetCandidateNode] looks the
    validator up in the registry; [ValidateBlocks] hands the batch to the
    validator (its error is only logged). *)
Definition dispatch (vId : string) (list_ : list tmpDeviceMeta) : M unit :=
  req <- assemblyValidateReqAndStore vId list_ ;;
  w <- get ;;
  match CandidateNodeMap w !! vId with
  | None => ret tt
  | Some validator => modify (fun w => with_sent w (sent w ++ [(vId, req)]))
  end.

(** [for validatorID, validatedList := range validatorMap { go ... }]: the
    goroutines are run one after the other, each to its end, in the order
    of the range. *)
Fixpoint dispatchAll (plan : list (string * list tmpDeviceMeta)) : M unit :=
  match plan with
  | [] => ret tt
  | (vId, list_) :: rest => dispatch vId list_ ;;; dispatchAll rest
  end.

Definition execute : M error :=
  setState validationStarting ;;;
  err <- onCache Cache.RemoveVerifyingList ;;
  if negb (is_nil err) then ret err else
  r <- onCache Cache.GetValidatorsWithList ;;
  let '(validatorList, err) := r in
  if negb (is_nil err) then ret err else
  if (Z.of_nat (length validatorList) =? 0) then ret nil_err else
  r <- validateMapping validatorList ;;
  let '(validatorMap, err) := r in
  if negb (is_nil err) then ret err else
  dispatchAll (map_to_list (default ∅ validatorMap)) ;;;
  ret nil_err.

(** ** Recording outcomes *)

Definition UpdateFailValidateResult (roundId : Z) (deviceID msg : string)
    (status : Persistent.ValidateStatus) : M error :=
  w <- get ;;
  let resultInfo :=
    Persistent.mkValidateResult roundId deviceID EmptyString 0 msg status 0 0 0 (now w) in
  onSql (Persistent.UpdateFailValidateResultInfo resultInfo).

Definition UpdateSuccessValidateResult (validateResults : ValidateResults) : M error :=
  w <- get ;;
  let resultInfo :=
    Persistent.mkValidateResult (RoundID validateResults) (DeviceID validateResults) EmptyString
      (Z.of_nat (length (Cids validateResults))) "ok" Persistent.ValidateStatusSuccess
      (Bandwidth validateResults) (CostTime validateResults) 0 (now w) in
  onSql (Persistent.UpdateSuccessValidateResultInfo resultInfo).

(** ** Preflight: [checkValidateTimeOut] and [startValidate] *)

(** The goroutines of [checkValidateTimeOut], run in the order they are
    started; each reads [v.preRoundId] when it runs and only logs an
    error. *)
Fixpoint timeOutAll (deviceIDs : list string) : M unit :=
  match deviceIDs with
  | [] => ret tt
  | di :: rest =>
      w <- get ;;
      UpdateFailValidateResult (preRoundId (engine w)) di errMsgTimeOut
                               Persistent.ValidateStatusTimeOut ;;;
      timeOutAll rest
  end.

Definition checkValidateTimeOut : M error :=
  r <- onCache Cache.GetNodesWithVerifyingList ;;
  let '(deviceIDs, err) := r in
  if negb (is_nil err) then ret err else
  (if (0 <? Z.of_nat (length deviceIDs)) then timeOutAll deviceIDs else ret tt) ;;;
  ret nil_err.

Definition startValidate : M error :=
  r <- onCache Cache.GetPreviousAndCurrentRoundId ;;
  let '(pre, cur, err) := r in
  if negb (is_nil err) then ret err else
  modify (fun w => with_engine w (set_rounds (engine w) pre cur (now w))) ;;;
  err <- checkValidateTimeOut ;;
  if negb (is_nil err) then ret err else
  w <- get ;;
  if negb (enable (engine w)) then
    setState validationNotStarted ;;; ret nil_err
  else
    err <- execute ;;
    if negb (is_nil err) then
      setState validationNotStarted ;;; ret err
    else ret nil_err.

(** ** The manual trigger: [StartValidateOnceTask] *)

(** [time.Minute] in nanoseconds. *)
Definition Minute : Z := 60 * 1000000000.

Definition StartValidateOnceTask : M error :=
  w <- get ;;
  if decide (vState (engine w) = validationStarting)
  then ret (Errorf "validation in progress, cannot start again")
  else
    modify (fun w => with_sleepers w (sleepers w ++ [interval (engine w) * Minute])) ;;;
    modify (fun w => with_engine w (set_enable (engine w) true)) ;;;
    modify (fun w => with_engine w (set_crontabRunning (engine w) false)) ;;;
    err <- startValidate ;;
    if negb (is_nil err) then ret err else ret nil_err.

(** Time passes by [d] nanoseconds: a sleeping goroutine whose sleep is
    over calls [v.crontab.Start()] and ends, the others sleep on. *)
Definition elapse (d : Z) (w : World) : World :=
  let woken := existsb (fun t => t <=? d) (sleepers w) in
  let rest := map (fun t => t - d) (List.filter (fun t => negb (t <=? d)) (sleepers w)) in
  let e := if woken then set_crontabRunning (engine w) true else engine w in
  with_sleepers (with_engine w e) rest.

(** ** Collection: [handleValidateResult] *)

(** [defer]: [d] runs when [body] returns and also when it panics; a
    panic of [body] goes on after [d]. *)
Definition defer {A} (d : M unit) (body : M A) : M A :=
  fun w => let '(r, w') := body w in
           match d w' with
           | (Ret _, w'') => (r, w'')
           | (Panic msg, w'') => (Panic msg, w'')
           end.

(** The two deferred closures of [handleValidateResult], in the order they
    run (last deferred first). *)
Definition deferredRemove (validateResults : ValidateResults) : M unit :=
  err <- onCache (Cache.RemoveNodeWithVerifyingList (DeviceID validateResults)) ;;
  ret tt.

Definition deferredCount : M unit :=
  r <- onCache Cache.CountVerifyingNode ;;
  let '(count, err) := r in
  if negb (is_nil err) then ret tt else
  if count =? 0 then setState validationNotStarted else ret tt.

Section Scoring.
(** [randIntn seed n k]: what the [k]-th call [r.Intn(n)] returns on
    [r := rand.New(rand.NewSource(seed))] when every call passes [n]. *)
Variable randIntn : Z -> Z -> nat -> Z.
(** [helper.CIDString2HashString]; [None] when it returns an error. *)
Variable CIDString2HashString : string -> option string.

(** [getRandNum(max, r)]; the generator [r] is the seed with the number of
    values drawn so far. *)
Definition getRandNum (max : Z) (r : Z * nat) : Z * (Z * nat) :=
  if 0 <? max then (randIntn (fst r) max (snd r), (fst r, S (snd r)))
  else (max, r).

Definition compareCid (cidStr1 cidStr2 : string) : bool :=
  match CIDString2HashString cidStr1 with
  | None => false
  | Some hash1 =>
      match CIDString2HashString cidStr2 with
      | None => false
      | Some hash2 => String.eqb hash1 hash2
      end
  end.

(** The scoring loop [for index := 0; index < RandomCount; index++], with
    [todo] iterations left from [index] on. *)
Fixpoint scoring (validateResults : ValidateResults) (maxFid : Z)
    (cacheInfos : gmap Z string) (todo : nat) (index : Z) (r : Z * nat) : M error :=
  match todo with
  | O => UpdateSuccessValidateResult validateResults
  | S todo' =>
      let '(n, r') := getRandNum maxFid r in
      let fid := n + 1 in
      match (if index <? 0 then None else Cids validateResults !! Z.to_nat index) with
      | None => panic "index out of range"
      | Some resultCid =>
          let cid := default EmptyString (cacheInfos !! fid) in
          if String.eqb cid EmptyString then
            scoring validateResults maxFid cacheInfos todo' (index + 1) r'
          else if negb (compareCid cid resultCid) then
            let msg := GoStrings.Sprintf
                         "validate fail; resultCid:%s,cid_db:%s,fid:%d,index:%d"
                         [GoStrings.Str resultCid; GoStrings.Str cid;
                          GoStrings.Int fid; GoStrings.Int index] in
            UpdateFailValidateResult (RoundID validateResults) (DeviceID validateResults)
                                     msg Persistent.ValidateStatusFail
          else scoring validateResults maxFid cacheInfos todo' (index + 1) r'
      end
  end.

(** The part of [handleValidateResult] below the two [defer] statements. *)
Definition handleBody (validateResults : ValidateResults) : M error :=
  if IsCancel validateResults then
    UpdateFailValidateResult (RoundID validateResults) (DeviceID validateResults)
                             errMsgCancel Persistent.ValidateStatusCancel
  else if IsTimeout validateResults then
    UpdateFailValidateResult (RoundID validateResults) (DeviceID validateResults)
                             errMsgTimeOut Persistent.ValidateStatusTimeOut
  else
    w <- get ;;
    let r := (seed (engine w), O) in
    let cidLength := Z.of_nat (length (Cids validateResults)) in
    if (cidLength <=? 0) || (RandomCount validateResults <=? 0) then
      let msg := "validate result is null or random count is 0" in
      UpdateFailValidateResult (RoundID validateResults) (DeviceID validateResults)
                               msg Persistent.ValidateStatusFail
    else
      q <- onSql (Persistent.GetBlocksFID (DeviceID validateResults)) ;;
      let '(cacheInfos, err) := q in
      let cacheInfos := default ∅ cacheInfos in
      if negb (is_nil err) || (Z.of_nat (size cacheInfos) <=? 0) then
        match Error err with
        | None => panic "invalid memory address or nil pointer dereference"
        | Some e =>
            let msg := GoStrings.Sprintf "failed to query : %s" [GoStrings.Str e] in
            UpdateFailValidateResult (RoundID validateResults) (DeviceID validateResults)
                                     msg Persistent.ValidateStatusOther
        end
      else
        w <- get ;;
        match maxFidMap (engine w) !! DeviceID validateResults with
        | None => panic "interface conversion: interface {} is nil, not int64"
        | Some maxFid =>
            scoring validateResults maxFid cacheInfos
                    (Z.to_nat (RandomCount validateResults)) 0 r
        end.

Definition handleValidateResult (validateResults : ValidateResults) : M error :=
  w <- get ;;
  if negb (RoundID validateResults =? curRoundId (engine w)) then
    ret (Errorf "round id mismatch")
  else
    defer deferredCount
      (defer (deferredRemove validateResults)
         (handleBody validateResults)).

End Scoring.

End Validate.

(* ===================================================================== *)
(** * The scheduler API: [AllocateNodes] *)
(* ===================================================================== *)

Module Scheduler.
Import Api.

Section Allocate.
(** [api.NodeAllocateInfo] and the state [node.Allocate] works on (the
    register table and the secret generator) belong to package [node]. *)
Variable NodeAllocateInfo : Type.
Variable Registry : Type.
(** [node.Allocate(nodeType)]: a record, or an error, and the registry
    after the call. *)
Variable Allocate : NodeType -> Registry -> (NodeAllocateInfo * error) * Registry.

(** [for i := 0; i < count; i++] with [todo] iterations left. *)
Fixpoint allocateLoop (nodeType : NodeType) (todo : nat)
    (list_ : list NodeAllocateInfo) (reg : Registry) : list NodeAllocateInfo * Registry :=
  match todo with
  | O => (list_, reg)
  | S todo' =>
      let '((info, err), reg') := Allocate nodeType reg in
      if negb (is_nil err) then allocateLoop nodeType todo' list_ reg'
      else allocateLoop nodeType todo' (list_ ++ [info]) reg'
  end.

Definition AllocateNodes (nodeType : NodeType) (count : Z) (reg : Registry)
    : (list NodeAllocateInfo * error) * Registry :=
  let list_ := [] in
  if (count <=? 0) || (10 <? count) then ((list_, nil_err), reg)
  else
    let '(list_, reg') := allocateLoop nodeType (Z.to_nat count) list_ reg in
    ((list_, nil_err), reg').

(** The outcomes of [todo] successive calls of [node.Allocate], in call
    order. *)
Fixpoint allocations (nodeType : NodeType) (todo : nat) (reg : Registry)
    : list (NodeAllocateInfo * error) :=
  match todo with
  | O => []
  | S todo' =>
      let '(r, reg') := Allocate nodeType reg in
      r :: allocations nodeType todo' reg'
  end.

End Allocate.

End Scheduler.

(* ===================================================================== *)
(** * The rest of [validate.go]: construction, switch and result queue *)
(* ===================================================================== *)

Module ValidateRest.
Import Api Validate.

(** [NewValidate]: the struct literal, with the timer started by
    [initValidateTask]. *)
Definition NewValidate (enable_ : bool) : Validate :=
  mkValidate 0 0 0 10 5 ∅ true validationNotStarted enable_.

(** The schedule handed to the timer by [initValidateTask]. *)
Definition cronSpec (e : Validate) : string :=
  GoStrings.Sprintf "0 */%d * * * *" [GoStrings.Int (interval e)].

Definition EnableValidate (enable_ : bool) : M unit :=
  modify (fun w => with_engine w (set_enable (engine w) enable_)).

Definition IsEnable : M bool :=
  w <- get ;; ret (enable (engine w)).

Section Queue.
Variable randIntn : Z -> Z -> nat -> Z.
Variable CIDString2HashString : string -> option string.

(** [doCallback] on the result queue [v.resultQueue], front first: each
    element is handled (an error is only logged) and then removed; the loop
    ends when the queue is empty.  The value returned is the queue that is
    left. *)
Fixpoint doCallback (resultQueue : list ValidateResults) : M (list ValidateResults) :=
  match resultQueue with
  | [] => ret []
  | validateResults :: rest =>
      err <- handleValidateResult randIntn CIDString2HashString validateResults ;;
      doCallback rest
  end.

(** [PushResultToQueue] followed by the consumer it wakes up
    ([initCallbackTask] runs [doCallback] on every signal). *)
Definition PushResultToQueue (resultQueue : list ValidateResults)
    (validateResults : ValidateResults) : M (list ValidateResults) :=
  doCallback (resultQueue ++ [validateResults]).

End Queue.

End ValidateRest.

(* ===================================================================== *)
(** * The SQL store: node rows ([GetNodeInfo], [SetNodeInfo]) *)
(* ===================================================================== *)

Module NodeStore.
Import Persistent.

Definition errNodeNotFind : string := "Not Found".

(** [IsNilErr]: [err.Error() == errNodeNotFind]; on a nil error the call
    dereferences nil ([None]).  A driver's own error never reads
    "Not Found". *)
Definition IsNilErr (err : error) : option bool :=
  match Error err with
  | Some msg => Some (String.eqb msg errNodeNotFind)
  | None => None
  end.

(** [GetNodeInfo]: [SELECT * FROM node WHERE device_id=:device_id], first
    row. *)
Definition GetNodeInfo (deviceID : string) (db : sqlDB) : (option NodeInfo * error) * sqlDB :=
  if faulty db then ((None, the_fault db), tick db)
  else match List.find (fun r => String.eqb (DeviceID r) deviceID) (node db) with
       | Some row => ((Some row, nil_err), tick db)
       | None => ((None, Errorf errNodeNotFind), tick db)
       end.

(** The three assignments at the head of [SetNodeInfo]; [now_] is
    [time.Now().Format("2006-01-02 15:04:05")]. *)
Definition stamp (serverName now_ deviceID : string) (info : NodeInfo) : NodeInfo :=
  mkNodeInfo deviceID (LastTime info) (Geo info) (NodeType info) (IsOnline info)
             (Address info) serverName now_.

(** [UPDATE node SET last_time, geo, is_online, address, server_name WHERE
    device_id=:device_id] on one row. *)
Definition update_node (info r : NodeInfo) : NodeInfo :=
  if String.eqb (DeviceID r) (DeviceID info)
  then mkNodeInfo (DeviceID r) (LastTime info) (Geo info) (NodeType r) (IsOnline info)
                  (Address info) (ServerName info) (CreateTime r)
  else r.

Definition insert_node (info : NodeInfo) (db : sqlDB) : error * sqlDB :=
  if faulty db then (the_fault db, tick db)
  else (nil_err, set_tables db (node db ++ [info]) (validate_result db) (device_blocks db)).

Definition update_nodes (info : NodeInfo) (db : sqlDB) : error * sqlDB :=
  if faulty db then (the_fault db, tick db)
  else (nil_err, set_tables db (map (update_node info) (node db))
                            (validate_result db) (device_blocks db)).

(** [SetNodeInfo]: insert when the device has no row, update otherwise. *)
Definition SetNodeInfo (serverName now_ deviceID : string) (info : NodeInfo) (db : sqlDB)
    : Validate.res error * sqlDB :=
  let info := stamp serverName now_ deviceID info in
  let '((_, err), db1) := GetNodeInfo deviceID db in
  if negb (is_nil err) then
    match IsNilErr err with
    | None => (Validate.Panic "invalid memory address or nil pointer dereference", db1)
    | Some true => let '(err, db2) := insert_node info db1 in (Validate.Ret err, db2)
    | Some false => (Validate.Ret err, db1)
    end
  else
    let '(err, db2) := update_nodes info db1 in (Validate.Ret err, db2).

End NodeStore.

(* ===================================================================== *)
(** * The SQL store: block tables *)
(* ===================================================================== *)

Module BlockStore.

(** A row of the per-node block table as the SQL store writes it
    ([NodeBlocks], with the fid kept as text). *)
Record NodeBlocks : Type := mkNodeBlocks {
  nb_CID : string;
  nb_FID : string;
  nb_CacheID : string;
  nb_CarfileID : string;
  nb_DeviceID : string
}.

(** A row of the block-info table ([BlockInfo]). *)
Record BlockInfo : Type := mkBlockInfo {
  bi_ID : Z;
  bi_CacheID : string;
  bi_CID : string;
  bi_DeviceID : string;
  bi_Status : Z;
  bi_Size : Z;
  bi_Reliability : Z
}.

(** The two tables of the area the scheduler serves (their names carry the
    suffix of [ReplaceArea]), with the fault oracle of the connection. *)
Record blockDB : Type := mkBlockDB {
  device_blocks : list NodeBlocks;
  block_info : list BlockInfo;
  fault : nat -> bool;
  calls : nat
}.

Definition set_tables (db : blockDB) (bs : list NodeBlocks) (infos : list BlockInfo)
    : blockDB :=
  mkBlockDB bs infos (fault db) (S (calls db)).

Definition tick (db : blockDB) : blockDB := set_tables db (device_blocks db) (block_info db).

Definition faulty (db : blockDB) : bool := fault db (calls db).

Definition the_fault (db : blockDB) : error := driverError (Z.of_nat (calls db)).

Definition errNodeNotFind : string := "Not Found".

Definition is_block (deviceID cid : string) (r : NodeBlocks) : bool :=
  String.eqb (nb_CID r) cid && String.eqb (nb_DeviceID r) deviceID.

Definition is_fid (deviceID fid : string) (r : NodeBlocks) : bool :=
  String.eqb (nb_FID r) fid && String.eqb (nb_DeviceID r) deviceID.

Definition of_device (deviceID : string) (r : NodeBlocks) : bool :=
  String.eqb (nb_DeviceID r) deviceID.

(** [GetBlockFidWithCid]. *)
Definition GetBlockFidWithCid (deviceID cid : string) (db : blockDB)
    : (string * error) * blockDB :=
  if faulty db then ((EmptyString, the_fault db), tick db)
  else match List.find (is_block deviceID cid) (device_blocks db) with
       | Some row => ((nb_FID row, nil_err), tick db)
       | None => ((EmptyString, Errorf errNodeNotFind), tick db)
       end.

(** [GetBlockCidWithFid]. *)
Definition GetBlockCidWithFid (deviceID fid : string) (db : blockDB)
    : (string * error) * blockDB :=
  if faulty db then ((EmptyString, the_fault db), tick db)
  else match List.find (is_fid deviceID fid) (device_blocks db) with
       | Some row => ((nb_CID row, nil_err), tick db)
       | None => ((EmptyString, Errorf errNodeNotFind), tick db)
       end.

Section Scan.
(** [rows.StructScan] on a row of the block table and on a row of the
    block-info table: [true] when the row, as it is stored, scans into the
    Go struct (sqlx refuses, for one, a NULL in a column of a [string]
    field).  The two loops below go on to the next row when it fails. *)
Variable scanBlock : NodeBlocks -> bool.
Variable scanInfo : BlockInfo -> bool.

(** [GetBlocksFID]: the rows of the device are read in table order;
    [m[i.FID] = i.CID] is executed for a row that scans
    ([if err == nil]), a row that does not is skipped, and the error
    returned is nil in both cases. *)
Definition fid_map (deviceID : string) (rows : list NodeBlocks) : gmap string string :=
  foldl (fun m r => if of_device deviceID r
                    then (if scanBlock r then <[nb_FID r := nb_CID r]> m else m)
                    else m) ∅ rows.

Definition GetBlocksFID (deviceID : string) (db : blockDB)
    : (option (gmap string string) * error) * blockDB :=
  if faulty db then ((None, the_fault db), tick db)
  else ((Some (fid_map deviceID (device_blocks db)), nil_err), tick db).

(** [GetUndoneBlocks]: [list[info.CID] = info.ID] for the rows of the cache
    with [status < 3] that scan; a row that does not scan is skipped, and
    the error returned is the one of the query (nil here). *)
Definition undone (cacheID : string) (r : BlockInfo) : bool :=
  String.eqb (bi_CacheID r) cacheID && (bi_Status r <? 3).

Definition GetUndoneBlocks (cacheID : string) (db : blockDB)
    : (gmap string Z * error) * blockDB :=
  if faulty db then ((∅, the_fault db), tick db)
  else ((foldl (fun m r => if undone cacheID r
                           then (if scanInfo r then <[bi_CID r := bi_ID r]> m else m)
                           else m)
               ∅ (block_info db),
         nil_err),
        tick db).

End Scan.

(** [GetDeviceBlockNum]. *)
Definition GetDeviceBlockNum (deviceID : string) (db : blockDB) : (Z * error) * blockDB :=
  if faulty db then ((0, the_fault db), tick db)
  else ((Z.of_nat (length (List.filter (of_device deviceID) (device_blocks db))), nil_err),
        tick db).

(** [GetNodesWithCacheList]. *)
Definition GetNodesWithCacheList (cid : string) (db : blockDB)
    : (option (list string) * error) * blockDB :=
  if faulty db then ((None, the_fault db), tick db)
  else ((Some (map nb_DeviceID
                   (List.filter (fun r => String.eqb (nb_CID r) cid) (device_blocks db))),
         nil_err),
        tick db).

(** [DeleteBlockInfo]: [MustBegin] and [MustExec] panic when the server
    refuses; a transaction that is not committed leaves the tables. *)
Definition DeleteBlockInfo (deviceID cid : string) (db : blockDB)
    : Validate.res error * blockDB :=
  if faulty db then (Validate.Panic "MustBegin", tick db) else
  let db1 := tick db in
  if faulty db1 then (Validate.Panic "MustExec", tick db1) else
  let db2 := tick db1 in
  if faulty db2 then (Validate.Ret (the_fault db2), tick db2) else
  (Validate.Ret nil_err,
   set_tables db2 (List.filter (fun r => negb (is_block deviceID cid r)) (device_blocks db2))
              (block_info db2)).

Section Ids.
(** The id the server gives to a row inserted into the block-info table. *)
Variable newID : list BlockInfo -> Z.

Definition update_block (info r : BlockInfo) : BlockInfo :=
  if bi_ID r =? bi_ID info
  then mkBlockInfo (bi_ID r) (bi_CacheID r) (bi_CID r) (bi_DeviceID info)
                   (bi_Status info) (bi_Size info) (bi_Reliability info)
  else r.

Definition insert_block (info : BlockInfo) (rows : list BlockInfo) : list BlockInfo :=
  rows ++ [mkBlockInfo (newID rows) (bi_CacheID info) (bi_CID info) (bi_DeviceID info)
                       (bi_Status info) (bi_Size info) (bi_Reliability info)].

(** [SetBlockInfo]. *)
Definition SetBlockInfo (info : BlockInfo) (carfileCid fid : string) (isUpdate : bool)
    (db : blockDB) : Validate.res error * blockDB :=
  if faulty db then (Validate.Panic "MustBegin", tick db) else
  let db1 := tick db in
  if faulty db1 then (Validate.Panic "MustExec", tick db1) else
  let infos := if isUpdate then map (update_block info) (block_info db1)
               else insert_block info (block_info db1) in
  let db2 := tick db1 in
  if negb (String.eqb fid EmptyString) then
    if faulty db2 then (Validate.Panic "MustExec", tick db2) else
    let blocks := device_blocks db2
                  ++ [mkNodeBlocks (bi_CID info) fid (bi_CacheID info) carfileCid
                                   (bi_DeviceID info)] in
    let db3 := tick db2 in
    if faulty db3 then (Validate.Ret (the_fault db3), tick db3) else
    (Validate.Ret nil_err, set_tables db3 blocks infos)
  else
    if faulty db2 then (Validate.Ret (the_fault db2), tick db2) else
    (Validate.Ret nil_err, set_tables db2 (device_blocks db2) infos).

End Ids.

(** [GetBlockInfo]: the first row of the key, or nothing (and no error). *)
Definition GetBlockInfo (cacheID cid deviceID : string) (db : blockDB)
    : (option BlockInfo * error) * blockDB :=
  if faulty db then ((None, the_fault db), tick db)
  else ((List.find (fun r => String.eqb (bi_CacheID r) cacheID && String.eqb (bi_CID r) cid
                             && String.eqb (bi_DeviceID r) deviceID) (block_info db),
         nil_err),
        tick db).

(** [HaveBlocks]: [rows.Next()] alone decides; no row is scanned. *)
Definition HaveBlocks (cacheID : string) (status : Z) (db : blockDB)
    : (bool * error) * blockDB :=
  if faulty db then ((false, the_fault db), tick db)
  else ((existsb (fun r => String.eqb (bi_CacheID r) cacheID && (bi_Status r =? status))
                 (block_info db),
         nil_err),
        tick db).

End BlockStore.

(* ===================================================================== *)
(** * The scheduler API: switches, validators on line, node tokens *)
(* ===================================================================== *)

Module SchedulerApi.
Import Api Validate.

Definition StatusOffline : string := "offline".
Definition StatusOnline : string := "online".

Definition getDeviceStatus (isOnline : bool) : string :=
  match isOnline with
  | true => StatusOnline
  | _ => StatusOffline
  end.

Definition ValidateSwitch (enable_ : bool) : M error :=
  ValidateRest.EnableValidate enable_ ;;; ret nil_err.

Definition ValidateRunningState : M (bool * error) :=
  b <- ValidateRest.IsEnable ;; ret (b, nil_err).

Definition ValidateStart : M error := StartValidateOnceTask.

(** The loop of [GetOnlineDeviceIDs] over the validator list. *)
Fixpoint onlineValidators (candidates : gmap string Node) (list_ : list string) : list string :=
  match list_ with
  | [] => []
  | deviceID :: rest =>
      match candidates !! deviceID with
      | Some node => deviceID :: onlineValidators candidates rest
      | None => onlineValidators candidates rest
      end
  end.

Section OnlineNodes.
(** [nodeManager.GetOnlineNodes] belongs to package [node]. *)
Variable GetOnlineNodes : NodeType -> World -> option (list string) * error.

Definition GetOnlineDeviceIDs (nodeType : NodeType) : M (option (list string) * error) :=
  if decide (nodeType = NodeValidate) then
    r <- onCache Cache.GetValidatorsWithList ;;
    let '(list_, err) := r in
    if negb (is_nil err) then ret (None, err) else
    w <- get ;;
    ret (Some (onlineValidators (CandidateNodeMap w) list_), nil_err)
  else
    w <- get ;; ret (GetOnlineNodes nodeType w).

End OnlineNodes.

Section Tokens.
(** [jwt.Sign] and [jwt.Verify] with an HMAC key built from a secret;
    [Verify] yields the payload's permissions and the library's error. *)
Variable Token : Type.
Variable Permission : Type.
Variable Sign : list Permission -> string -> option Token * error.
Variable Verify : Token -> string -> list Permission * error.
(** [persistent.GetNodeAllocateInfo(deviceID, SecretKey, &secret)]. *)
Variable GetNodeSecret : string -> string * error.
(** The scheduler's own secret, [s.APISecret]. *)
Variable APISecret : string.

(** [xerrors.Errorf(format + ": %w", err)]: the text ends with the text of
    the wrapped error. *)
Definition wrap (text : string) (err : error) : error :=
  Errorf (text +:+ ": " +:+ default EmptyString (Error err)).

(** [AuthNodeVerify]; [deviceID] is what [handler.GetDeviceID(ctx)]
    returns. *)
Definition AuthNodeVerify (deviceID : string) (token : Token)
    : option (list Permission) * error :=
  if String.eqb deviceID EmptyString then
    let '(allow, err) := Verify token APISecret in
    if negb (is_nil err) then (None, wrap "JWT Verification failed" err)
    else (Some allow, nil_err)
  else
    let '(secret, err) := GetNodeSecret deviceID in
    if negb (is_nil err) then
      (None, wrap (GoStrings.Sprintf "JWT Verification %s GetRegisterInfo failed"
                                     [GoStrings.Str deviceID]) err)
    else
      let deviceSecret := secret in
      let '(allow, err) := Verify token deviceSecret in
      if negb (is_nil err) then (None, wrap "JWT Verification failed" err)
      else (Some allow, nil_err).

(** [AuthNodeNew]. *)
Definition AuthNodeNew (perms : list Permission) (deviceID deviceSecret : string)
    : option Token * error :=
  let '(secret, err) := GetNodeSecret deviceID in
  if negb (is_nil err) then
    (None, wrap (GoStrings.Sprintf "JWT Verification %s GetRegisterInfo failed"
                                   [GoStrings.Str deviceID]) err)
  else if negb (String.eqb secret deviceSecret) then
    (None, Errorf (GoStrings.Sprintf "device %s secret not match" [GoStrings.Str deviceID]))
  else Sign perms deviceSecret.

End Tokens.

End SchedulerApi.

(* ===================================================================== *)
(** * Notions used to state the properties *)
(* ===================================================================== *)

Import Api Validate.

(** The records of the calls that returned no error. *)
Definition successes {I : Type} (rs : list (I * error)) : list I :=
  map fst (List.filter (fun r => is_nil (snd r)) rs).

(** What it means for the table [new] to hold the outcome [(status, msg)]
    of device [deviceID] in round [roundId], starting from table [old]:
    the rows are those of [old], in place; a row of the key carries the
    status and the message; every other row is the row it was. *)
Definition recorded (old new : list Persistent.ValidateResult) (roundId : Z)
    (deviceID : string) (status : Persistent.ValidateStatus) (msg : string) : Prop :=
  length new = length old
  /\ forall (i : nat) row, old !! i = Some row ->
       exists row', new !! i = Some row'
         /\ Persistent.vr_RoundID row' = Persistent.vr_RoundID row
         /\ Persistent.vr_DeviceID row' = Persistent.vr_DeviceID row
         /\ (Persistent.row_is roundId deviceID row = true ->
             Persistent.vr_Status row' = status /\ Persistent.vr_Msg row' = msg)
         /\ (Persistent.row_is roundId deviceID row = false -> row' = row).

Section Draws.
Variable randIntn : Z -> Z -> nat -> Z.
Variable CIDString2HashString : string -> option string.

(** The [fid] drawn at iteration [index] of the scoring loop, for the seed
    [sd] and the node's [maxFid]. *)
Definition drawnFid (sd maxFid : Z) (index : nat) : Z :=
  (if 0 <? maxFid then randIntn sd maxFid index else maxFid) + 1.

(** The generator after [index] iterations. *)
Definition genAt (sd maxFid : Z) (index : nat) : Z * nat :=
  (sd, if 0 <? maxFid then index else O).

(** The cid the node's map holds at the drawn [fid] (empty: no entry). *)
Definition expectedCid (blocks : gmap Z string) (sd maxFid : Z) (index : nat) : string :=
  default EmptyString (blocks !! drawnFid sd maxFid index).

(** The draw of iteration [index] is skipped. *)
Definition skipped (blocks : gmap Z string) (sd maxFid : Z) (index : nat) : bool :=
  String.eqb (expectedCid blocks sd maxFid index) EmptyString.

(** Iteration [index] finds a mismatch: the map holds a cid at the drawn
    [fid] and the reported [cids[index]] does not compare equal to it. *)
Definition mismatch (vr : ValidateResults) (blocks : gmap Z string) (sd maxFid : Z)
    (index : nat) : bool :=
  match Cids vr !! index with
  | Some resultCid =>
      negb (skipped blocks sd maxFid index)
      && negb (compareCid CIDString2HashString (expectedCid blocks sd maxFid index) resultCid)
  | None => false
  end.

(** The report [vr] gets as far as the scoring loop in world [w], with the
    node's map [blocks] and its recorded [maxFid]. *)
Definition reachesScoring (vr : ValidateResults) (w : World)
    (blocks : gmap Z string) (maxFid : Z) : Prop :=
  RoundID vr = curRoundId (engine w)
  /\ IsCancel vr = false /\ IsTimeout vr = false
  /\ (0 < length (Cids vr))%nat /\ 0 < RandomCount vr
  /\ Persistent.faulty (sql w) = false
  /\ blocks = Persistent.blocks_of (DeviceID vr) (Persistent.device_blocks (sql w))
  /\ (0 < size blocks)%nat
  /\ maxFidMap (engine w) !! DeviceID vr = Some maxFid.

End Draws.

(** What a round never touches: the timer and its sleeping goroutines,
    the interval, the switch, the challenge duration, the registry, the
    clock and the three oracles. *)
Definition fixed (w : World) :=
  (sleepers w, crontabRunning (engine w), interval (engine w), enable (engine w),
   duration (engine w), EdgeNodeMap w, CandidateNodeMap w, now w,
   Persistent.sql_fault (sql w), Cache.cache_fault (cache w), globalRand w).

(** The round ids and the seed. *)
Definition rounds (w : World) :=
  (seed (engine w), preRoundId (engine w), curRoundId (engine w)).

(** Everything but the number of random draws. *)
Definition still (w : World) :=
  (engine w, cache w, sql w, EdgeNodeMap w, CandidateNodeMap w, now w,
   globalRand w, sent w, sleepers w).

(** The computation [m] leaves the observation [obs] of the world as it
    is, whatever it returns. *)
Definition preserves {T A : Type} (obs : World -> T) (m : M A) : Prop :=
  forall w, obs (snd (m w)) = obs w.

(** Every value the computation [m] can return satisfies [P]. *)
Definition yields {A : Type} (P : A -> Prop) (m : M A) : Prop :=
  forall w a w', m w = (Ret a, w') -> P a.

(** The error of a store: none, or the driver's. *)
Definition store_error (err : error) : Prop :=
  err = nil_err \/ exists code, err = driverError code.

(** The errors a round can end with. *)
Definition round_error (err : error) : Prop :=
  store_error err \/ err = Errorf "edge node and candidate node are empty".

(** The error of the manual trigger while a round is running. *)
Definition inProgress : error := Errorf "validation in progress, cannot start again".

(** The world in which the manual trigger runs its round: a goroutine
    sleeps one interval before it restarts the timer, validation is
    switched on, the timer is stopped. *)
Definition armed (w : World) : World :=
  let w1 := with_sleepers w (sleepers w ++ [interval (engine w) * Minute]) in
  let w2 := with_engine w1 (set_enable (engine w1) true) in
  with_engine w2 (set_crontabRunning (engine w2) false).

(** Device [d] has a session in the edge or in the candidate registry. *)
Definition registered (w : World) (d : string) : Prop :=
  (exists key n, EdgeNodeMap w !! key = Some n /\ DeviceId n = d)
  \/ (exists key n, CandidateNodeMap w !! key = Some n /\ DeviceId n = d).

(** The table holds a row [created] for device [d] in round [cur]. *)
Definition created_in (cur : Z) (rows : list Persistent.ValidateResult) (d : string) : Prop :=
  exists row, row ∈ rows
    /\ Persistent.vr_RoundID row = cur /\ Persistent.vr_DeviceID row = d
    /\ Persistent.vr_Status row = Persistent.ValidateStatusCreate.

(** From [w] to [w'] the table [validate_result] was only appended to, and
    every device that joined the verifying set satisfies [ok] and has a row
    created in round [cur]. *)
Definition grows (ok : string -> Prop) (cur : Z) (w w' : World) : Prop :=
  (exists extra, Persistent.validate_result (sql w')
                 = Persistent.validate_result (sql w) ++ extra)
  /\ (forall d, d ∈ Cache.verifying (cache w') ->
        d ∈ Cache.verifying (cache w)
        \/ (ok d /\ created_in cur (Persistent.validate_result (sql w')) d)).

(** Every target of the plan satisfies [Q]. *)
Definition all_targets (Q : tmpDeviceMeta -> Prop)
    (result : gmap string (list tmpDeviceMeta)) : Prop :=
  forall v l tn, result !! v = Some l -> tn ∈ l -> Q tn.

(** The row carries the terminal status [timeout] and its message. *)
Definition timed (row : Persistent.ValidateResult) : Prop :=
  Persistent.vr_Status row = Persistent.ValidateStatusTimeOut
  /\ Persistent.vr_Msg row = errMsgTimeOut.

(** The validator picked for a node in world [w], when the pick does not
    panic. *)
Definition picked (validatorList : list string) (w : World) : option string :=
  match generatorForRandomNumber 0 (Z.of_nat (length validatorList)) w with
  | (Ret i, _) => if i <? 0 then None else validatorList !! Z.to_nat i
  | (Panic _, _) => None
  end.



(** The computation [m] returns from every world: it never panics. *)
Definition returns {A : Type} (m : M A) : Prop :=
  forall w, exists a w', m w = (Ret a, w').

(** All the targets of a plan, validator by validator. *)
Definition targets (result : gmap string (list tmpDeviceMeta)) : list tmpDeviceMeta :=
  map_to_list result ≫= snd.

(** The target built for a session of the edge or of the candidate
    registry. *)
Definition edgeTarget (n : Node) : tmpDeviceMeta :=
  mkTmpDeviceMeta (DeviceId n) NodeEdge (GetAddress n).

Definition candidateTarget (n : Node) : tmpDeviceMeta :=
  mkTmpDeviceMeta (DeviceId n) NodeCandidate (GetAddress n).

(** A target that [assemblyValidateReqAndStore] challenges when both
    stores answer: it holds a block and its [max_fid] is in the ephemeral
    store. *)
Definition eligible (w : World) (device : tmpDeviceMeta) : bool :=
  (0 <? Z.of_nat (length (filter (fun r => Persistent.nb_DeviceID r = deviceId device)
                                 (Persistent.device_blocks (sql w)))))
  && bool_decide (is_Some (Cache.nodeCacheFid (cache w) !! deviceId device)).

(** The challenge built for a target, and the row created for it. *)
Definition requestFor (w : World) (device : tmpDeviceMeta) : ReqValidate :=
  mkReqValidate (seed (engine w)) (addr device) (duration (engine w))
                (curRoundId (engine w)) (nodeType device)
                (default 0 (Cache.nodeCacheFid (cache w) !! deviceId device)).

Definition createdRow (w : World) (validatorID : string) (device : tmpDeviceMeta)
    : Persistent.ValidateResult :=
  Persistent.mkValidateResult (curRoundId (engine w)) (deviceId device) validatorID
    0 EmptyString Persistent.ValidateStatusCreate 0 0 (now w) 0.

(** What the dispatch reads and never writes. *)
Definition statics (w : World) :=
  (Persistent.device_blocks (sql w), Cache.nodeCacheFid (cache w), seed (engine w),
   duration (engine w), curRoundId (engine w), now w,
   Persistent.sql_fault (sql w), Cache.cache_fault (cache w), sent w).

(** No statement sent to either store fails. *)
Definition no_faults (w : World) : Prop :=
  (forall k, Persistent.sql_fault (sql w) k = false)
  /\ (forall k, Cache.cache_fault (cache w) k = false).

(* ===================================================================== *)
(** * Concrete worlds *)
(* ===================================================================== *)

Module Examples.

(** A stand-in generator, [(seed + k) mod n], and a stand-in hash, the
    cid itself. *)
Definition rnd (sd n : Z) (k : nat) : Z := (sd + Z.of_nat k) `mod` n.
Definition hash (s : string) : option string := Some s.

Definition never (k : nat) : bool := false.

(** Round 1 is running with seed 42; device ["d"] is being audited by
    validator ["c1"] and its [max_fid] is 1, so every draw is [fid = 1]. *)
Definition engine1 : Validate :=
  mkValidate 42 0 1 10 5 (<["d" := 1]> ∅) true validationStarting true.

Definition cache1 : Cache.cacheDB :=
  Cache.mkCacheDB 1 {["d"]} ["c1"] (<["d" := 1]> ∅) never 0.

Definition row_d : Persistent.ValidateResult :=
  Persistent.mkValidateResult 1 "d" "c1" 0 EmptyString Persistent.ValidateStatusCreate 0 0 7 0.

(** The device stores cid ["A"] under [fid] 1 ... *)
Definition sql_fid1 : Persistent.sqlDB :=
  Persistent.mkSqlDB [] [row_d] [Persistent.mkNodeBlocks "d" 1 "A"] never 0.

(** ... or under [fid] 5, which is never drawn. *)
Definition sql_fid5 : Persistent.sqlDB :=
  Persistent.mkSqlDB [] [row_d] [Persistent.mkNodeBlocks "d" 5 "A"] never 0.

Definition world_fid1 : World :=
  mkWorld engine1 cache1 sql_fid1 ∅ ∅ 100 (fun _ => 0) 0 [] [].

Definition world_fid5 : World :=
  mkWorld engine1 cache1 sql_fid5 ∅ ∅ 100 (fun _ => 0) 0 [] [].

(** Reports of device ["d"] for round 1, asking for two draws. *)
Definition report (cids : list string) : ValidateResults :=
  mkValidateResults "c1" 1 "d" cids 2 0 0 false false.

Definition report_cancel : ValidateResults :=
  mkValidateResults "c1" 1 "d" [] 0 0 0 true true.

Definition report_stale : ValidateResults :=
  mkValidateResults "c1" 0 "d" ["A"; "A"] 2 0 0 false false.

(** A registry of two edges and two candidates, both candidates elected;
    round 1 has left device ["d"] in the verifying set.  The first random
    draw yields 0, every later one 1. *)
Definition edges : gmap string Node :=
  <["e1" := mkNode "e1" "10.0.0.1"]> (<["e2" := mkNode "e2" "10.0.0.2"]> ∅).

Definition candidates : gmap string Node :=
  <["c1" := mkNode "c1" "10.0.1.1"]> (<["c2" := mkNode "c2" "10.0.1.2"]> ∅).

Definition cache_round : Cache.cacheDB :=
  Cache.mkCacheDB 1 {["d"]} ["c1"; "c2"]
    (<["e1" := 3]> (<["e2" := 4]> (<["c1" := 2]> ∅))) never 0.

Definition sql_round : Persistent.sqlDB :=
  Persistent.mkSqlDB [] [row_d]
    [Persistent.mkNodeBlocks "e1" 1 "A"; Persistent.mkNodeBlocks "e1" 2 "B";
     Persistent.mkNodeBlocks "c1" 1 "C"] never 0.

Definition engine_idle (enabled : bool) : Validate :=
  mkValidate 0 0 1 10 5 ∅ true validationNotStarted enabled.

Definition world_round : World :=
  mkWorld (engine_idle true) cache_round sql_round edges candidates 100
          (fun k => Z.of_nat (Nat.min k 1)) 0 [] [].

Definition world_disabled : World :=
  mkWorld (engine_idle false) cache_round sql_round edges candidates 100
          (fun k => Z.of_nat (Nat.min k 1)) 0 [] [].

(** The plan [validateMapping] builds in [world_round]. *)
Definition plan_round : gmap string (list tmpDeviceMeta) :=
  match fst (validateMapping ["c1"; "c2"] world_round) with
  | Ret (Some plan, _) => plan
  | _ => ∅
  end.

(** A node table shared by two schedulers. *)
Definition nodes : list Persistent.NodeInfo :=
  [Persistent.mkNodeInfo "n1" "t1" "geo" 1 1 "a1" "S" "t0";
   Persistent.mkNodeInfo "n2" "t1" "geo" 1 1 "a2" "other" "t0";
   Persistent.mkNodeInfo "n3" "t1" "geo" 2 0 "a3" "S" "t0"].

Definition sql_nodes : Persistent.sqlDB := Persistent.mkSqlDB nodes [] [] never 0.

(** An allocator whose every second call fails; the registry counts the
    calls and a record is the number of its call. *)
Definition allocate (nodeType : NodeType) (calls : nat) : (nat * error) * nat :=
  ((calls, if Nat.even calls then nil_err else Errorf "allocate failed"), S calls).

(** The status and the message of every row of [validate_result]. *)
Definition outcomes (w : World) : list (Persistent.ValidateStatus * string) :=
  map (fun r => (Persistent.vr_Status r, Persistent.vr_Msg r))
      (Persistent.validate_result (sql w)).

End Examples.

(** Further worlds: reports, stores that refuse a command, block tables
    and a toy token library. *)
Module MoreExamples.
Import Examples.


(** A report with bandwidth 8 and cost time 3. *)
Definition report_measured : ValidateResults :=
  mkValidateResults "c1" 1 "d" ["A"; "A"] 2 8 3 false false.

(** Device ["d"] holds no block. *)
Definition sql_no_blocks : Persistent.sqlDB := Persistent.mkSqlDB [] [row_d] [] never 0.

Definition world_no_blocks : World :=
  mkWorld engine1 cache1 sql_no_blocks ∅ ∅ 100 (fun _ => 0) 0 [] [].

(** The engine holds no [max_fid] for device ["d"]. *)
Definition engine_no_max_fid : Validate :=
  mkValidate 42 0 1 10 5 ∅ true validationStarting true.

Definition world_no_max_fid : World :=
  mkWorld engine_no_max_fid cache1 sql_fid1 ∅ ∅ 100 (fun _ => 0) 0 [] [].

(** An ephemeral store that refuses its second command. *)
Definition second (k : nat) : bool := Nat.eqb k 1.

Definition cache_refusing : Cache.cacheDB :=
  Cache.mkCacheDB 1 ∅ ["c1"; "c2"] (<["e1" := 3]> ∅) second 0.

Definition world_refusing : World :=
  mkWorld (engine_idle true) cache_refusing sql_round edges candidates 100
          (fun _ => 0) 0 [] [].

Definition target_e1 : tmpDeviceMeta := mkTmpDeviceMeta "e1" NodeEdge "10.0.0.1".
Definition target_e2 : tmpDeviceMeta := mkTmpDeviceMeta "e2" NodeEdge "10.0.0.2".

(** Block tables: device ["d"] holds cids ["A"] and ["B"], device ["e"]
    holds ["A"]; block 1 is done (status 3), block 2 is not. *)
Definition blocks_db : BlockStore.blockDB :=
  BlockStore.mkBlockDB
    [BlockStore.mkNodeBlocks "A" "1" "k1" "car" "d";
     BlockStore.mkNodeBlocks "B" "2" "k1" "car" "d";
     BlockStore.mkNodeBlocks "A" "1" "k1" "car" "e"]
    [BlockStore.mkBlockInfo 1 "k1" "A" "d" 3 10 1;
     BlockStore.mkBlockInfo 2 "k1" "B" "d" 1 10 1]
    never 0.

(** The rows of device ["e"] do not scan; block-info row 2 does not
    scan. *)
Definition unreadable_e (r : BlockStore.NodeBlocks) : bool :=
  negb (String.eqb (BlockStore.nb_DeviceID r) "e").

Definition unreadable_2 (r : BlockStore.BlockInfo) : bool :=
  negb (BlockStore.bi_ID r =? 2).

Definition nextID (rows : list BlockStore.BlockInfo) : Z := Z.of_nat (length rows) + 1.

Definition block_C : BlockStore.BlockInfo := BlockStore.mkBlockInfo 0 "k1" "C" "d" 0 10 1.

(** A token library that signs by pairing the permissions with the key. *)
Definition toySign (perms : list string) (key : string)
    : option (list string * string) * error :=
  (Some (perms, key), nil_err).

Definition toyVerify (t : list string * string) (key : string) : list string * error :=
  if String.eqb (snd t) key then (fst t, nil_err) else ([], Errorf "signature mismatch").

Definition toySecret (deviceID : string) : string * error :=
  if String.eqb deviceID "n1" then ("s1", nil_err) else (EmptyString, Errorf "Not Found").

End MoreExamples.

(* ===================================================================== *)
(** * Properties of the region suffix and the table names *)
(* ===================================================================== *)

Section AreaFacts.
Import GoStrings Persistent.
Variable unicodeToLower : string -> string.

Lemma map_lower_no_upper (s : string) :
  any_byte is_upper s = false -> map_bytes lower_byte s = s.
Proof.
  induction s as [|c s IH]; simpl; [reflexivity|].
  intros H. apply orb_false_iff in H as [Hc Hs].
  unfold lower_byte. rewrite Hc. f_equal. exact (IH Hs).
Qed.

Lemma ToLower_lowercased (s : string) :
  ToLower unicodeToLower s = lowercased unicodeToLower s.
Proof.
  unfold ToLower, lowercased.
  destruct (all_bytes is_ascii_byte s); [|reflexivity].
  destruct (any_byte is_upper s) eqn:Hup; simpl; [reflexivity|].
  symmetry. apply map_lower_no_upper. exact Hup.
Qed.

Lemma HasPrefix_dash (c : ascii) (s : string) :
  HasPrefix (String c s) "-" = Ascii.eqb "-"%char c.
Proof.
  cbn [HasPrefix]. destruct (Ascii.eqb "-"%char c); [|reflexivity].
  destruct s; reflexivity.
Qed.

Lemma replace_dash_unbounded (s : string) (n : Z) :
  n < 0 -> replace_from 0 s "-" "_" n = map_bytes dash_to_underscore s.
Proof.
  revert n. induction s as [|c s IH]; intros n Hn; [reflexivity|].
  cbn [replace_from map_bytes].
  destruct (Z.eqb_spec n 0) as [->|_]; [lia|].
  rewrite HasPrefix_dash. unfold dash_to_underscore at 1.
  rewrite (Ascii.eqb_sym c "-"%char).
  destruct (Ascii.eqb "-"%char c).
  - change (String.length "-" - 1)%nat with 0%nat.
    change ("_" +:+ replace_from 0 s "-" "_" (n - 1))
      with (String "_"%char (replace_from 0 s "-" "_" (n - 1))).
    f_equal. apply IH. lia.
  - f_equal. apply IH. lia.
Qed.

Lemma Replace_dash (s : string) :
  Replace s "-" "_" (-1) = map_bytes dash_to_underscore s.
Proof.
  unfold Replace. change (String.eqb "-" "_") with false.
  change (-1 =? 0) with false. cbn [orb].
  apply replace_dash_unbounded. lia.
Qed.

Lemma append_empty_r (s : string) : s +:+ EmptyString = s.
Proof.
  induction s as [|c s IH]; [reflexivity|].
  change (String c (s +:+ EmptyString) = String c s). rewrite IH. reflexivity.
Qed.

(** C8: the suffix computed by [ReplaceArea] is the region lower-cased with
    every '-' replaced by '_', and the per-node block table and the three
    per-carfile tables are named by their fixed prefix followed by that
    suffix. *)
Theorem ReplaceArea_table_names (serverArea : string) :
  ReplaceArea unicodeToLower serverArea = region_suffix_spec unicodeToLower serverArea
  /\ deviceBlockTableName unicodeToLower serverArea
     = "device_blocks_" +:+ region_suffix_spec unicodeToLower serverArea
  /\ dataInfoTableName unicodeToLower serverArea
     = "data_info_" +:+ region_suffix_spec unicodeToLower serverArea
  /\ blockInfoTableName unicodeToLower serverArea
     = "block_info_" +:+ region_suffix_spec unicodeToLower serverArea
  /\ cacheInfoTableName unicodeToLower serverArea
     = "cache_info_" +:+ region_suffix_spec unicodeToLower serverArea.
Proof.
  assert (Hs : ReplaceArea unicodeToLower serverArea
               = region_suffix_spec unicodeToLower serverArea).
  { unfold ReplaceArea, region_suffix_spec.
    rewrite Replace_dash, ToLower_lowercased. reflexivity. }
  unfold deviceBlockTableName, dataInfoTableName, blockInfoTableName, cacheInfoTableName.
  rewrite Hs.
  repeat split; cbn; rewrite append_empty_r; reflexivity.
Qed.

End AreaFacts.

(* ===================================================================== *)
(** * Properties of the node table *)
(* ===================================================================== *)

Section NodeTableFacts.
Import Persistent.

Lemma update_node_offline_same (S : string) (r : NodeInfo) :
  ServerName r = S -> update_node_offline S r = set_IsOnline r 0.
Proof. intros <-. unfold update_node_offline. rewrite String.eqb_refl. reflexivity. Qed.

Lemma update_node_offline_other (S : string) (r : NodeInfo) :
  ServerName r <> S -> update_node_offline S r = r.
Proof.
  intros H. unfold update_node_offline.
  destruct (String.eqb_spec (ServerName r) S); [contradiction|reflexivity].
Qed.

Lemma update_node_offline_ServerName (S : string) (r : NodeInfo) :
  ServerName (update_node_offline S r) = ServerName r.
Proof. unfold update_node_offline. destruct (String.eqb _ _); reflexivity. Qed.

(** C7: [SetAllNodeOffline] returns no error exactly when the server
    executes its statement (and the server's error otherwise); after a
    [SetAllNodeOffline] that the server executed, every row of server [S]
    is offline (and keeps its other columns), and whether or not the
    statement was executed, a row of another server is the row it was, at
    the place it was; the other tables are not touched. *)
Theorem SetAllNodeOffline_scoped (S : string) (db : sqlDB) :
  let err := fst (SetAllNodeOffline S db) in
  let db' := snd (SetAllNodeOffline S db) in
  length (node db') = length (node db)
  /\ err = (if faulty db then the_fault db else nil_err)
  /\ (err = nil_err ->
      forall r', r' ∈ node db' -> ServerName r' = S -> IsOnline r' = 0)
  /\ (err = nil_err ->
      forall (i : nat) r, node db !! i = Some r -> ServerName r = S ->
                          node db' !! i = Some (set_IsOnline r 0))
  /\ (forall (i : nat) r, node db !! i = Some r -> ServerName r <> S ->
                          node db' !! i = Some r)
  /\ validate_result db' = validate_result db
  /\ device_blocks db' = device_blocks db.
Proof.
  unfold SetAllNodeOffline. destruct (faulty db) eqn:Hf; simpl.
  - repeat split; try discriminate; auto.
  - repeat split.
    + apply length_map.
    + intros _ r' Hin HS.
      apply list_elem_of_fmap in Hin as (r & -> & _).
      rewrite update_node_offline_ServerName in HS.
      rewrite (update_node_offline_same S r HS). reflexivity.
    + intros _ i r Hi HS.
      rewrite list_lookup_fmap, Hi. simpl.
      rewrite (update_node_offline_same S r HS). reflexivity.
    + intros i r Hi HS.
      rewrite list_lookup_fmap, Hi. simpl.
      rewrite (update_node_offline_other S r HS). reflexivity.
Qed.

End NodeTableFacts.

(* ===================================================================== *)
(** * Properties of [AllocateNodes] *)
(* ===================================================================== *)

Section AllocateFacts.
Import Api Scheduler.
Variable NodeAllocateInfo : Type.
Variable Registry : Type.
Variable Allocate : NodeType -> Registry -> (NodeAllocateInfo * error) * Registry.

Lemma allocateLoop_successes (nodeType : NodeType) (todo : nat) :
  forall (acc : list NodeAllocateInfo) (reg : Registry),
    fst (allocateLoop NodeAllocateInfo Registry Allocate nodeType todo acc reg)
    = acc ++ successes (allocations NodeAllocateInfo Registry Allocate nodeType todo reg).
Proof.
  induction todo as [|todo IH]; intros acc reg; simpl.
  - unfold successes. simpl. rewrite app_nil_r. reflexivity.
  - destruct (Allocate nodeType reg) as [[info err] reg'].
    unfold successes in *. simpl.
    destruct (is_nil err); simpl; rewrite IH.
    + rewrite <- app_assoc. reflexivity.
    + reflexivity.
Qed.

Lemma allocations_length (nodeType : NodeType) (todo : nat) (reg : Registry) :
  length (allocations NodeAllocateInfo Registry Allocate nodeType todo reg) = todo.
Proof.
  revert reg. induction todo as [|todo IH]; intros reg; simpl; [reflexivity|].
  destruct (Allocate nodeType reg) as [r reg']. simpl. rewrite IH. reflexivity.
Qed.

Lemma successes_length {I : Type} (rs : list (I * error)) :
  (length (successes rs) <= length rs)%nat.
Proof.
  unfold successes. rewrite length_map. apply List.filter_length_le.
Qed.

(** C10: [AllocateNodes] returns the empty list, no error and an untouched
    registry for a count outside 1..10; for a count in 1..10 it returns no
    error and the records of the calls of [node.Allocate] that succeeded,
    in call order, which are at most [count]: a failed call is skipped. *)
Theorem AllocateNodes_count (nodeType : NodeType) (count : Z) (reg : Registry) :
  let out := AllocateNodes NodeAllocateInfo Registry Allocate nodeType count reg in
  (count <= 0 \/ 10 < count -> out = (([], nil_err), reg))
  /\ (1 <= count <= 10 ->
      snd (fst out) = nil_err
      /\ fst (fst out)
         = successes (allocations NodeAllocateInfo Registry Allocate nodeType
                                  (Z.to_nat count) reg)
      /\ Z.of_nat (length (fst (fst out))) <= count).
Proof.
  unfold AllocateNodes. split.
  - intros H.
    destruct (Z.leb_spec count 0); destruct (Z.ltb_spec 10 count); simpl;
      try reflexivity; lia.
  - intros H.
    destruct (Z.leb_spec count 0); [lia|].
    destruct (Z.ltb_spec 10 count); [lia|]. simpl.
    pose proof (allocateLoop_successes nodeType (Z.to_nat count) [] reg) as Hl.
    destruct (allocateLoop NodeAllocateInfo Registry Allocate nodeType
                           (Z.to_nat count) [] reg) as [l reg'].
    simpl in *. subst l. repeat split.
    pose proof (successes_length
                  (allocations NodeAllocateInfo Registry Allocate nodeType
                               (Z.to_nat count) reg)) as Hle.
    rewrite allocations_length in Hle. lia.
Qed.

End AllocateFacts.

(* ===================================================================== *)
(** * Properties of the validation engine *)
(* ===================================================================== *)

Section StoreFacts.
Import Persistent.

Lemma fail_row_recorded (info : ValidateResult) (rows : list ValidateResult) :
  recorded rows (map (fail_row info) rows) (vr_RoundID info) (vr_DeviceID info)
           (vr_Status info) (vr_Msg info).
Proof.
  split; [apply length_map|].
  intros i row Hi. rewrite list_lookup_fmap, Hi. simpl. unfold fail_row.
  destruct (row_is (vr_RoundID info) (vr_DeviceID info) row) eqn:E;
    eexists; (split; [reflexivity|]); simpl; intuition congruence.
Qed.

Lemma success_row_recorded (info : ValidateResult) (rows : list ValidateResult) :
  recorded rows (map (success_row info) rows) (vr_RoundID info) (vr_DeviceID info)
           (vr_Status info) (vr_Msg info).
Proof.
  split; [apply length_map|].
  intros i row Hi. rewrite list_lookup_fmap, Hi. simpl. unfold success_row.
  destruct (row_is (vr_RoundID info) (vr_DeviceID info) row) eqn:E;
    eexists; (split; [reflexivity|]); simpl; intuition congruence.
Qed.

(** A terminal update either fails and leaves the table, or succeeds and
    records its outcome. *)
Lemma UpdateFailValidateResultInfo_spec (info : ValidateResult) (db : sqlDB) :
  (fst (UpdateFailValidateResultInfo info db) <> nil_err
   /\ validate_result (snd (UpdateFailValidateResultInfo info db)) = validate_result db)
  \/ (fst (UpdateFailValidateResultInfo info db) = nil_err
      /\ validate_result (snd (UpdateFailValidateResultInfo info db))
         = map (fail_row info) (validate_result db)).
Proof.
  unfold UpdateFailValidateResultInfo. destruct (faulty db); simpl.
  - left. split; [discriminate|reflexivity].
  - right. split; reflexivity.
Qed.

Lemma UpdateSuccessValidateResultInfo_spec (info : ValidateResult) (db : sqlDB) :
  (fst (UpdateSuccessValidateResultInfo info db) <> nil_err
   /\ validate_result (snd (UpdateSuccessValidateResultInfo info db)) = validate_result db)
  \/ (fst (UpdateSuccessValidateResultInfo info db) = nil_err
      /\ validate_result (snd (UpdateSuccessValidateResultInfo info db))
         = map (success_row info) (validate_result db)).
Proof.
  unfold UpdateSuccessValidateResultInfo. destruct (faulty db); simpl.
  - left. split; [discriminate|reflexivity].
  - right. split; reflexivity.
Qed.

End StoreFacts.

(** Running the two deferred closures after a body: they return, and they
    leave the SQL store alone. *)
Lemma deferredRemove_returns (vr : ValidateResults) (w : World) :
  exists w', deferredRemove vr w = (Ret tt, w')
             /\ sql w' = sql w /\ engine w' = engine w.
Proof.
  unfold deferredRemove, bind, onCache, ret.
  destruct (Cache.RemoveNodeWithVerifyingList (DeviceID vr) (cache w)) as [err c].
  eexists. split; [reflexivity|]. split; reflexivity.
Qed.

Lemma deferredCount_returns (w : World) :
  exists w', deferredCount w = (Ret tt, w') /\ sql w' = sql w.
Proof.
  unfold deferredCount, bind, onCache, ret, setState, modify.
  destruct (Cache.CountVerifyingNode (cache w)) as [[count err] c].
  destruct (negb (is_nil err)); [eexists; split; reflexivity|].
  destruct (count =? 0); eexists; split; reflexivity.
Qed.

Lemma deferred_result {A} (vr : ValidateResults) (body : M A) (w : World) :
  exists w', defer deferredCount (defer (deferredRemove vr) body) w = (fst (body w), w')
             /\ sql w' = sql (snd (body w)).
Proof.
  unfold defer. destruct (body w) as [r w1]. simpl.
  destruct (deferredRemove_returns vr w1) as (w2 & -> & Hs2 & _).
  destruct (deferredCount_returns w2) as (w3 & -> & Hs3).
  exists w3. split; [reflexivity|]. congruence.
Qed.

Section CollectionFacts.
Variable randIntn : Z -> Z -> nat -> Z.
Variable CIDString2HashString : string -> option string.

Lemma handleValidateResult_current (vr : ValidateResults) (w : World) :
  RoundID vr = curRoundId (engine w) ->
  handleValidateResult randIntn CIDString2HashString vr w
  = defer deferredCount
      (defer (deferredRemove vr) (handleBody randIntn CIDString2HashString vr)) w.
Proof.
  intros H. unfold handleValidateResult, bind, get.
  rewrite H, Z.eqb_refl. reflexivity.
Qed.

(** C4: a report whose round id is not the current round id is answered
    with the round-mismatch error and leaves the whole world as it was: no
    row of [validate_result] is inserted or updated, the device stays in
    the verifying set, and the validate state keeps its value. *)
Theorem handleValidateResult_round_mismatch (vr : ValidateResults) (w : World) :
  RoundID vr <> curRoundId (engine w) ->
  handleValidateResult randIntn CIDString2HashString vr w
  = (Ret (Errorf "round id mismatch"), w).
Proof.
  intros H. unfold handleValidateResult, bind, get.
  destruct (Z.eqb_spec (RoundID vr) (curRoundId (engine w))); [contradiction|].
  reflexivity.
Qed.

Lemma UpdateFailValidateResult_outcome (roundId : Z) (deviceID msg : string)
    (status : Persistent.ValidateStatus) (w : World) :
  exists err w', UpdateFailValidateResult roundId deviceID msg status w = (Ret err, w')
    /\ ((err <> nil_err
         /\ Persistent.validate_result (sql w') = Persistent.validate_result (sql w))
        \/ (err = nil_err
            /\ recorded (Persistent.validate_result (sql w))
                        (Persistent.validate_result (sql w')) roundId deviceID status msg)).
Proof.
  unfold UpdateFailValidateResult, bind, get, onSql.
  set (info := Persistent.mkValidateResult roundId deviceID EmptyString 0 msg status 0 0 0 (now w)).
  pose proof (UpdateFailValidateResultInfo_spec info (sql w)) as H.
  destruct (Persistent.UpdateFailValidateResultInfo info (sql w)) as [err d].
  simpl in H. exists err, (with_sql w d). split; [reflexivity|]. simpl.
  destruct H as [[He Ht]|[He Ht]]; [left|right]; split; auto.
  rewrite Ht. apply (fail_row_recorded info).
Qed.

(** The error of a terminal update is the server's: none when the server
    executes the statement. *)
Lemma UpdateFailValidateResult_error (roundId : Z) (deviceID msg : string)
    (status : Persistent.ValidateStatus) (w : World) :
  fst (UpdateFailValidateResult roundId deviceID msg status w)
  = Ret (if Persistent.faulty (sql w) then Persistent.the_fault (sql w) else nil_err).
Proof.
  unfold UpdateFailValidateResult, bind, get, onSql, Persistent.UpdateFailValidateResultInfo.
  destruct (Persistent.faulty (sql w)); reflexivity.
Qed.

(** C5: a report of the current round with [is_cancel] set is answered by
    recording, for the row of [(round_id, device_id)], the status
    [cancelled] with the cancellation message, whatever its other fields
    are: the handler returns no error exactly when the SQL store executes
    the update (its one statement), and then the row carries that outcome;
    no row of the table takes the status [fail] by it, and when the store
    refuses the update its error is returned and the table stays as it
    was. *)
Theorem handleValidateResult_cancel (vr : ValidateResults) (w : World) :
  RoundID vr = curRoundId (engine w) ->
  IsCancel vr = true ->
  exists err w',
    handleValidateResult randIntn CIDString2HashString vr w = (Ret err, w')
    /\ err = (if Persistent.faulty (sql w) then Persistent.the_fault (sql w) else nil_err)
    /\ (err = nil_err ->
        recorded (Persistent.validate_result (sql w))
                 (Persistent.validate_result (sql w'))
                 (RoundID vr) (DeviceID vr)
                 Persistent.ValidateStatusCancel errMsgCancel)
    /\ (err <> nil_err ->
        Persistent.validate_result (sql w') = Persistent.validate_result (sql w))
    /\ (forall (i : nat) row',
          Persistent.validate_result (sql w') !! i = Some row' ->
          Persistent.vr_Status row' = Persistent.ValidateStatusFail ->
          Persistent.validate_result (sql w) !! i = Some row').
Proof.
  intros Hr Hc. rewrite (handleValidateResult_current vr w Hr).
  destruct (deferred_result vr (handleBody randIntn CIDString2HashString vr) w)
    as (w' & -> & Hsql).
  unfold handleBody in *. rewrite Hc in *.
  destruct (UpdateFailValidateResult_outcome (RoundID vr) (DeviceID vr) errMsgCancel
              Persistent.ValidateStatusCancel w) as (err & w1 & Hrun & Hout).
  pose proof (UpdateFailValidateResult_error (RoundID vr) (DeviceID vr) errMsgCancel
                Persistent.ValidateStatusCancel w) as Herr.
  rewrite Hrun in *. simpl in *.
  exists err, w'. split; [reflexivity|]. split; [congruence|]. rewrite Hsql.
  destruct Hout as [[He Ht]|[He Hrec]].
  - split; [contradiction|]. split; [auto|].
    intros i row' Hi _. rewrite <- Ht. exact Hi.
  - split; [auto|]. split; [contradiction|].
    intros i row' Hi Hfail.
    destruct Hrec as [Hlen Hrows].
    destruct (Persistent.validate_result (sql w) !! i) as [row|] eqn:Hold.
    + destruct (Hrows i row Hold) as (row2 & Hnew & _ & _ & Hkey & Hother).
      rewrite Hi in Hnew. injection Hnew as <-.
      destruct (Persistent.row_is (RoundID vr) (DeviceID vr) row) eqn:Hk.
      * destruct (Hkey eq_refl) as [Hst _]. congruence.
      * rewrite (Hother eq_refl). reflexivity.
    + apply lookup_ge_None in Hold. apply lookup_lt_Some in Hi. lia.
Qed.

End CollectionFacts.

Section ScoringFacts.
Variable randIntn : Z -> Z -> nat -> Z.
Variable CIDString2HashString : string -> option string.

#[local] Abbreviation scoring' := (scoring randIntn CIDString2HashString).
#[local] Abbreviation handleBody' := (handleBody randIntn CIDString2HashString).
#[local] Abbreviation drawnFid' := (drawnFid randIntn).
#[local] Abbreviation expectedCid' := (expectedCid randIntn).
#[local] Abbreviation skipped' := (skipped randIntn).
#[local] Abbreviation mismatch' := (mismatch randIntn CIDString2HashString).

Lemma getRandNum_genAt (sd maxFid : Z) (k : nat) :
  getRandNum randIntn maxFid (genAt sd maxFid k)
  = (drawnFid' sd maxFid k - 1, genAt sd maxFid (S k)).
Proof.
  unfold getRandNum, genAt, drawnFid.
  destruct (0 <? maxFid); simpl; f_equal; lia.
Qed.

(** One iteration of the loop, in terms of the draw of that iteration. *)
Lemma scoring_step (vr : ValidateResults) (maxFid : Z) (blocks : gmap Z string)
    (sd : Z) (todo k : nat) :
  scoring' vr maxFid blocks (S todo) (Z.of_nat k) (genAt sd maxFid k)
  = match Cids vr !! k with
    | None => panic "index out of range"
    | Some resultCid =>
        if skipped' blocks sd maxFid k then
          scoring' vr maxFid blocks todo (Z.of_nat (S k)) (genAt sd maxFid (S k))
        else if negb (compareCid CIDString2HashString (expectedCid' blocks sd maxFid k) resultCid)
        then UpdateFailValidateResult (RoundID vr) (DeviceID vr)
               (GoStrings.Sprintf "validate fail; resultCid:%s,cid_db:%s,fid:%d,index:%d"
                  [GoStrings.Str resultCid; GoStrings.Str (expectedCid' blocks sd maxFid k);
                   GoStrings.Int (drawnFid' sd maxFid k); GoStrings.Int (Z.of_nat k)])
               Persistent.ValidateStatusFail
        else scoring' vr maxFid blocks todo (Z.of_nat (S k)) (genAt sd maxFid (S k))
    end.
Proof.
  cbn [scoring]. rewrite getRandNum_genAt.
  replace (drawnFid' sd maxFid k - 1 + 1) with (drawnFid' sd maxFid k) by lia.
  destruct (Z.ltb_spec (Z.of_nat k) 0) as [Hneg|_]; [lia|].
  rewrite Nat2Z.id.
  replace (Z.of_nat k + 1) with (Z.of_nat (S k)) by lia.
  reflexivity.
Qed.

Lemma mismatch_false_inv (vr : ValidateResults) (blocks : gmap Z string)
    (sd maxFid : Z) (k : nat) (resultCid : string) :
  Cids vr !! k = Some resultCid ->
  mismatch' vr blocks sd maxFid k = false ->
  skipped' blocks sd maxFid k = true
  \/ (skipped' blocks sd maxFid k = false
      /\ compareCid CIDString2HashString (expectedCid' blocks sd maxFid k) resultCid = true).
Proof.
  unfold mismatch. intros -> H.
  destruct (skipped' blocks sd maxFid k); [left; reflexivity|right].
  split; [reflexivity|]. simpl in H. apply negb_false_iff in H. exact H.
Qed.

(** Without a mismatch' on the iterations left, and with a cid reported for
    each of them, the loop runs to its end and records success. *)
Lemma scoring_no_mismatch (vr : ValidateResults) (maxFid : Z) (blocks : gmap Z string)
    (sd : Z) (todo : nat) :
  forall k : nat,
    (k + todo <= length (Cids vr))%nat ->
    (forall j, (k <= j < k + todo)%nat -> mismatch' vr blocks sd maxFid j = false) ->
    scoring' vr maxFid blocks todo (Z.of_nat k) (genAt sd maxFid k)
    = UpdateSuccessValidateResult vr.
Proof.
  induction todo as [|todo IH]; intros k Hlen Hno; [reflexivity|].
  rewrite scoring_step.
  destruct (Cids vr !! k) as [resultCid|] eqn:Hk.
  2:{ apply lookup_ge_None in Hk. lia. }
  assert (Hrest : scoring' vr maxFid blocks todo (Z.of_nat (S k)) (genAt sd maxFid (S k))
                  = UpdateSuccessValidateResult vr).
  { apply IH; [lia|]. intros j Hj. apply Hno. lia. }
  destruct (mismatch_false_inv vr blocks sd maxFid k resultCid Hk (Hno k ltac:(lia)))
    as [Hs|[Hs Hc]]; rewrite Hs; [exact Hrest|].
  rewrite Hc. simpl. exact Hrest.
Qed.

(** With a cid reported for each iteration left, the loop returns. *)
Lemma scoring_returns (vr : ValidateResults) (maxFid : Z) (blocks : gmap Z string)
    (sd : Z) (todo : nat) :
  forall (k : nat) (w : World),
    (k + todo <= length (Cids vr))%nat ->
    exists err w', scoring' vr maxFid blocks todo (Z.of_nat k) (genAt sd maxFid k) w
                   = (Ret err, w').
Proof.
  induction todo as [|todo IH]; intros k w Hlen.
  - cbn [scoring]. unfold UpdateSuccessValidateResult, bind, get, onSql.
    destruct (Persistent.UpdateSuccessValidateResultInfo _ (sql w)) as [err d].
    eauto.
  - rewrite scoring_step.
    destruct (Cids vr !! k) as [resultCid|] eqn:Hk.
    2:{ apply lookup_ge_None in Hk. lia. }
    destruct (skipped' blocks sd maxFid k); [apply IH; lia|].
    destruct (negb (compareCid CIDString2HashString (expectedCid' blocks sd maxFid k) resultCid)).
    + destruct (UpdateFailValidateResult_outcome (RoundID vr) (DeviceID vr)
                  (GoStrings.Sprintf "validate fail; resultCid:%s,cid_db:%s,fid:%d,index:%d"
                     [GoStrings.Str resultCid; GoStrings.Str (expectedCid' blocks sd maxFid k);
                      GoStrings.Int (drawnFid' sd maxFid k); GoStrings.Int (Z.of_nat k)])
                  Persistent.ValidateStatusFail w) as (err & w' & H & _).
      eauto.
    + apply IH; lia.
Qed.

(** Fewer cids than iterations and no mismatch' on the cids reported: the
    loop reads past the end of [cids]. *)
Lemma scoring_out_of_range (vr : ValidateResults) (maxFid : Z) (blocks : gmap Z string)
    (sd : Z) (todo : nat) :
  forall k : nat,
    (k <= length (Cids vr) < k + todo)%nat ->
    (forall j, (k <= j < length (Cids vr))%nat -> mismatch' vr blocks sd maxFid j = false) ->
    scoring' vr maxFid blocks todo (Z.of_nat k) (genAt sd maxFid k)
    = panic "index out of range".
Proof.
  induction todo as [|todo IH]; intros k Hlen Hno; [lia|].
  rewrite scoring_step.
  destruct (Cids vr !! k) as [resultCid|] eqn:Hk; [|reflexivity].
  pose proof (lookup_lt_Some _ _ _ Hk) as Hlt.
  assert (Hrest : scoring' vr maxFid blocks todo (Z.of_nat (S k)) (genAt sd maxFid (S k))
                  = panic "index out of range").
  { apply IH; [lia|]. intros j Hj. apply Hno. lia. }
  destruct (mismatch_false_inv vr blocks sd maxFid k resultCid Hk (Hno k ltac:(lia)))
    as [Hs|[Hs Hc]]; rewrite Hs; [exact Hrest|].
  rewrite Hc. simpl. exact Hrest.
Qed.

(** A loop that panics has met no mismatch' on the cids reported. *)
Lemma scoring_panic_no_mismatch (vr : ValidateResults) (maxFid : Z)
    (blocks : gmap Z string) (sd : Z) (todo : nat) :
  forall (k : nat) (w : World) (msg : string),
    fst (scoring' vr maxFid blocks todo (Z.of_nat k) (genAt sd maxFid k) w) = Panic msg ->
    forall j, (k <= j < k + todo)%nat -> mismatch' vr blocks sd maxFid j = false.
Proof.
  induction todo as [|todo IH]; intros k w msg Hp j Hj; [lia|].
  rewrite scoring_step in Hp.
  unfold mismatch.
  destruct (Cids vr !! k) as [resultCid|] eqn:Hk.
  - destruct (decide (j = k)) as [->|Hne].
    + rewrite Hk.
      destruct (skipped' blocks sd maxFid k); [reflexivity|].
      destruct (compareCid CIDString2HashString (expectedCid' blocks sd maxFid k) resultCid);
        [reflexivity|]. cbn [negb] in Hp.
      destruct (UpdateFailValidateResult_outcome (RoundID vr) (DeviceID vr)
                  (GoStrings.Sprintf "validate fail; resultCid:%s,cid_db:%s,fid:%d,index:%d"
                     [GoStrings.Str resultCid; GoStrings.Str (expectedCid' blocks sd maxFid k);
                      GoStrings.Int (drawnFid' sd maxFid k); GoStrings.Int (Z.of_nat k)])
                  Persistent.ValidateStatusFail w) as (err & w' & H & _).
      rewrite H in Hp. discriminate.
    + assert (Hrest : fst (scoring' vr maxFid blocks todo (Z.of_nat (S k))
                                   (genAt sd maxFid (S k)) w) = Panic msg).
      { destruct (skipped' blocks sd maxFid k); [exact Hp|].
        destruct (compareCid CIDString2HashString (expectedCid' blocks sd maxFid k) resultCid);
          [exact Hp|]. cbn [negb] in Hp.
        destruct (UpdateFailValidateResult_outcome (RoundID vr) (DeviceID vr)
                    (GoStrings.Sprintf "validate fail; resultCid:%s,cid_db:%s,fid:%d,index:%d"
                       [GoStrings.Str resultCid; GoStrings.Str (expectedCid' blocks sd maxFid k);
                        GoStrings.Int (drawnFid' sd maxFid k); GoStrings.Int (Z.of_nat k)])
                    Persistent.ValidateStatusFail w) as (err & w' & H & _).
        rewrite H in Hp. discriminate. }
      apply (IH (S k) w msg Hrest j). lia.
  - (* no cid at [k]: none at [j] either *)
    apply lookup_ge_None in Hk.
    destruct (Cids vr !! j) eqn:Hjj; [|reflexivity].
    apply lookup_lt_Some in Hjj. lia.
Qed.

(** A report that reaches the scoring' loop: what the body of the handler
    amounts to. *)
Lemma handleBody_scoring (vr : ValidateResults) (w : World)
    (blocks : gmap Z string) (maxFid : Z) :
  reachesScoring vr w blocks maxFid ->
  handleBody' vr w
  = scoring' vr maxFid blocks (Z.to_nat (RandomCount vr)) (Z.of_nat 0)
            (genAt (seed (engine w)) maxFid 0)
            (with_sql w (Persistent.tick (sql w))).
Proof.
  intros (Hr & Hc & Ht & Hl & Hn & Hf & Hb & Hs & Hm).
  unfold handleBody. rewrite Hc, Ht.
  unfold bind at 1. unfold get at 1. cbv iota.
  destruct (Z.leb_spec (Z.of_nat (length (Cids vr))) 0); [lia|].
  destruct (Z.leb_spec (RandomCount vr) 0); [lia|].
  cbn [orb]. unfold bind at 1, onSql at 1, Persistent.GetBlocksFID.
  rewrite Hf. cbv iota. cbn [default is_nil negb orb]. unfold id. rewrite <- Hb.
  destruct (Z.leb_spec (Z.of_nat (size blocks)) 0); [lia|].
  unfold bind, get. cbn [engine with_sql]. rewrite Hm.
  unfold genAt. destruct (0 <? maxFid); reflexivity.
Qed.

End ScoringFacts.

Lemma recorded_keeps_other_status (old new : list Persistent.ValidateResult)
    (roundId : Z) (deviceID : string) (status other : Persistent.ValidateStatus)
    (msg : string) :
  recorded old new roundId deviceID status msg ->
  status <> other ->
  forall (i : nat) row',
    new !! i = Some row' -> Persistent.vr_Status row' = other -> old !! i = Some row'.
Proof.
  intros [Hlen Hrows] Hne i row' Hi Hst.
  destruct (old !! i) as [row|] eqn:Hold.
  - destruct (Hrows i row Hold) as (row2 & Hnew & _ & _ & Hkey & Hother).
    rewrite Hi in Hnew. injection Hnew as <-.
    destruct (Persistent.row_is roundId deviceID row) eqn:Hk.
    + destruct (Hkey eq_refl) as [Hs _]. congruence.
    + rewrite (Hother eq_refl). reflexivity.
  - apply lookup_ge_None in Hold. apply lookup_lt_Some in Hi. lia.
Qed.

Lemma UpdateSuccessValidateResult_outcome (vr : ValidateResults) (w : World) :
  exists err w', UpdateSuccessValidateResult vr w = (Ret err, w')
    /\ ((err <> nil_err
         /\ Persistent.validate_result (sql w') = Persistent.validate_result (sql w))
        \/ (err = nil_err
            /\ recorded (Persistent.validate_result (sql w))
                        (Persistent.validate_result (sql w')) (RoundID vr) (DeviceID vr)
                        Persistent.ValidateStatusSuccess "ok")).
Proof.
  unfold UpdateSuccessValidateResult, bind, get, onSql.
  set (info := Persistent.mkValidateResult _ _ _ _ _ _ _ _ _ _).
  pose proof (UpdateSuccessValidateResultInfo_spec info (sql w)) as H.
  destruct (Persistent.UpdateSuccessValidateResultInfo info (sql w)) as [err d].
  simpl in H. exists err, (with_sql w d). split; [reflexivity|]. simpl.
  destruct H as [[He Ht]|[He Ht]]; [left|right]; split; auto.
  rewrite Ht. apply (success_row_recorded info).
Qed.

Lemma UpdateSuccessValidateResult_error (vr : ValidateResults) (w : World) :
  fst (UpdateSuccessValidateResult vr w)
  = Ret (if Persistent.faulty (sql w) then Persistent.the_fault (sql w) else nil_err).
Proof.
  unfold UpdateSuccessValidateResult, bind, get, onSql,
    Persistent.UpdateSuccessValidateResultInfo.
  destruct (Persistent.faulty (sql w)); reflexivity.
Qed.

Section ScoringClaims.
Variable randIntn : Z -> Z -> nat -> Z.
Variable CIDString2HashString : string -> option string.

(** C1, amended: a report that reaches the scoring loop with a cid for
    every draw and whose every draw is skipped is recorded with the status
    [success] and the message "ok" (the program has no "no cids checked"
    outcome): the handler returns no error exactly when the SQL store
    executes the update (the statement after the block query), and then
    the row carries that outcome; when the store refuses the update its
    error is returned and the table stays as it was.  No row takes the
    status [fail], so a skipped draw is never counted as a mismatch. *)
Theorem handleValidateResult_all_skipped (vr : ValidateResults) (w : World)
    (blocks : gmap Z string) (maxFid : Z) :
  reachesScoring vr w blocks maxFid ->
  RandomCount vr <= Z.of_nat (length (Cids vr)) ->
  (forall index : nat, Z.of_nat index < RandomCount vr ->
                       skipped randIntn blocks (seed (engine w)) maxFid index = true) ->
  exists err w',
    handleValidateResult randIntn CIDString2HashString vr w = (Ret err, w')
    /\ err = (if Persistent.faulty (Persistent.tick (sql w))
              then Persistent.the_fault (Persistent.tick (sql w)) else nil_err)
    /\ (err = nil_err ->
        recorded (Persistent.validate_result (sql w))
                 (Persistent.validate_result (sql w'))
                 (RoundID vr) (DeviceID vr) Persistent.ValidateStatusSuccess "ok")
    /\ (err <> nil_err ->
        Persistent.validate_result (sql w') = Persistent.validate_result (sql w))
    /\ (forall (i : nat) row',
          Persistent.validate_result (sql w') !! i = Some row' ->
          Persistent.vr_Status row' = Persistent.ValidateStatusFail ->
          Persistent.validate_result (sql w) !! i = Some row').
Proof.
  intros Hreach Hlen Hskip.
  pose proof Hreach as (Hr & _).
  rewrite (handleValidateResult_current _ _ vr w Hr).
  destruct (deferred_result vr (handleBody randIntn CIDString2HashString vr) w)
    as (w' & -> & Hsql).
  assert (Hbody : handleBody randIntn CIDString2HashString vr w
                  = UpdateSuccessValidateResult vr (with_sql w (Persistent.tick (sql w)))).
  { rewrite (handleBody_scoring _ _ vr w blocks maxFid Hreach).
    rewrite (scoring_no_mismatch randIntn CIDString2HashString vr maxFid blocks
               (seed (engine w)) (Z.to_nat (RandomCount vr)) 0); [reflexivity|lia|].
    intros j Hj. unfold mismatch.
    destruct (Cids vr !! j); [|reflexivity].
    rewrite Hskip by lia. reflexivity. }
  rewrite Hbody in Hsql |- *.
  destruct (UpdateSuccessValidateResult_outcome vr (with_sql w (Persistent.tick (sql w))))
    as (err & w1 & Hrun & Hout).
  pose proof (UpdateSuccessValidateResult_error vr (with_sql w (Persistent.tick (sql w))))
    as Herr.
  rewrite Hrun in *. simpl in Hsql, Hout |- *. cbn [fst sql with_sql] in Herr.
  exists err, w'. split; [reflexivity|].
  split; [injection Herr as Herr; exact Herr|]. rewrite Hsql.
  destruct Hout as [[He Ht]|[He Hrec]].
  - split; [contradiction|]. split; [auto|].
    intros i row' Hi _. rewrite <- Ht. exact Hi.
  - split; [auto|]. split; [contradiction|].
    apply (recorded_keeps_other_status _ _ _ _ _ _ _ Hrec). discriminate.
Qed.

(** C9, amended: the loop reads [cids[index]] at each iteration it gets to
    and stops at the first mismatch.  For a report that reaches the loop:
    with [random_count <= len(cids)] the handler returns (no index is out
    of range); with [len(cids) < random_count] it panics on an index out
    of range exactly when no mismatch is found on the cids reported, and
    otherwise returns at the first mismatch. *)
Theorem handleValidateResult_index_range (vr : ValidateResults) (w : World)
    (blocks : gmap Z string) (maxFid : Z) :
  reachesScoring vr w blocks maxFid ->
  (RandomCount vr <= Z.of_nat (length (Cids vr)) ->
   exists err w', handleValidateResult randIntn CIDString2HashString vr w = (Ret err, w'))
  /\ (Z.of_nat (length (Cids vr)) < RandomCount vr ->
      (fst (handleValidateResult randIntn CIDString2HashString vr w)
       = Panic "index out of range"
       <-> forall j : nat, (j < length (Cids vr))%nat ->
             mismatch randIntn CIDString2HashString vr blocks (seed (engine w)) maxFid j
             = false)).
Proof.
  intros Hreach.
  pose proof Hreach as (Hr & _).
  rewrite (handleValidateResult_current _ _ vr w Hr).
  destruct (deferred_result vr (handleBody randIntn CIDString2HashString vr) w)
    as (w' & -> & Hsql).
  rewrite (handleBody_scoring _ _ vr w blocks maxFid Hreach) in Hsql |- *.
  split.
  - intros Hlen.
    destruct (scoring_returns randIntn CIDString2HashString vr maxFid blocks
                (seed (engine w)) (Z.to_nat (RandomCount vr)) 0
                (with_sql w (Persistent.tick (sql w)))) as (err & w1 & Hrun); [lia|].
    rewrite Hrun. simpl. eauto.
  - intros Hlen. cbn [fst]. split.
    + intros Hp j Hj.
      apply (scoring_panic_no_mismatch randIntn CIDString2HashString vr maxFid blocks
               (seed (engine w)) (Z.to_nat (RandomCount vr)) 0 _ _ Hp). lia.
    + intros Hno.
      rewrite (scoring_out_of_range randIntn CIDString2HashString vr maxFid blocks
                 (seed (engine w)) (Z.to_nat (RandomCount vr)) 0); [reflexivity|lia|].
      intros j Hj. apply Hno. lia.
Qed.

End ScoringClaims.

Section ScoringExamples.
Import Examples.

(** C1 as stated fails: both draws of this report are skipped ([fid] 1 is
    drawn twice, the node's map has an entry at [fid] 5 only), and the row
    is recorded as [success] with message "ok", not as [fail]. *)
Lemma all_skipped_is_success :
  skipped rnd (Persistent.blocks_of "d" (Persistent.device_blocks sql_fid5)) 42 1 0 = true
  /\ skipped rnd (Persistent.blocks_of "d" (Persistent.device_blocks sql_fid5)) 42 1 1 = true
  /\ fst (handleValidateResult rnd hash (report ["A"; "B"]) world_fid5) = Ret nil_err
  /\ outcomes (snd (handleValidateResult rnd hash (report ["A"; "B"]) world_fid5))
     = [(Persistent.ValidateStatusSuccess, "ok")].
Proof. vm_compute. repeat split. Qed.

(** A report with two cids for two draws reaches the scoring loop. *)
Lemma reaches_fid5 :
  reachesScoring (report ["A"; "B"]) world_fid5
    (Persistent.blocks_of "d" (Persistent.device_blocks sql_fid5)) 1.
Proof. unfold reachesScoring. repeat split; vm_compute; (reflexivity || lia). Qed.

(** C1, amended, at [world_fid5]: both draws are skipped. *)
Lemma handleValidateResult_all_skipped_witness :
  exists err w',
    handleValidateResult rnd hash (report ["A"; "B"]) world_fid5 = (Ret err, w')
    /\ err = nil_err
    /\ (err = nil_err ->
        recorded (Persistent.validate_result (sql world_fid5))
                 (Persistent.validate_result (sql w'))
                 1 "d" Persistent.ValidateStatusSuccess "ok")
    /\ (err <> nil_err ->
        Persistent.validate_result (sql w') = Persistent.validate_result (sql world_fid5))
    /\ (forall (i : nat) row',
          Persistent.validate_result (sql w') !! i = Some row' ->
          Persistent.vr_Status row' = Persistent.ValidateStatusFail ->
          Persistent.validate_result (sql world_fid5) !! i = Some row').
Proof.
  apply (handleValidateResult_all_skipped rnd hash (report ["A"; "B"]) world_fid5
           (Persistent.blocks_of "d" (Persistent.device_blocks sql_fid5)) 1).
  - exact reaches_fid5.
  - vm_compute. discriminate.
  - intros [|[|index]] H; [reflexivity|reflexivity|].
    change (RandomCount (report ["A"; "B"])) with 2 in H. lia.
Defined.

(** C9 as stated fails: one cid for two draws and a non-empty map, yet no
    index is out of range, because the mismatch at index 0 ends the loop. *)
Lemma short_cids_without_panic :
  (0 < length (Cids (report ["X"])))%nat
  /\ Z.of_nat (length (Cids (report ["X"]))) < RandomCount (report ["X"])
  /\ size (Persistent.blocks_of "d" (Persistent.device_blocks sql_fid1)) = 1%nat
  /\ fst (handleValidateResult rnd hash (report ["X"]) world_fid1) = Ret nil_err
  /\ outcomes (snd (handleValidateResult rnd hash (report ["X"]) world_fid1))
     = [(Persistent.ValidateStatusFail,
         "validate fail; resultCid:X,cid_db:A,fid:1,index:0")].
Proof. vm_compute. repeat split; lia. Qed.

(** One matching cid for two draws reaches the scoring loop. *)
Lemma reaches_fid1 :
  reachesScoring (report ["A"]) world_fid1
    (Persistent.blocks_of "d" (Persistent.device_blocks sql_fid1)) 1.
Proof. unfold reachesScoring. repeat split; vm_compute; (reflexivity || lia). Qed.

(** C9, amended, at [world_fid1] with one cid for two draws. *)
Lemma handleValidateResult_index_range_witness :
  (RandomCount (report ["A"]) <= Z.of_nat (length (Cids (report ["A"]))) ->
   exists err w', handleValidateResult rnd hash (report ["A"]) world_fid1 = (Ret err, w'))
  /\ (Z.of_nat (length (Cids (report ["A"]))) < RandomCount (report ["A"]) ->
      (fst (handleValidateResult rnd hash (report ["A"]) world_fid1)
       = Panic "index out of range"
       <-> forall j : nat, (j < length (Cids (report ["A"])))%nat ->
             mismatch rnd hash (report ["A"])
               (Persistent.blocks_of "d" (Persistent.device_blocks sql_fid1))
               (seed (engine world_fid1)) 1 j
             = false)).
Proof.
  apply (handleValidateResult_index_range rnd hash (report ["A"]) world_fid1
           (Persistent.blocks_of "d" (Persistent.device_blocks sql_fid1)) 1).
  exact reaches_fid1.
Defined.

End ScoringExamples.

(* ===================================================================== *)
(** * Properties of the round plan *)
(* ===================================================================== *)

Section PlanFacts.
Variable validatorList : list string.

#[local] Abbreviation plan_t := (gmap string (list tmpDeviceMeta)).

Lemma assign_lookup_same (result : plan_t) (v : string) (tn : tmpDeviceMeta) :
  assign result v tn !! v = Some (default [] (result !! v) ++ [tn]).
Proof.
  unfold assign. destruct (result !! v) as [l|] eqn:H; rewrite lookup_insert_eq; reflexivity.
Qed.

Lemma assign_lookup_other (result : plan_t) (v v' : string) (tn : tmpDeviceMeta) :
  v <> v' -> assign result v tn !! v' = result !! v'.
Proof.
  intros H. unfold assign.
  destruct (result !! v); rewrite lookup_insert_ne by exact H; reflexivity.
Qed.

(** The members of an extended plan: the new target under its validator,
    or a member of the plan before. *)
Lemma assign_member (result : plan_t) (v v' : string) (tn tn' : tmpDeviceMeta)
    (l : list tmpDeviceMeta) :
  assign result v tn !! v' = Some l -> tn' ∈ l ->
  (v' = v /\ tn' = tn) \/ (exists l0, result !! v' = Some l0 /\ tn' ∈ l0).
Proof.
  intros Hl Hin. destruct (decide (v = v')) as [<-|Hne].
  - rewrite assign_lookup_same in Hl. injection Hl as <-.
    apply elem_of_app in Hin as [Hin|Hin].
    + right. destruct (result !! v) as [l0|]; simpl in Hin.
      * eauto.
      * inversion Hin.
    + left. apply list_elem_of_singleton in Hin. auto.
  - rewrite assign_lookup_other in Hl by exact Hne. eauto.
Qed.



Lemma generatorForRandomNumber_returns (start end_ : Z) (w : World) :
  exists y w', generatorForRandomNumber start end_ w = (Ret y, w')
               /\ (start < end_ -> start <= y < end_)
               /\ (end_ <= start -> y = start).
Proof.
  unfold generatorForRandomNumber.
  destruct (Z.leb_spec (end_ - start) 0) as [H|H].
  - exists start, w. split; [reflexivity|]. split; lia.
  - eexists _, _. split; [reflexivity|].
    pose proof (Z.mod_pos_bound (globalRand w (randCalls w)) (end_ - start) H).
    split; lia.
Qed.

Lemma pick_step {A} (k : string -> M A) (w : World) :
  (i <- generatorForRandomNumber 0 (Z.of_nat (length validatorList)) ;;
   validatorID <- index_validator validatorList i ;; k validatorID) w
  = match picked validatorList w with
    | Some v => k v (snd (generatorForRandomNumber 0 (Z.of_nat (length validatorList)) w))
    | None => (Panic "index out of range",
               snd (generatorForRandomNumber 0 (Z.of_nat (length validatorList)) w))
    end.
Proof.
  unfold picked, bind at 1.
  destruct (generatorForRandomNumber_returns 0 (Z.of_nat (length validatorList)) w)
    as (i & w' & -> & _). cbn [snd].
  unfold bind, index_validator.
  destruct (if i <? 0 then None else validatorList !! Z.to_nat i); reflexivity.
Qed.

Lemma picked_elem (w : World) (v : string) : picked validatorList w = Some v -> v ∈ validatorList.
Proof.
  unfold picked.
  destruct (generatorForRandomNumber 0 (Z.of_nat (length validatorList)) w) as [[i|msg] w'];
    [|discriminate].
  destruct (i <? 0); [discriminate|]. apply list_elem_of_lookup_2.
Qed.

Lemma picked_nonempty (w : World) :
  validatorList <> [] -> exists v, picked validatorList w = Some v.
Proof.
  intros Hne. unfold picked.
  destruct (generatorForRandomNumber_returns 0 (Z.of_nat (length validatorList)) w)
    as (i & w' & -> & Hin & _).
  assert (0 < Z.of_nat (length validatorList)) as Hpos.
  { destruct validatorList; [contradiction|]. simpl. lia. }
  specialize (Hin Hpos).
  destruct (Z.ltb_spec i 0); [lia|].
  apply lookup_lt_is_Some_2. lia.
Qed.

(** One edge: it goes under the validator picked. *)
Lemma mapEdge_step (edgeNode : Node) (result : plan_t) (w : World) :
  mapEdge validatorList edgeNode result w
  = match picked validatorList w with
    | Some v => (Ret (assign result v
                        (mkTmpDeviceMeta (DeviceId edgeNode) NodeEdge (GetAddress edgeNode))),
                 snd (generatorForRandomNumber 0 (Z.of_nat (length validatorList)) w))
    | None => (Panic "index out of range",
               snd (generatorForRandomNumber 0 (Z.of_nat (length validatorList)) w))
    end.
Proof. unfold mapEdge. rewrite pick_step. destruct (picked validatorList w); reflexivity. Qed.

(** One candidate: it goes under the validator picked, unless that is the
    candidate itself, in which case the plan stays as it is. *)
Lemma mapCandidate_step (candidateNode : Node) (result : plan_t) (w : World) :
  mapCandidate validatorList candidateNode result w
  = match picked validatorList w with
    | Some v =>
        (Ret (if String.eqb v (DeviceId candidateNode) then result
              else assign result v
                     (mkTmpDeviceMeta (DeviceId candidateNode) NodeCandidate
                                      (GetAddress candidateNode))),
         snd (generatorForRandomNumber 0 (Z.of_nat (length validatorList)) w))
    | None => (Panic "index out of range",
               snd (generatorForRandomNumber 0 (Z.of_nat (length validatorList)) w))
    end.
Proof.
  unfold mapCandidate. rewrite pick_step. destruct (picked validatorList w) as [v|]; [|reflexivity].
  destruct (String.eqb v (DeviceId candidateNode)); reflexivity.
Qed.







End PlanFacts.

(* ===================================================================== *)
(** * What the engine's functions leave alone *)
(* ===================================================================== *)

Section Preservation.
Context {T : Type} (obs : World -> T).

Lemma preserves_ret {A} (a : A) : preserves obs (ret a).
Proof. intros w. reflexivity. Qed.

Lemma preserves_panic {A} (msg : string) : preserves obs (@panic A msg).
Proof. intros w. reflexivity. Qed.

Lemma preserves_get : preserves obs get.
Proof. intros w. reflexivity. Qed.

Lemma preserves_bind {A B} (m : M A) (k : A -> M B) :
  preserves obs m -> (forall a, preserves obs (k a)) -> preserves obs (bind m k).
Proof.
  intros Hm Hk w. unfold bind. specialize (Hm w).
  destruct (m w) as [[a|msg] w1]; simpl in *.
  - rewrite (Hk a w1). exact Hm.
  - exact Hm.
Qed.

Lemma preserves_modify (f : World -> World) :
  (forall w, obs (f w) = obs w) -> preserves obs (modify f).
Proof. intros H w. apply H. Qed.

Lemma preserves_onCache {A} (op : Cache.cacheDB -> A * Cache.cacheDB) :
  (forall w, obs (with_cache w (snd (op (cache w)))) = obs w) ->
  preserves obs (onCache op).
Proof.
  intros H w. unfold onCache. specialize (H w).
  destruct (op (cache w)) as [a c]. exact H.
Qed.

Lemma preserves_onSql {A} (op : Persistent.sqlDB -> A * Persistent.sqlDB) :
  (forall w, obs (with_sql w (snd (op (sql w)))) = obs w) ->
  preserves obs (onSql op).
Proof.
  intros H w. unfold onSql. specialize (H w).
  destruct (op (sql w)) as [a d]. exact H.
Qed.

Lemma preserves_defer {A} (d : M unit) (body : M A) :
  preserves obs d -> preserves obs body -> preserves obs (defer d body).
Proof.
  intros Hd Hb w. unfold defer. specialize (Hb w).
  destruct (body w) as [r w1]. specialize (Hd w1).
  destruct (d w1) as [[u|msg] w2]; simpl in *; congruence.
Qed.

Lemma preserves_Range {S : Type} (f : Node -> S -> M S) (entries : list (string * Node)) :
  (forall n acc, preserves obs (f n acc)) ->
  forall acc, preserves obs (Range f entries acc).
Proof.
  intros Hf. induction entries as [|[key n] rest IH]; intros acc; cbn [Range].
  - apply preserves_ret.
  - apply preserves_bind; [apply Hf|exact IH].
Qed.

End Preservation.

(** Unfolds the operations of the two stores. *)
Ltac store_ops :=
  unfold Cache.GetPreviousAndCurrentRoundId, Cache.GetNodesWithVerifyingList,
    Cache.RemoveVerifyingList, Cache.GetValidatorsWithList, Cache.GetNodeCacheFid,
    Cache.SetNodeToVerifyingList, Cache.RemoveNodeWithVerifyingList,
    Cache.CountVerifyingNode, Persistent.InsertValidateResultInfo,
    Persistent.UpdateFailValidateResultInfo, Persistent.UpdateSuccessValidateResultInfo,
    Persistent.GetBlocksFID, Persistent.CountCidOfDevice;
  repeat case_match; reflexivity.

(** Proves that a straight-line program preserves an observation; loops
    are taken from the hypotheses and from the hint base [preserve]. *)
Create HintDb preserve.

Ltac preserve :=
  repeat first
    [ apply preserves_ret
    | apply preserves_panic
    | apply preserves_get
    | apply preserves_modify; intros; reflexivity
    | apply preserves_onCache; intros; store_ops
    | apply preserves_onSql; intros; store_ops
    | apply preserves_bind; [|intros]
    | apply preserves_defer
    | match goal with
      | |- preserves _ (if ?b then _ else _) => destruct b
      | |- preserves _ (match ?x with _ => _ end) => destruct x
      | |- preserves _ (let '(_, _) := ?x in _) => destruct x
      end
    | solve [eauto with preserve] ].

Section EngineFrames.

Lemma generatorForRandomNumber_preserves {T} (obs : World -> T) (start end_ : Z) :
  (forall w n, obs (with_randCalls w n) = obs w) ->
  preserves obs (generatorForRandomNumber start end_).
Proof.
  intros H w. unfold generatorForRandomNumber.
  destruct (end_ - start <=? 0); [reflexivity|apply H].
Qed.

(** [validateMapping] only draws random numbers. *)
Lemma validateMapping_stores (validatorList : list string) :
  preserves still (validateMapping validatorList).
Proof.
  assert (Hg : forall s e, preserves still (generatorForRandomNumber s e)).
  { intros s e. apply generatorForRandomNumber_preserves. reflexivity. }
  unfold validateMapping.
  apply preserves_bind; [preserve|intros w0].
  apply preserves_bind.
  { apply preserves_Range. intros n acc. unfold mapEdge, index_validator. preserve. }
  intros r1. apply preserves_bind.
  { apply preserves_Range. intros n acc. unfold mapCandidate, index_validator. preserve. }
  intros r2. preserve.
Qed.

Lemma UpdateFailValidateResult_fixed (roundId : Z) (deviceID msg : string)
    (status : Persistent.ValidateStatus) :
  preserves (fun w => (fixed w, rounds w, cache w, engine w))
            (UpdateFailValidateResult roundId deviceID msg status).
Proof. unfold UpdateFailValidateResult. preserve. Qed.

Lemma timeOutAll_fixed (deviceIDs : list string) :
  preserves (fun w => (fixed w, rounds w, cache w, engine w)) (timeOutAll deviceIDs).
Proof.
  induction deviceIDs as [|di rest IH]; cbn [timeOutAll]; [preserve|].
  apply preserves_bind; [preserve|intros w0].
  apply preserves_bind; [apply UpdateFailValidateResult_fixed|intros _; exact IH].
Qed.

Lemma assemblyDevice_fixed (validatorID : string) (device : tmpDeviceMeta)
    (req : list ReqValidate) :
  preserves (fun w => (fixed w, rounds w)) (assemblyDevice validatorID device req).
Proof. unfold assemblyDevice. preserve. Qed.

Lemma assemblyLoop_fixed (validatorID : string) (list_ : list tmpDeviceMeta) :
  forall req, preserves (fun w => (fixed w, rounds w)) (assemblyLoop validatorID list_ req).
Proof.
  induction list_ as [|device rest IH]; intros req; cbn [assemblyLoop]; [preserve|].
  apply preserves_bind; [apply assemblyDevice_fixed|intros req'; apply IH].
Qed.

Lemma dispatch_fixed (vId : string) (list_ : list tmpDeviceMeta) :
  preserves (fun w => (fixed w, rounds w)) (dispatch vId list_).
Proof.
  unfold dispatch, assemblyValidateReqAndStore.
  apply preserves_bind; [apply assemblyLoop_fixed|intros req]. preserve.
Qed.

Lemma dispatchAll_fixed (plan : list (string * list tmpDeviceMeta)) :
  preserves (fun w => (fixed w, rounds w)) (dispatchAll plan).
Proof.
  induction plan as [|[vId list_] rest IH]; cbn [dispatchAll]; [preserve|].
  apply preserves_bind; [apply dispatch_fixed|intros _; exact IH].
Qed.

Lemma still_fixed {A} (m : M A) :
  preserves still m -> preserves (fun w => (fixed w, rounds w)) m.
Proof.
  intros H w. specialize (H w). unfold still, fixed, rounds in *.
  injection H as H1 H2 H3 H4 H5 H6 H7 H8. congruence.
Qed.

Lemma execute_fixed : preserves (fun w => (fixed w, rounds w)) execute.
Proof.
  unfold execute, setState.
  apply preserves_bind; [preserve|intros _].
  apply preserves_bind; [preserve|intros err].
  destruct (negb (is_nil err)); [preserve|].
  apply preserves_bind; [preserve|intros [validatorList err']].
  destruct (negb (is_nil err')); [preserve|].
  destruct (Z.of_nat (length validatorList) =? 0); [preserve|].
  apply preserves_bind; [apply still_fixed, validateMapping_stores|intros [validatorMap err2]].
  destruct (negb (is_nil err2)); [preserve|].
  apply preserves_bind; [apply dispatchAll_fixed|intros _; preserve].
Qed.

Lemma checkValidateTimeOut_fixed :
  preserves (fun w => (fixed w, rounds w)) checkValidateTimeOut.
Proof.
  unfold checkValidateTimeOut.
  apply preserves_bind; [preserve|intros [deviceIDs err]].
  destruct (negb (is_nil err)); [preserve|].
  apply preserves_bind; [|intros _; preserve].
  destruct (0 <? Z.of_nat (length deviceIDs)); [|preserve].
  intros w. pose proof (timeOutAll_fixed deviceIDs w) as H. congruence.
Qed.

Lemma fst_preserved {A B} (obs1 : World -> A) (obs2 : World -> B) {C} (m : M C) :
  preserves (fun w => (obs1 w, obs2 w)) m -> preserves obs1 m.
Proof. intros H w. specialize (H w). congruence. Qed.

(** A round leaves the timer, the switch, the registry, the clock and the
    oracles as they are. *)
Lemma startValidate_fixed : preserves fixed startValidate.
Proof.
  unfold startValidate, setState.
  apply preserves_bind; [preserve|intros [[pre cur] err]].
  destruct (negb (is_nil err)); [preserve|].
  apply preserves_bind; [preserve|intros _].
  apply preserves_bind;
    [apply (fst_preserved fixed rounds), checkValidateTimeOut_fixed|intros err1].
  destruct (negb (is_nil err1)); [preserve|].
  apply preserves_bind; [preserve|intros w0].
  destruct (negb (enable (engine w0))); [preserve|].
  apply preserves_bind; [apply (fst_preserved fixed rounds), execute_fixed|intros err2].
  preserve.
Qed.

End EngineFrames.

(* ===================================================================== *)
(** * The errors of a round, and the manual trigger *)
(* ===================================================================== *)

Section Yields.

Lemma yields_ret {A} (P : A -> Prop) (a : A) : P a -> yields P (ret a).
Proof. intros H w a' w' Heq. injection Heq as <- _. exact H. Qed.

Lemma yields_bind {A B} (Q : A -> Prop) (P : B -> Prop) (m : M A) (k : A -> M B) :
  yields Q m -> (forall a, Q a -> yields P (k a)) -> yields P (bind m k).
Proof.
  intros Hm Hk w b w' Heq. unfold bind in Heq.
  destruct (m w) as [[a|msg] w1] eqn:Hmw; [|discriminate].
  exact (Hk a (Hm w a w1 Hmw) w1 b w' Heq).
Qed.

Lemma yields_any {A} (m : M A) : yields (fun _ => True) m.
Proof. intros w a w' _. exact I. Qed.

Lemma yields_onCache {A} (Q : A -> Prop) (op : Cache.cacheDB -> A * Cache.cacheDB) :
  (forall db, Q (fst (op db))) -> yields Q (onCache op).
Proof.
  intros H w a w' Heq. unfold onCache in Heq. specialize (H (cache w)).
  destruct (op (cache w)) as [a0 c]. injection Heq as <- _. exact H.
Qed.

Lemma the_fault_store_error (db : Cache.cacheDB) : store_error (Cache.the_fault db).
Proof. right. eexists. reflexivity. Qed.

Lemma validateMapping_error (validatorList : list string) :
  yields (fun r => round_error (snd r)) (validateMapping validatorList).
Proof.
  unfold validateMapping.
  apply (yields_bind (fun _ => True)); [apply yields_any|intros w0 _].
  apply (yields_bind (fun _ => True)); [apply yields_any|intros r1 _].
  apply (yields_bind (fun _ => True)); [apply yields_any|intros r2 _].
  destruct (Z.of_nat (size r2) =? 0); apply yields_ret; simpl.
  - right. reflexivity.
  - left. left. reflexivity.
Qed.

Lemma execute_error : yields round_error execute.
Proof.
  unfold execute.
  apply (yields_bind (fun _ => True)); [apply yields_any|intros _ _].
  apply (yields_bind store_error).
  { apply yields_onCache. intros db. unfold Cache.RemoveVerifyingList.
    destruct (Cache.faulty db); simpl; [apply the_fault_store_error|left; reflexivity]. }
  intros err He. destruct (negb (is_nil err)); [apply yields_ret; left; exact He|].
  apply (yields_bind (fun r => store_error (snd r))).
  { apply yields_onCache. intros db. unfold Cache.GetValidatorsWithList.
    destruct (Cache.faulty db); simpl; [apply the_fault_store_error|left; reflexivity]. }
  intros [validatorList err1] He1. simpl in He1.
  destruct (negb (is_nil err1)); [apply yields_ret; left; exact He1|].
  destruct (Z.of_nat (length validatorList) =? 0);
    [apply yields_ret; left; left; reflexivity|].
  apply (yields_bind (fun r => round_error (snd r))); [apply validateMapping_error|].
  intros [validatorMap err2] He2. simpl in He2.
  destruct (negb (is_nil err2)); [apply yields_ret; exact He2|].
  apply (yields_bind (fun _ => True)); [apply yields_any|intros _ _].
  apply yields_ret. left. left. reflexivity.
Qed.

Lemma checkValidateTimeOut_error : yields store_error checkValidateTimeOut.
Proof.
  unfold checkValidateTimeOut.
  apply (yields_bind (fun r => store_error (snd r))).
  { apply yields_onCache. intros db. unfold Cache.GetNodesWithVerifyingList.
    destruct (Cache.faulty db); simpl; [apply the_fault_store_error|left; reflexivity]. }
  intros [deviceIDs err] He. simpl in He.
  destruct (negb (is_nil err)); [apply yields_ret; exact He|].
  apply (yields_bind (fun _ => True)); [apply yields_any|intros _ _].
  apply yields_ret. left. reflexivity.
Qed.

Lemma startValidate_error : yields round_error startValidate.
Proof.
  unfold startValidate.
  apply (yields_bind (fun r => store_error (snd r))).
  { apply yields_onCache. intros db. unfold Cache.GetPreviousAndCurrentRoundId.
    destruct (Cache.faulty db); simpl; [apply the_fault_store_error|left; reflexivity]. }
  intros [[pre cur] err] He. simpl in He.
  destruct (negb (is_nil err)); [apply yields_ret; left; exact He|].
  apply (yields_bind (fun _ => True)); [apply yields_any|intros _ _].
  apply (yields_bind store_error); [apply checkValidateTimeOut_error|intros err1 He1].
  destruct (negb (is_nil err1)); [apply yields_ret; left; exact He1|].
  apply (yields_bind (fun _ => True)); [apply yields_any|intros w0 _].
  destruct (negb (enable (engine w0))).
  - apply (yields_bind (fun _ => True)); [apply yields_any|intros _ _].
    apply yields_ret. left. left. reflexivity.
  - apply (yields_bind round_error); [apply execute_error|intros err2 He2].
    destruct (negb (is_nil err2)).
    + apply (yields_bind (fun _ => True)); [apply yields_any|intros _ _].
      apply yields_ret. exact He2.
    + apply yields_ret. left. left. reflexivity.
Qed.

Lemma round_error_not_inProgress (err : error) : round_error err -> err <> inProgress.
Proof.
  unfold inProgress. intros [[->|[code ->]]| ->]; discriminate.
Qed.

End Yields.

Section ManualTrigger.

Lemma StartValidateOnceTask_runs (w : World) :
  vState (engine w) <> validationStarting ->
  StartValidateOnceTask w = startValidate (armed w).
Proof.
  intros Hs. unfold StartValidateOnceTask, bind at 1, get at 1. cbv iota.
  destruct (decide (vState (engine w) = validationStarting)); [contradiction|].
  unfold bind, modify. fold (armed w).
  destruct (startValidate (armed w)) as [[err|msg] w'] eqn:Hrun; [|reflexivity].
  destruct err; reflexivity.
Qed.

(** C6: [StartValidateOnceTask] answers with the in-progress error exactly
    when the validate state is [running], and then does nothing else;
    otherwise it is one run of [startValidate] in the world where the timer
    is stopped, validation is switched on and a goroutine sleeps one
    interval before restarting the timer: the round leaves the timer
    stopped, and once the interval has passed the timer runs again. *)
Theorem StartValidateOnceTask_trigger (w : World) :
  (fst (StartValidateOnceTask w) = Ret inProgress
   <-> vState (engine w) = validationStarting)
  /\ (vState (engine w) = validationStarting -> snd (StartValidateOnceTask w) = w)
  /\ (vState (engine w) <> validationStarting ->
      StartValidateOnceTask w = startValidate (armed w)
      /\ crontabRunning (engine (armed w)) = false
      /\ crontabRunning (engine (snd (StartValidateOnceTask w))) = false
      /\ sleepers (snd (StartValidateOnceTask w))
         = sleepers w ++ [interval (engine w) * Minute]
      /\ crontabRunning
           (engine (elapse (interval (engine w) * Minute) (snd (StartValidateOnceTask w))))
         = true).
Proof.
  assert (Hbusy : vState (engine w) = validationStarting ->
                  StartValidateOnceTask w = (Ret inProgress, w)).
  { intros Hs. unfold StartValidateOnceTask, bind, get.
    destruct (decide (vState (engine w) = validationStarting)); [reflexivity|contradiction]. }
  split; [|split].
  - split.
    + intros Hret.
      destruct (decide (vState (engine w) = validationStarting)) as [Hs|Hs]; [exact Hs|].
      exfalso. rewrite (StartValidateOnceTask_runs w Hs) in Hret.
      destruct (startValidate (armed w)) as [[err|msg] w'] eqn:Hrun; [|discriminate].
      simpl in Hret. injection Hret as ->.
      exact (round_error_not_inProgress _ (startValidate_error _ _ _ Hrun) eq_refl).
    + intros Hs. rewrite (Hbusy Hs). reflexivity.
  - intros Hs. rewrite (Hbusy Hs). reflexivity.
  - intros Hs. rewrite (StartValidateOnceTask_runs w Hs).
    pose proof (startValidate_fixed (armed w)) as Hfix.
    unfold fixed in Hfix.
    injection Hfix as Hsl Hcr _ _ _ _ _ _ _ _ _.
    split; [reflexivity|]. split; [reflexivity|].
    split; [rewrite Hcr; reflexivity|].
    split; [rewrite Hsl; reflexivity|].
    unfold elapse. rewrite Hsl. cbn [armed sleepers with_sleepers with_engine engine].
    rewrite existsb_app. cbn [existsb].
    rewrite Z.leb_refl, orb_true_r. reflexivity.
Qed.

End ManualTrigger.

(* ===================================================================== *)
(** * Dispatch: what a round adds to the stores *)
(* ===================================================================== *)

Section DispatchFacts.

Lemma grows_refl (ok : string -> Prop) (cur : Z) (w : World) : grows ok cur w w.
Proof.
  split; [exists []; rewrite app_nil_r; reflexivity|]. intros d Hd. left. exact Hd.
Qed.

Lemma created_in_app (cur : Z) (rows extra : list Persistent.ValidateResult) (d : string) :
  created_in cur rows d -> created_in cur (rows ++ extra) d.
Proof.
  intros (row & Hin & H). exists row. split; [|exact H].
  apply elem_of_app. left. exact Hin.
Qed.

Lemma grows_trans (ok : string -> Prop) (cur : Z) (w1 w2 w3 : World) :
  grows ok cur w1 w2 -> grows ok cur w2 w3 -> grows ok cur w1 w3.
Proof.
  intros [[e1 H1] V1] [[e2 H2] V2]. split.
  - exists (e1 ++ e2). rewrite H2, H1, app_assoc. reflexivity.
  - intros d Hd. destruct (V2 d Hd) as [Hd2|Hnew]; [|right; exact Hnew].
    destruct (V1 d Hd2) as [Hd1|[Hok Hc]]; [left; exact Hd1|right].
    split; [exact Hok|]. rewrite H2. apply created_in_app. exact Hc.
Qed.

(** A change of the world outside the two stores. *)
Lemma grows_same_stores (ok : string -> Prop) (cur : Z) (w w' : World) :
  Persistent.validate_result (sql w') = Persistent.validate_result (sql w) ->
  Cache.verifying (cache w') = Cache.verifying (cache w) ->
  grows ok cur w w'.
Proof.
  intros Hs Hc. split; [exists []; rewrite app_nil_r; exact Hs|].
  intros d Hd. left. rewrite <- Hc. exact Hd.
Qed.

Lemma assemblyDevice_grows (ok : string -> Prop) (validatorID : string)
    (device : tmpDeviceMeta) (req : list ReqValidate) (w : World) :
  (forall k, Persistent.sql_fault (sql w) k = false) ->
  ok (deviceId device) ->
  exists req' w', assemblyDevice validatorID device req w = (Ret req', w')
                  /\ grows ok (curRoundId (engine w)) w w'.
Proof.
  intros Hnf Hok.
  unfold assemblyDevice, bind at 1, onSql at 1, Persistent.CountCidOfDevice, Persistent.faulty.
  rewrite Hnf. cbv iota. cbn [is_nil negb].
  destruct (_ <=? 0).
  { eexists _, _. split; [reflexivity|]. apply grows_same_stores; reflexivity. }
  unfold bind at 1, onCache at 1.
  destruct (Cache.GetNodeCacheFid (deviceId device) _) as [[maxFid err] c1] eqn:Hfid.
  assert (Hc1 : Cache.verifying c1 = Cache.verifying (cache w)).
  { unfold Cache.GetNodeCacheFid in Hfid. cbn [cache with_sql] in Hfid.
    destruct (Cache.faulty (cache w)); [injection Hfid as _ _ <-; reflexivity|].
    destruct (Cache.nodeCacheFid (cache w) !! deviceId device);
      injection Hfid as _ _ <-; reflexivity. }
  cbv iota.
  destruct (negb (is_nil err)).
  { eexists _, _. split; [reflexivity|]. apply grows_same_stores; [reflexivity|exact Hc1]. }
  unfold bind at 1, modify at 1. unfold bind at 1, get at 1.
  unfold bind at 1, onCache at 1, Cache.SetNodeToVerifyingList.
  cbn [cache with_cache with_engine with_sql engine sql].
  destruct (Cache.faulty c1).
  { cbv iota. cbn [is_nil negb Cache.the_fault].
    eexists _, _. split; [reflexivity|]. apply grows_same_stores; [reflexivity|exact Hc1]. }
  cbv iota. cbn [is_nil negb].
  unfold bind, onSql, Persistent.InsertValidateResultInfo, Persistent.faulty.
  cbn [cache with_cache with_engine with_sql engine sql Persistent.tick
       Persistent.set_tables Persistent.sql_fault Persistent.sql_calls
       curRoundId set_maxFidMap now].
  rewrite Hnf. cbv iota.
  eexists _, _. split; [reflexivity|].
  cbn [cache with_cache with_engine with_sql engine sql Persistent.tick
       Persistent.set_tables Persistent.validate_result Cache.set_keys Cache.verifying].
  split; [eexists; reflexivity|].
  intros d Hd. apply elem_of_union in Hd as [Hd|Hd].
  - apply elem_of_singleton in Hd. subst d. right. split; [exact Hok|].
    eexists. split; [apply elem_of_app; right; apply list_elem_of_singleton; reflexivity|].
    repeat split.
  - left. rewrite <- Hc1. exact Hd.
Qed.

Lemma frame_sql_fault {A} (m : M A) (w : World) :
  preserves (fun w => (fixed w, rounds w)) m ->
  (forall k, Persistent.sql_fault (sql w) k = false) ->
  (forall k, Persistent.sql_fault (sql (snd (m w))) k = false)
  /\ curRoundId (engine (snd (m w))) = curRoundId (engine w).
Proof.
  intros H Hnf. specialize (H w). unfold fixed, rounds in H.
  injection H as _ _ _ _ _ _ _ _ Hf _ _ _ _ Hc.
  split; [|exact Hc]. intros k. rewrite Hf. apply Hnf.
Qed.

Lemma assemblyLoop_grows (ok : string -> Prop) (validatorID : string)
    (list_ : list tmpDeviceMeta) :
  forall (req : list ReqValidate) (w : World),
    (forall k, Persistent.sql_fault (sql w) k = false) ->
    (forall tn, tn ∈ list_ -> ok (deviceId tn)) ->
    exists req' w', assemblyLoop validatorID list_ req w = (Ret req', w')
                    /\ grows ok (curRoundId (engine w)) w w'.
Proof.
  induction list_ as [|device rest IH]; intros req w Hnf Hok; cbn [assemblyLoop].
  - eexists _, _. split; [reflexivity|]. apply grows_refl.
  - destruct (assemblyDevice_grows ok validatorID device req w Hnf)
      as (req1 & w1 & Hrun & Hg1); [apply Hok; left|].
    destruct (frame_sql_fault _ w (assemblyDevice_fixed validatorID device req) Hnf)
      as [Hnf1 Hcur1].
    rewrite Hrun in Hnf1, Hcur1. cbn [snd] in Hnf1, Hcur1.
    destruct (IH req1 w1 Hnf1) as (req2 & w2 & Hrun2 & Hg2).
    { intros tn Hin. apply Hok. right. exact Hin. }
    unfold bind. rewrite Hrun. exists req2, w2. split; [exact Hrun2|].
    rewrite Hcur1 in Hg2. exact (grows_trans _ _ _ _ _ Hg1 Hg2).
Qed.

Lemma dispatch_grows (ok : string -> Prop) (vId : string) (list_ : list tmpDeviceMeta)
    (w : World) :
  (forall k, Persistent.sql_fault (sql w) k = false) ->
  (forall tn, tn ∈ list_ -> ok (deviceId tn)) ->
  exists w', dispatch vId list_ w = (Ret tt, w')
             /\ grows ok (curRoundId (engine w)) w w'.
Proof.
  intros Hnf Hok. unfold dispatch, assemblyValidateReqAndStore.
  destruct (assemblyLoop_grows ok vId list_ [] w Hnf Hok) as (req & w1 & Hrun & Hg).
  unfold bind at 1. rewrite Hrun. unfold bind, get.
  destruct (CandidateNodeMap w1 !! vId).
  - eexists. split; [reflexivity|].
    apply (grows_trans _ _ _ _ _ Hg). apply grows_same_stores; reflexivity.
  - eexists. split; [reflexivity|]. exact Hg.
Qed.

Lemma dispatchAll_grows (ok : string -> Prop) (plan : list (string * list tmpDeviceMeta)) :
  forall w : World,
    (forall k, Persistent.sql_fault (sql w) k = false) ->
    (forall vId list_ tn, (vId, list_) ∈ plan -> tn ∈ list_ -> ok (deviceId tn)) ->
    exists w', dispatchAll plan w = (Ret tt, w')
               /\ grows ok (curRoundId (engine w)) w w'.
Proof.
  induction plan as [|[vId list_] rest IH]; intros w Hnf Hok; cbn [dispatchAll].
  - eexists. split; [reflexivity|]. apply grows_refl.
  - destruct (dispatch_grows ok vId list_ w Hnf) as (w1 & Hrun & Hg1).
    { intros tn Hin. apply (Hok vId list_ tn); [left|exact Hin]. }
    destruct (frame_sql_fault _ w (dispatch_fixed vId list_) Hnf) as [Hnf1 Hcur1].
    rewrite Hrun in Hnf1, Hcur1. cbn [snd] in Hnf1, Hcur1.
    destruct (IH w1 Hnf1) as (w2 & Hrun2 & Hg2).
    { intros v l tn Hin Htn. apply (Hok v l tn); [right; exact Hin|exact Htn]. }
    unfold bind. rewrite Hrun. exists w2. split; [exact Hrun2|].
    rewrite Hcur1 in Hg2. exact (grows_trans _ _ _ _ _ Hg1 Hg2).
Qed.

End DispatchFacts.

(* ===================================================================== *)
(** * Preflight: time-outs, then the round *)
(* ===================================================================== *)

Section PreflightFacts.

Lemma all_targets_assign (Q : tmpDeviceMeta -> Prop)
    (result : gmap string (list tmpDeviceMeta)) (v : string) (tn : tmpDeviceMeta) :
  all_targets Q result -> Q tn -> all_targets Q (assign result v tn).
Proof.
  intros H Hq v' l tn' Hl Hin.
  destruct (assign_member _ _ _ _ _ _ Hl Hin) as [[_ ->]|(l0 & Hl0 & Hin0)];
    [exact Hq|exact (H v' l0 tn' Hl0 Hin0)].
Qed.

(** With a validator to pick, the two loops of [validateMapping] return,
    and they file nothing but the nodes they range over. *)
Lemma Range_edges_targets (validatorList : list string) (Q : tmpDeviceMeta -> Prop)
    (entries : list (string * Node)) :
  validatorList <> [] ->
  (forall key e, (key, e) ∈ entries ->
                 Q (mkTmpDeviceMeta (DeviceId e) NodeEdge (GetAddress e))) ->
  forall (acc : gmap string (list tmpDeviceMeta)) (w : World),
    all_targets Q acc ->
    exists acc' w', Range (mapEdge validatorList) entries acc w = (Ret acc', w')
                    /\ all_targets Q acc'.
Proof.
  intros Hne. induction entries as [|[key0 e0] rest IH]; intros HQ acc w Hacc.
  - eexists _, _. split; [reflexivity|exact Hacc].
  - cbn [Range]. unfold bind. rewrite mapEdge_step.
    destruct (picked_nonempty validatorList w Hne) as [v ->].
    apply IH.
    + intros key e Hin. apply (HQ key e). right. exact Hin.
    + apply all_targets_assign; [exact Hacc|]. apply (HQ key0 e0). left.
Qed.

Lemma Range_candidates_targets (validatorList : list string) (Q : tmpDeviceMeta -> Prop)
    (entries : list (string * Node)) :
  validatorList <> [] ->
  (forall key c, (key, c) ∈ entries ->
                 Q (mkTmpDeviceMeta (DeviceId c) NodeCandidate (GetAddress c))) ->
  forall (acc : gmap string (list tmpDeviceMeta)) (w : World),
    all_targets Q acc ->
    exists acc' w', Range (mapCandidate validatorList) entries acc w = (Ret acc', w')
                    /\ all_targets Q acc'.
Proof.
  intros Hne. induction entries as [|[key0 c0] rest IH]; intros HQ acc w Hacc.
  - eexists _, _. split; [reflexivity|exact Hacc].
  - cbn [Range]. unfold bind. rewrite mapCandidate_step.
    destruct (picked_nonempty validatorList w Hne) as [v ->].
    apply IH.
    + intros key c Hin. apply (HQ key c). right. exact Hin.
    + destruct (String.eqb v (DeviceId c0)); [exact Hacc|].
      apply all_targets_assign; [exact Hacc|]. apply (HQ key0 c0). left.
Qed.

Lemma validateMapping_returns (validatorList : list string) (w : World) :
  validatorList <> [] ->
  exists r w', validateMapping validatorList w = (Ret r, w')
               /\ all_targets (fun tn => registered w (deviceId tn)) (default ∅ (fst r)).
Proof.
  intros Hne. unfold validateMapping, bind at 1, get at 1. cbv iota.
  destruct (Range_edges_targets validatorList (fun tn => registered w (deviceId tn))
              (map_to_list (EdgeNodeMap w)) Hne) with (acc := (∅ : gmap string (list tmpDeviceMeta)))
                                                       (w := w)
    as (r1 & w1 & Hrun1 & Ht1).
  { intros key e Hin. apply elem_of_map_to_list in Hin. left. exists key, e. auto. }
  { intros v l tn Hl. rewrite lookup_empty in Hl. discriminate. }
  unfold bind at 1. rewrite Hrun1.
  destruct (Range_candidates_targets validatorList (fun tn => registered w (deviceId tn))
              (map_to_list (CandidateNodeMap w)) Hne) with (acc := r1) (w := w1)
    as (r2 & w2 & Hrun2 & Ht2).
  { intros key c Hin. apply elem_of_map_to_list in Hin. right. exists key, c. auto. }
  { exact Ht1. }
  unfold bind. rewrite Hrun2.
  destruct (Z.of_nat (size r2) =? 0); eexists _, _; (split; [reflexivity|]); simpl.
  - intros v l tn Hl. rewrite lookup_empty in Hl. discriminate.
  - exact Ht2.
Qed.

Lemma timeOutAll_marks (deviceIDs : list string) :
  forall w : World,
    (forall k, Persistent.sql_fault (sql w) k = false) ->
    exists w', timeOutAll deviceIDs w = (Ret tt, w')
      /\ forall (i : nat) row,
           Persistent.validate_result (sql w) !! i = Some row ->
           exists row', Persistent.validate_result (sql w') !! i = Some row'
             /\ Persistent.vr_RoundID row' = Persistent.vr_RoundID row
             /\ Persistent.vr_DeviceID row' = Persistent.vr_DeviceID row
             /\ (timed row -> timed row')
             /\ (forall d, d ∈ deviceIDs ->
                   Persistent.row_is (preRoundId (engine w)) d row = true -> timed row').
Proof.
  induction deviceIDs as [|di rest IH]; intros w Hnf; cbn [timeOutAll].
  - eexists. split; [reflexivity|]. intros i row Hi. exists row.
    split; [exact Hi|]. split; [reflexivity|]. split; [reflexivity|]. split; [auto|].
    intros d Hd. inversion Hd.
  - unfold bind at 1, get at 1. cbv iota. unfold bind.
    destruct (UpdateFailValidateResult_outcome (preRoundId (engine w)) di errMsgTimeOut
                Persistent.ValidateStatusTimeOut w) as (err & w1 & Hrun & Hout).
    rewrite Hrun.
    pose proof (UpdateFailValidateResult_fixed (preRoundId (engine w)) di errMsgTimeOut
                  Persistent.ValidateStatusTimeOut w) as Hfix.
    rewrite Hrun in Hfix. cbn [snd] in Hfix.
    assert (Hnf1 : forall k, Persistent.sql_fault (sql w1) k = false).
    { assert (Hf : Persistent.sql_fault (sql w1) = Persistent.sql_fault (sql w))
        by (unfold fixed in Hfix; congruence).
      intros k. rewrite Hf. apply Hnf. }
    assert (Hpre : preRoundId (engine w1) = preRoundId (engine w)) by congruence.
    assert (Herr : err = nil_err).
    { unfold UpdateFailValidateResult, bind, get, onSql,
        Persistent.UpdateFailValidateResultInfo, Persistent.faulty in Hrun.
      rewrite Hnf in Hrun. injection Hrun as <- _. reflexivity. }
    destruct Hout as [[He _]|[_ [Hlen Hrows]]]; [contradiction|].
    destruct (IH w1 Hnf1) as (w2 & Hrun2 & Hrest).
    exists w2. split; [exact Hrun2|].
    intros i row Hi.
    destruct (Hrows i row Hi) as (row1 & Hi1 & Hr1 & Hd1 & Hkey & Hother).
    destruct (Hrest i row1 Hi1) as (row2 & Hi2 & Hr2 & Hd2 & Hstay & Hmark).
    exists row2. split; [exact Hi2|]. split; [congruence|]. split; [congruence|].
    assert (Hstep : timed row -> timed row1).
    { intros Ht. destruct (Persistent.row_is (preRoundId (engine w)) di row) eqn:Hk.
      - exact (Hkey eq_refl).
      - rewrite (Hother eq_refl). exact Ht. }
    split; [auto|].
    intros d Hd Hrow. apply elem_of_cons in Hd as [->|Hd].
    + apply Hstay. exact (Hkey Hrow).
    + apply (Hmark d Hd). rewrite Hpre.
      unfold Persistent.row_is in *. rewrite Hr1, Hd1. exact Hrow.
Qed.

End PreflightFacts.

Section RoundFacts.

Lemma no_faults_fixed (w w' : World) :
  fixed w' = fixed w -> no_faults w -> no_faults w'.
Proof.
  unfold fixed, no_faults. intros H [Hs Hc].
  assert (Hf : Persistent.sql_fault (sql w') = Persistent.sql_fault (sql w)) by congruence.
  assert (Hg : Cache.cache_fault (cache w') = Cache.cache_fault (cache w)) by congruence.
  split; intros k; [rewrite Hf; apply Hs|rewrite Hg; apply Hc].
Qed.

Lemma registered_fixed (w w' : World) (d : string) :
  fixed w' = fixed w -> registered w' d -> registered w d.
Proof.
  unfold fixed, registered. intros H.
  assert (He : EdgeNodeMap w' = EdgeNodeMap w) by congruence.
  assert (Hc : CandidateNodeMap w' = CandidateNodeMap w) by congruence.
  rewrite He, Hc. auto.
Qed.

(** [execute] when both stores answer: it returns; [validate_result] is
    only appended to; and every device in the verifying set afterwards is
    a registered node with a row created in the current round. *)
Lemma execute_round (w : World) :
  no_faults w ->
  exists err w', execute w = (Ret err, w')
    /\ (exists extra, Persistent.validate_result (sql w')
                      = Persistent.validate_result (sql w) ++ extra)
    /\ (forall d, d ∈ Cache.verifying (cache w') ->
          registered w d
          /\ created_in (curRoundId (engine w)) (Persistent.validate_result (sql w')) d).
Proof.
  intros [Hsql Hcache].
  unfold execute, bind at 1, setState at 1, modify at 1.
  unfold bind at 1, onCache at 1, Cache.RemoveVerifyingList, Cache.faulty.
  cbn [cache with_engine]. rewrite Hcache. cbv iota. cbn [is_nil negb].
  unfold bind at 1, onCache at 1, Cache.GetValidatorsWithList, Cache.faulty.
  cbn [cache with_cache Cache.set_keys Cache.cache_fault Cache.cache_calls Cache.validators].
  rewrite Hcache. cbv iota. cbn [is_nil negb].
  set (w2 := with_cache _ _).
  assert (Hv2 : Cache.verifying (cache w2) = ∅) by reflexivity.
  assert (Hs2 : sql w2 = sql w) by reflexivity.
  assert (Hf2 : fixed w2 = fixed w) by reflexivity.
  assert (Hr2 : rounds w2 = rounds w) by reflexivity.
  clearbody w2.
  assert (Hquiet : forall err : error, exists err' w',
             ret err w2 = (Ret err', w')
             /\ (exists extra, Persistent.validate_result (sql w')
                               = Persistent.validate_result (sql w) ++ extra)
             /\ (forall d, d ∈ Cache.verifying (cache w') ->
                   registered w d
                   /\ created_in (curRoundId (engine w))
                                 (Persistent.validate_result (sql w')) d)).
  { intros err. exists err, w2. split; [reflexivity|]. split.
    - exists []. rewrite Hs2, app_nil_r. reflexivity.
    - intros d Hd. rewrite Hv2 in Hd. apply elem_of_empty in Hd. contradiction. }
  destruct (Z.eqb_spec (Z.of_nat (length (Cache.validators (cache w)))) 0) as [Hz|Hnz];
    [apply Hquiet|].
  assert (Hne : Cache.validators (cache w) <> []).
  { intros Hnil. rewrite Hnil in Hnz. apply Hnz. reflexivity. }
  destruct (validateMapping_returns (Cache.validators (cache w)) w2 Hne)
    as ([validatorMap err2] & w3 & Hrun & Htargets).
  pose proof (validateMapping_stores (Cache.validators (cache w)) w2) as Hstill.
  rewrite Hrun in Hstill. cbn [snd] in Hstill.
  assert (Hc3 : cache w3 = cache w2) by (unfold still in Hstill; congruence).
  assert (Hs3 : sql w3 = sql w2) by (unfold still in Hstill; congruence).
  assert (He3 : engine w3 = engine w2) by (unfold still in Hstill; congruence).
  unfold bind at 1. rewrite Hrun. cbv iota.
  destruct (negb (is_nil err2)).
  { exists err2, w3. split; [reflexivity|]. split.
    - exists []. rewrite Hs3, Hs2, app_nil_r. reflexivity.
    - intros d Hd. rewrite Hc3, Hv2 in Hd. apply elem_of_empty in Hd. contradiction. }
  destruct (dispatchAll_grows (registered w2) (map_to_list (default ∅ validatorMap)) w3)
    as (w4 & Hrun4 & [[extra Hrows] Hver]).
  { intros k. rewrite Hs3, Hs2. apply Hsql. }
  { intros vId list_ tn Hin Htn. apply elem_of_map_to_list in Hin.
    exact (Htargets vId list_ tn Hin Htn). }
  unfold bind. rewrite Hrun4.
  exists nil_err, w4. split; [reflexivity|]. split.
  - exists extra. rewrite Hrows, Hs3, Hs2. reflexivity.
  - intros d Hd. destruct (Hver d Hd) as [Hold|[Hreg Hcr]].
    + rewrite Hc3, Hv2 in Hold. apply elem_of_empty in Hold. contradiction.
    + split; [exact (registered_fixed w w2 d Hf2 Hreg)|].
      assert (Hcur : curRoundId (engine w3) = curRoundId (engine w))
        by (unfold rounds in Hr2; rewrite He3; congruence).
      rewrite Hcur in Hcr. exact Hcr.
Qed.

(** [checkValidateTimeOut] when both stores answer: every row of a device
    of the verifying set, for the previous round, is timed out; the
    verifying set itself is left as it is. *)
Lemma checkValidateTimeOut_marks (w : World) :
  no_faults w ->
  exists w', checkValidateTimeOut w = (Ret nil_err, w')
    /\ Cache.verifying (cache w') = Cache.verifying (cache w)
    /\ engine w' = engine w
    /\ fixed w' = fixed w
    /\ forall (i : nat) row,
         Persistent.validate_result (sql w) !! i = Some row ->
         exists row', Persistent.validate_result (sql w') !! i = Some row'
           /\ Persistent.vr_RoundID row' = Persistent.vr_RoundID row
           /\ Persistent.vr_DeviceID row' = Persistent.vr_DeviceID row
           /\ (forall d, d ∈ Cache.verifying (cache w) ->
                 Persistent.row_is (preRoundId (engine w)) d row = true -> timed row').
Proof.
  intros [Hsql Hcache].
  unfold checkValidateTimeOut, bind at 1, onCache at 1,
    Cache.GetNodesWithVerifyingList, Cache.faulty.
  rewrite Hcache. cbv iota. cbn [is_nil negb].
  set (w1 := with_cache w (Cache.tick (cache w))).
  destruct (Z.ltb_spec 0 (Z.of_nat (length (elements (Cache.verifying (cache w))))))
    as [Hpos|Hzero].
  - destruct (timeOutAll_marks (elements (Cache.verifying (cache w))) w1)
      as (w2 & Hrun & Hrows); [exact Hsql|].
    pose proof (timeOutAll_fixed (elements (Cache.verifying (cache w))) w1) as Hfix.
    rewrite Hrun in Hfix. cbn [snd] in Hfix.
    unfold bind. rewrite Hrun. exists w2. split; [reflexivity|].
    assert (Hc : cache w2 = cache w1) by congruence.
    assert (He : engine w2 = engine w1) by congruence.
    assert (Hf : fixed w2 = fixed w1) by congruence.
    split; [rewrite Hc; reflexivity|]. split; [rewrite He; reflexivity|].
    split; [rewrite Hf; reflexivity|].
    intros i row Hi. destruct (Hrows i row Hi) as (row' & Hi' & Hr & Hd & _ & Hmark).
    exists row'. split; [exact Hi'|]. split; [exact Hr|]. split; [exact Hd|].
    intros d Hin Hkey. apply (Hmark d); [|exact Hkey].
    apply elem_of_elements. exact Hin.
  - unfold bind, ret. exists w1. split; [reflexivity|].
    split; [reflexivity|]. split; [reflexivity|]. split; [reflexivity|].
    intros i row Hi. exists row. split; [exact Hi|]. split; [reflexivity|].
    split; [reflexivity|]. intros d Hin _. exfalso.
    apply elem_of_elements in Hin.
    destruct (elements (Cache.verifying (cache w))); [inversion Hin|simpl in Hzero; lia].
Qed.

(** C3, amended: when both stores answer, [startValidate] returns with the
    round ids advanced; every row that a device of the verifying set has
    for the previous round is marked [timeout] with the message "time out";
    the verifying set is cleared only if validation is switched on, by
    [execute], so that it then holds only registered devices with a row
    created in the current round; with validation switched off the
    verifying set is left as it was. *)
Theorem startValidate_preflight (w : World) :
  no_faults w ->
  exists err w',
    startValidate w = (Ret err, w')
    /\ preRoundId (engine w') = Cache.roundID (cache w)
    /\ curRoundId (engine w') = Cache.roundID (cache w) + 1
    /\ (forall d (i : nat) row,
          d ∈ Cache.verifying (cache w) ->
          Persistent.validate_result (sql w) !! i = Some row ->
          Persistent.row_is (Cache.roundID (cache w)) d row = true ->
          exists row', Persistent.validate_result (sql w') !! i = Some row'
            /\ Persistent.row_is (Cache.roundID (cache w)) d row' = true
            /\ timed row')
    /\ (enable (engine w) = false ->
        Cache.verifying (cache w') = Cache.verifying (cache w)
        /\ vState (engine w') = validationNotStarted)
    /\ (enable (engine w) = true ->
        forall d, d ∈ Cache.verifying (cache w') ->
          registered w d
          /\ created_in (curRoundId (engine w')) (Persistent.validate_result (sql w')) d).
Proof.
  intros Hnf. pose proof Hnf as [Hsql Hcache].
  unfold startValidate, bind at 1, onCache at 1,
    Cache.GetPreviousAndCurrentRoundId, Cache.faulty.
  rewrite Hcache. cbv iota. cbn [is_nil negb].
  unfold bind at 1, modify at 1.
  set (w1 := with_engine _ _).
  assert (Hnf1 : no_faults w1) by (split; intros k; [apply Hsql|apply Hcache]).
  assert (Hpre1 : preRoundId (engine w1) = Cache.roundID (cache w)) by reflexivity.
  assert (Hcur1 : curRoundId (engine w1) = Cache.roundID (cache w) + 1) by reflexivity.
  assert (Hver1 : Cache.verifying (cache w1) = Cache.verifying (cache w)) by reflexivity.
  assert (Hrows1 : Persistent.validate_result (sql w1) = Persistent.validate_result (sql w))
    by reflexivity.
  assert (Hen1 : enable (engine w1) = enable (engine w)) by reflexivity.
  assert (Hfix1 : forall d, registered w1 d -> registered w d) by (intros d H; exact H).
  clearbody w1.
  destruct (checkValidateTimeOut_marks w1 Hnf1) as (w2 & Hrun2 & Hver2 & He2 & Hf2 & Hmarks).
  unfold bind at 1. rewrite Hrun2. cbv iota. cbn [is_nil negb].
  unfold bind at 1, get at 1. cbv iota.
  assert (Hnf2 : no_faults w2) by exact (no_faults_fixed w1 w2 Hf2 Hnf1).
  assert (Hmarked : forall d (i : nat) row,
             d ∈ Cache.verifying (cache w) ->
             Persistent.validate_result (sql w) !! i = Some row ->
             Persistent.row_is (Cache.roundID (cache w)) d row = true ->
             exists row', Persistent.validate_result (sql w2) !! i = Some row'
               /\ Persistent.row_is (Cache.roundID (cache w)) d row' = true
               /\ timed row').
  { intros d i row Hd Hi Hkey. rewrite <- Hrows1 in Hi.
    destruct (Hmarks i row Hi) as (row' & Hi' & Hr & Hdev & Hmark).
    exists row'. split; [exact Hi'|]. split.
    - unfold Persistent.row_is in *. rewrite Hr, Hdev. exact Hkey.
    - apply (Hmark d); [rewrite Hver1; exact Hd|rewrite Hpre1; exact Hkey]. }
  rewrite He2, Hen1.
  destruct (enable (engine w)) eqn:Hen; cbn [negb].
  - destruct (execute_round w2 Hnf2) as (err & w3 & Hrun3 & [extra Hrows3] & Hver3).
    pose proof (execute_fixed w2) as Hfix3. rewrite Hrun3 in Hfix3. cbn [snd] in Hfix3.
    assert (Hr3 : rounds w3 = rounds w2) by congruence.
    assert (Hround : preRoundId (engine w3) = Cache.roundID (cache w)
                     /\ curRoundId (engine w3) = Cache.roundID (cache w) + 1).
    { unfold rounds in Hr3. split.
      - rewrite <- Hpre1, <- He2. congruence.
      - rewrite <- Hcur1, <- He2. congruence. }
    assert (Hkeep : forall d (i : nat) row,
               d ∈ Cache.verifying (cache w) ->
               Persistent.validate_result (sql w) !! i = Some row ->
               Persistent.row_is (Cache.roundID (cache w)) d row = true ->
               exists row', Persistent.validate_result (sql w3) !! i = Some row'
                 /\ Persistent.row_is (Cache.roundID (cache w)) d row' = true
                 /\ timed row').
    { intros d i row Hd Hi Hkey.
      destruct (Hmarked d i row Hd Hi Hkey) as (row' & Hi' & H).
      exists row'. split; [|exact H]. rewrite Hrows3.
      rewrite lookup_app_l; [exact Hi'|]. apply lookup_lt_Some in Hi'. exact Hi'. }
    assert (Hsched : forall d, d ∈ Cache.verifying (cache w3) ->
               registered w d
               /\ created_in (Cache.roundID (cache w) + 1)
                             (Persistent.validate_result (sql w3)) d).
    { intros d Hd. destruct (Hver3 d Hd) as [Hreg Hcr]. split.
      - apply Hfix1. exact (registered_fixed w1 w2 d Hf2 Hreg).
      - rewrite He2, Hcur1 in Hcr. exact Hcr. }
    unfold bind at 1. rewrite Hrun3. cbv iota.
    destruct Hround as [Hp3 Hc3].
    destruct (negb (is_nil err)).
    + unfold bind, setState, modify, ret.
      eexists _, _. split; [reflexivity|].
      cbn [engine with_engine set_vState preRoundId curRoundId cache sql].
      split; [exact Hp3|]. split; [exact Hc3|]. split; [exact Hkeep|].
      split; [discriminate|]. intros _. rewrite Hc3. exact Hsched.
    + exists nil_err, w3. split; [reflexivity|].
      split; [exact Hp3|]. split; [exact Hc3|]. split; [exact Hkeep|].
      split; [discriminate|]. intros _. rewrite Hc3. exact Hsched.
  - unfold bind, setState, modify, ret.
    eexists _, _. split; [reflexivity|].
    cbn [engine with_engine set_vState preRoundId curRoundId cache sql vState].
    split; [rewrite He2; exact Hpre1|]. split; [rewrite He2; exact Hcur1|].
    split; [exact Hmarked|]. split; [|discriminate].
    intros _. split; [rewrite Hver2; exact Hver1|reflexivity].
Qed.

End RoundFacts.

(* ===================================================================== *)
(** * The properties at concrete worlds *)
(* ===================================================================== *)

Section ConcreteRounds.
Import Examples.

(** C3 as stated fails: with validation switched off, [startValidate]
    times out the row of device ["d"] but does not clear the verifying
    set; the next round finds ["d"] there again, although the round before
    scheduled nothing. *)
Lemma verifying_kept_when_disabled :
  fst (startValidate world_disabled) = Ret nil_err
  /\ outcomes (snd (startValidate world_disabled))
     = [(Persistent.ValidateStatusTimeOut, "time out")]
  /\ elements (Cache.verifying (cache (snd (startValidate world_disabled)))) = ["d"]
  /\ sent (snd (startValidate world_disabled)) = []
  /\ elements (Cache.verifying
                 (cache (snd (startValidate (snd (startValidate world_disabled))))))
     = ["d"].
Proof. vm_compute. repeat split. Qed.

(** The stores of [world_round] answer every call. *)
Lemma world_round_no_faults : no_faults world_round.
Proof. split; intros k; reflexivity. Qed.

(** C3, amended, at [world_round], where validation is switched on. *)
Lemma startValidate_preflight_witness :
  exists err w',
    startValidate world_round = (Ret err, w')
    /\ preRoundId (engine w') = Cache.roundID (cache world_round)
    /\ curRoundId (engine w') = Cache.roundID (cache world_round) + 1
    /\ (forall d (i : nat) row,
          d ∈ Cache.verifying (cache world_round) ->
          Persistent.validate_result (sql world_round) !! i = Some row ->
          Persistent.row_is (Cache.roundID (cache world_round)) d row = true ->
          exists row', Persistent.validate_result (sql w') !! i = Some row'
            /\ Persistent.row_is (Cache.roundID (cache world_round)) d row' = true
            /\ timed row')
    /\ (enable (engine world_round) = false ->
        Cache.verifying (cache w') = Cache.verifying (cache world_round)
        /\ vState (engine w') = validationNotStarted)
    /\ (enable (engine world_round) = true ->
        forall d, d ∈ Cache.verifying (cache w') ->
          registered world_round d
          /\ created_in (curRoundId (engine w')) (Persistent.validate_result (sql w')) d).
Proof. apply (startValidate_preflight world_round). exact world_round_no_faults. Defined.

(** The enabled round in [world_round]: ["d"] is timed out, the verifying
    set is replaced by the two devices that hold blocks, and both
    validators are sent their batch. *)
Example startValidate_world_round :
  fst (startValidate world_round) = Ret nil_err
  /\ elements (Cache.verifying (cache (snd (startValidate world_round)))) = ["c1"; "e1"]
  /\ outcomes (snd (startValidate world_round))
     = [(Persistent.ValidateStatusTimeOut, "time out");
        (Persistent.ValidateStatusCreate, EmptyString);
        (Persistent.ValidateStatusCreate, EmptyString)]
  /\ map fst (sent (snd (startValidate world_round))) = ["c1"; "c2"].
Proof. vm_compute. repeat split. Qed.


(** Candidate ["c2"] picks itself and is dropped; ["c1"] and the edges are
    shared out. *)
Example plan_round_value :
  map_to_list plan_round
  = [("c1", [mkTmpDeviceMeta "e1" NodeEdge "10.0.0.1"]);
     ("c2", [mkTmpDeviceMeta "e2" NodeEdge "10.0.0.2";
             mkTmpDeviceMeta "c1" NodeCandidate "10.0.1.1"])].
Proof. vm_compute. reflexivity. Qed.

(** C4 at a report of round 0 while round 1 is running. *)
Lemma handleValidateResult_round_mismatch_witness :
  handleValidateResult rnd hash report_stale world_fid1
  = (Ret (Errorf "round id mismatch"), world_fid1).
Proof.
  apply (handleValidateResult_round_mismatch rnd hash report_stale world_fid1).
  vm_compute. discriminate.
Defined.

(** C5 at a report that is cancelled, timed out and without cids. *)
Lemma handleValidateResult_cancel_witness :
  exists err w',
    handleValidateResult rnd hash report_cancel world_fid1 = (Ret err, w')
    /\ err = nil_err
    /\ (err = nil_err ->
        recorded (Persistent.validate_result (sql world_fid1))
                 (Persistent.validate_result (sql w'))
                 (RoundID report_cancel) (DeviceID report_cancel)
                 Persistent.ValidateStatusCancel errMsgCancel)
    /\ (err <> nil_err ->
        Persistent.validate_result (sql w') = Persistent.validate_result (sql world_fid1))
    /\ (forall (i : nat) row',
          Persistent.validate_result (sql w') !! i = Some row' ->
          Persistent.vr_Status row' = Persistent.ValidateStatusFail ->
          Persistent.validate_result (sql world_fid1) !! i = Some row').
Proof.
  apply (handleValidateResult_cancel rnd hash report_cancel world_fid1); reflexivity.
Defined.

Example cancel_world_fid1 :
  outcomes (snd (handleValidateResult rnd hash report_cancel world_fid1))
  = [(Persistent.ValidateStatusCancel, "verification canceled due to download")].
Proof. vm_compute. reflexivity. Qed.

(** The manual trigger on an idle engine and on a running one. *)
Example trigger_idle :
  fst (StartValidateOnceTask world_disabled) = Ret nil_err
  /\ enable (engine (snd (StartValidateOnceTask world_disabled))) = true
  /\ crontabRunning (engine (snd (StartValidateOnceTask world_disabled))) = false
  /\ sleepers (snd (StartValidateOnceTask world_disabled)) = [5 * Minute].
Proof. vm_compute. repeat split. Qed.

Example trigger_running :
  StartValidateOnceTask world_fid1 = (Ret inProgress, world_fid1).
Proof. reflexivity. Qed.

Example offline_nodes :
  map (fun r => (Persistent.DeviceID r, Persistent.IsOnline r))
      (Persistent.node (snd (Persistent.SetAllNodeOffline "S" sql_nodes)))
  = [("n1", 0); ("n2", 1); ("n3", 0)].
Proof. reflexivity. Qed.

Example allocate_four :
  fst (Scheduler.AllocateNodes nat nat allocate NodeEdge 4 0%nat) = ([0; 2]%nat, nil_err)
  /\ fst (Scheduler.AllocateNodes nat nat allocate NodeEdge 11 0%nat) = ([], nil_err)
  /\ fst (Scheduler.AllocateNodes nat nat allocate NodeEdge 0 0%nat) = ([], nil_err).
Proof. repeat split. Qed.

Example shenzhen_tables :
  Persistent.ReplaceArea (fun s => s) "CN-GD-Shenzhen" = "cn_gd_shenzhen"
  /\ Persistent.deviceBlockTableName (fun s => s) "CN-GD-Shenzhen"
     = "device_blocks_cn_gd_shenzhen".
Proof. split; reflexivity. Qed.

End ConcreteRounds.

(* ===================================================================== *)
(** * Further properties of the result handler *)
(* ===================================================================== *)

Section HandlerPaths.
Variable randIntn : Z -> Z -> nat -> Z.
Variable CIDString2HashString : string -> option string.

#[local] Abbreviation handle' := (handleValidateResult randIntn CIDString2HashString).
#[local] Abbreviation body' := (handleBody randIntn CIDString2HashString).
#[local] Abbreviation rows' := (fun w => Persistent.validate_result (sql w)).

Lemma UpdateFailValidateResult_calls (roundId : Z) (deviceID msg : string)
    (status : Persistent.ValidateStatus) (w : World) :
  Persistent.sql_calls (sql (snd (UpdateFailValidateResult roundId deviceID msg status w)))
  = S (Persistent.sql_calls (sql w)).
Proof.
  unfold UpdateFailValidateResult, bind, get, onSql, Persistent.UpdateFailValidateResultInfo.
  destruct (Persistent.faulty (sql w)); reflexivity.
Qed.

(** A handler whose body is one terminal update: the outcome it leaves. *)
Lemma handle_one_update (vr : ValidateResults) (w w0 : World) (msg : string)
    (status : Persistent.ValidateStatus) :
  RoundID vr = curRoundId (engine w) ->
  body' vr w = UpdateFailValidateResult (RoundID vr) (DeviceID vr) msg status w0 ->
  rows' w0 = rows' w ->
  exists err w',
    handle' vr w = (Ret err, w')
    /\ (err = nil_err ->
        recorded (rows' w) (rows' w') (RoundID vr) (DeviceID vr) status msg)
    /\ (err <> nil_err -> rows' w' = rows' w)
    /\ Persistent.sql_calls (sql w') = S (Persistent.sql_calls (sql w0)).
Proof.
  intros Hr Hbody Hrows. rewrite (handleValidateResult_current _ _ vr w Hr).
  destruct (deferred_result vr (body' vr) w) as (w' & -> & Hsql).
  rewrite Hbody in Hsql |- *.
  pose proof (UpdateFailValidateResult_calls (RoundID vr) (DeviceID vr) msg status w0) as Hc.
  destruct (UpdateFailValidateResult_outcome (RoundID vr) (DeviceID vr) msg status w0)
    as (err & w1 & Hrun & Hout).
  rewrite Hrun in Hsql, Hc |- *. cbn [fst snd] in *.
  exists err, w'. split; [reflexivity|]. rewrite Hsql, <- Hrows.
  destruct Hout as [[He Ht]|[He Hrec]].
  - split; [contradiction|]. split; [auto|exact Hc].
  - split; [auto|]. split; [contradiction|exact Hc].
Qed.

Lemma handle_one_update_error (vr : ValidateResults) (w w0 : World) (msg : string)
    (status : Persistent.ValidateStatus) :
  RoundID vr = curRoundId (engine w) ->
  body' vr w = UpdateFailValidateResult (RoundID vr) (DeviceID vr) msg status w0 ->
  fst (handle' vr w)
  = Ret (if Persistent.faulty (sql w0) then Persistent.the_fault (sql w0) else nil_err).
Proof.
  intros Hr Hbody. rewrite (handleValidateResult_current _ _ vr w Hr).
  destruct (deferred_result vr (body' vr) w) as (w' & -> & _).
  rewrite Hbody. apply UpdateFailValidateResult_error.
Qed.



(** The loop ends at the first mismatch with the diagnostic of that
    index. *)
Lemma scoring_first_mismatch (vr : ValidateResults) (maxFid : Z) (blocks : gmap Z string)
    (sd : Z) (j : nat) (resultCid : string) (todo : nat) :
  forall k : nat,
    (k <= j < k + todo)%nat ->
    Cids vr !! j = Some resultCid ->
    mismatch randIntn CIDString2HashString vr blocks sd maxFid j = true ->
    (forall i, (k <= i < j)%nat ->
               mismatch randIntn CIDString2HashString vr blocks sd maxFid i = false) ->
    scoring randIntn CIDString2HashString vr maxFid blocks todo (Z.of_nat k)
            (genAt sd maxFid k)
    = UpdateFailValidateResult (RoundID vr) (DeviceID vr)
        (GoStrings.Sprintf "validate fail; resultCid:%s,cid_db:%s,fid:%d,index:%d"
           [GoStrings.Str resultCid; GoStrings.Str (expectedCid randIntn blocks sd maxFid j);
            GoStrings.Int (drawnFid randIntn sd maxFid j); GoStrings.Int (Z.of_nat j)])
        Persistent.ValidateStatusFail.
Proof.
  induction todo as [|todo IH]; intros k Hk Hj Hmis Hbefore; [lia|].
  rewrite scoring_step.
  destruct (decide (k = j)) as [->|Hne].
  - rewrite Hj. unfold mismatch in Hmis. rewrite Hj in Hmis.
    apply andb_true_iff in Hmis as [Hs Hc].
    apply negb_true_iff in Hs. rewrite Hs, Hc. reflexivity.
  - assert (Hlt : (k < length (Cids vr))%nat).
    { apply lookup_lt_Some in Hj. lia. }
    destruct (Cids vr !! k) as [cidk|] eqn:Hkk.
    2:{ apply lookup_ge_None in Hkk. lia. }
    assert (Hrest : scoring randIntn CIDString2HashString vr maxFid blocks todo
                            (Z.of_nat (S k)) (genAt sd maxFid (S k))
                    = UpdateFailValidateResult (RoundID vr) (DeviceID vr)
                        (GoStrings.Sprintf
                           "validate fail; resultCid:%s,cid_db:%s,fid:%d,index:%d"
                           [GoStrings.Str resultCid;
                            GoStrings.Str (expectedCid randIntn blocks sd maxFid j);
                            GoStrings.Int (drawnFid randIntn sd maxFid j);
                            GoStrings.Int (Z.of_nat j)])
                        Persistent.ValidateStatusFail).
    { apply IH; [lia|exact Hj|exact Hmis|]. intros i Hi. apply Hbefore. lia. }
    destruct (mismatch_false_inv randIntn CIDString2HashString vr blocks sd maxFid k cidk Hkk
                (Hbefore k ltac:(lia))) as [Hs|[Hs Hc]]; rewrite Hs; [exact Hrest|].
    rewrite Hc. cbn [negb]. exact Hrest.
Qed.

(** The diagnostic of a mismatch, spelled out. *)
Lemma mismatch_message (resultCid cid : string) (fid index : Z) :
  GoStrings.Sprintf "validate fail; resultCid:%s,cid_db:%s,fid:%d,index:%d"
    [GoStrings.Str resultCid; GoStrings.Str cid; GoStrings.Int fid; GoStrings.Int index]
  = "validate fail; resultCid:" +:+ resultCid +:+ ",cid_db:" +:+ cid
    +:+ ",fid:" +:+ pretty fid +:+ ",index:" +:+ pretty index.
Proof.
  cbn [GoStrings.Sprintf Ascii.eqb Bool.eqb andb orb GoStrings.print_operand].
  rewrite append_empty_r. reflexivity.
Qed.

(** X3: for a report that reaches the scoring loop, the first index [j]
    (below [random_count], with a cid reported) at which the node's map
    holds a cid that does not compare equal to [cids[j]] decides the
    outcome: the row is recorded as [fail] with the diagnostic naming
    [cids[j]], the stored cid, the drawn fid and [j]; later draws play no
    part.  The handler returns no error exactly when the SQL store
    executes the update (the statement after the block query), and then
    the row carries that outcome; when the store refuses the update its
    error is returned and the table stays as it was. *)
Theorem handleValidateResult_first_mismatch (vr : ValidateResults) (w : World)
    (blocks : gmap Z string) (maxFid : Z) (j : nat) (resultCid : string) :
  reachesScoring vr w blocks maxFid ->
  Z.of_nat j < RandomCount vr ->
  Cids vr !! j = Some resultCid ->
  mismatch randIntn CIDString2HashString vr blocks (seed (engine w)) maxFid j = true ->
  (forall i, (i < j)%nat ->
     mismatch randIntn CIDString2HashString vr blocks (seed (engine w)) maxFid i = false) ->
  exists err w',
    handleValidateResult randIntn CIDString2HashString vr w = (Ret err, w')
    /\ err = (if Persistent.faulty (Persistent.tick (sql w))
              then Persistent.the_fault (Persistent.tick (sql w)) else nil_err)
    /\ (err = nil_err ->
        recorded (Persistent.validate_result (sql w)) (Persistent.validate_result (sql w'))
                 (RoundID vr) (DeviceID vr) Persistent.ValidateStatusFail
                 ("validate fail; resultCid:" +:+ resultCid +:+ ",cid_db:"
                  +:+ expectedCid randIntn blocks (seed (engine w)) maxFid j
                  +:+ ",fid:" +:+ pretty (drawnFid randIntn (seed (engine w)) maxFid j)
                  +:+ ",index:" +:+ pretty (Z.of_nat j)))
    /\ (err <> nil_err ->
        Persistent.validate_result (sql w') = Persistent.validate_result (sql w)).
Proof.
  intros Hreach Hj Hcid Hmis Hbefore. pose proof Hreach as (Hr & _).
  rewrite <- mismatch_message.
  assert (Hbody : body' vr w
                  = UpdateFailValidateResult (RoundID vr) (DeviceID vr)
                      (GoStrings.Sprintf
                         "validate fail; resultCid:%s,cid_db:%s,fid:%d,index:%d"
                         [GoStrings.Str resultCid;
                          GoStrings.Str (expectedCid randIntn blocks (seed (engine w))
                                                     maxFid j);
                          GoStrings.Int (drawnFid randIntn (seed (engine w)) maxFid j);
                          GoStrings.Int (Z.of_nat j)])
                      Persistent.ValidateStatusFail
                      (with_sql w (Persistent.tick (sql w)))).
  { rewrite (handleBody_scoring _ _ vr w blocks maxFid Hreach).
    rewrite (scoring_first_mismatch vr maxFid blocks (seed (engine w)) j resultCid
               (Z.to_nat (RandomCount vr)) 0); [reflexivity|lia|exact Hcid|exact Hmis|].
    intros i Hi. apply Hbefore. lia. }
  pose proof (handle_one_update_error vr w _ _ _ Hr Hbody) as Herr.
  destruct (handle_one_update vr w _ _ _ Hr Hbody) as (err & w' & Hrun & Hok & Hko & _);
    [reflexivity|].
  rewrite Hrun in Herr. cbn [fst sql with_sql] in Herr. injection Herr as Herr.
  exists err, w'. auto.
Qed.

End HandlerPaths.

Section HandlerOutcomes.
Variable randIntn : Z -> Z -> nat -> Z.
Variable CIDString2HashString : string -> option string.

(** The row of a successful audit: what [UpdateSuccessValidateResult]
    writes into the row of the key, and what it keeps. *)
Lemma UpdateSuccessValidateResult_measured (vr : ValidateResults) (w : World) :
  exists err w', UpdateSuccessValidateResult vr w = (Ret err, w')
    /\ (err <> nil_err ->
        Persistent.validate_result (sql w') = Persistent.validate_result (sql w))
    /\ (err = nil_err ->
        recorded (Persistent.validate_result (sql w)) (Persistent.validate_result (sql w'))
                 (RoundID vr) (DeviceID vr) Persistent.ValidateStatusSuccess "ok"
        /\ forall (i : nat) row,
             Persistent.validate_result (sql w) !! i = Some row ->
             Persistent.row_is (RoundID vr) (DeviceID vr) row = true ->
             exists row', Persistent.validate_result (sql w') !! i = Some row'
               /\ Persistent.vr_BlockNumber row' = Z.of_nat (length (Cids vr))
               /\ Persistent.vr_Bandwidth row' = Bandwidth vr
               /\ Persistent.vr_Duration row' = CostTime vr
               /\ Persistent.vr_EndTime row' = now w
               /\ Persistent.vr_StartTime row' = Persistent.vr_StartTime row
               /\ Persistent.vr_ValidatorID row' = Persistent.vr_ValidatorID row).
Proof.
  unfold UpdateSuccessValidateResult, bind, get, onSql.
  set (info := Persistent.mkValidateResult _ _ _ _ _ _ _ _ _ _).
  pose proof (UpdateSuccessValidateResultInfo_spec info (sql w)) as H.
  destruct (Persistent.UpdateSuccessValidateResultInfo info (sql w)) as [err d].
  cbn [fst snd] in H. exists err, (with_sql w d). split; [reflexivity|]. cbn [sql with_sql].
  destruct H as [[He Ht]|[He Ht]].
  - split; [auto|contradiction].
  - split; [contradiction|]. intros _. rewrite Ht. split.
    + apply (success_row_recorded info).
    + intros i row Hi Hkey. rewrite list_lookup_fmap, Hi. cbn [fmap option_fmap option_map].
      unfold Persistent.success_row. subst info. cbn [Persistent.vr_RoundID Persistent.vr_DeviceID].
      rewrite Hkey. eexists. split; [reflexivity|]. repeat split.
Qed.

(** X4: a report that reaches the scoring loop with a cid for every draw
    and no mismatch on any of the [random_count] draws is recorded as
    [success] with the message "ok"; the row takes the number of cids
    reported, the bandwidth and the cost time of the report and the current
    time as its end, and keeps its validator and its start time.  The
    handler returns no error exactly when the SQL store executes the
    update (the statement after the block query), and then the row carries
    that outcome; when the store refuses the update its error is returned
    and the table stays as it was. *)
Theorem handleValidateResult_success (vr : ValidateResults) (w : World)
    (blocks : gmap Z string) (maxFid : Z) :
  reachesScoring vr w blocks maxFid ->
  RandomCount vr <= Z.of_nat (length (Cids vr)) ->
  (forall index : nat, Z.of_nat index < RandomCount vr ->
     mismatch randIntn CIDString2HashString vr blocks (seed (engine w)) maxFid index = false) ->
  exists err w',
    handleValidateResult randIntn CIDString2HashString vr w = (Ret err, w')
    /\ err = (if Persistent.faulty (Persistent.tick (sql w))
              then Persistent.the_fault (Persistent.tick (sql w)) else nil_err)
    /\ (err <> nil_err ->
        Persistent.validate_result (sql w') = Persistent.validate_result (sql w))
    /\ (err = nil_err ->
        recorded (Persistent.validate_result (sql w)) (Persistent.validate_result (sql w'))
                 (RoundID vr) (DeviceID vr) Persistent.ValidateStatusSuccess "ok"
        /\ forall (i : nat) row,
             Persistent.validate_result (sql w) !! i = Some row ->
             Persistent.row_is (RoundID vr) (DeviceID vr) row = true ->
             exists row', Persistent.validate_result (sql w') !! i = Some row'
               /\ Persistent.vr_BlockNumber row' = Z.of_nat (length (Cids vr))
               /\ Persistent.vr_Bandwidth row' = Bandwidth vr
               /\ Persistent.vr_Duration row' = CostTime vr
               /\ Persistent.vr_EndTime row' = now w
               /\ Persistent.vr_StartTime row' = Persistent.vr_StartTime row
               /\ Persistent.vr_ValidatorID row' = Persistent.vr_ValidatorID row).
Proof.
  intros Hreach Hlen Hno. pose proof Hreach as (Hr & _).
  rewrite (handleValidateResult_current _ _ vr w Hr).
  destruct (deferred_result vr (handleBody randIntn CIDString2HashString vr) w)
    as (w' & -> & Hsql).
  assert (Hbody : handleBody randIntn CIDString2HashString vr w
                  = UpdateSuccessValidateResult vr (with_sql w (Persistent.tick (sql w)))).
  { rewrite (handleBody_scoring _ _ vr w blocks maxFid Hreach).
    rewrite (scoring_no_mismatch randIntn CIDString2HashString vr maxFid blocks
               (seed (engine w)) (Z.to_nat (RandomCount vr)) 0); [reflexivity|lia|].
    intros j Hj. apply Hno. lia. }
  rewrite Hbody in Hsql |- *.
  destruct (UpdateSuccessValidateResult_measured vr (with_sql w (Persistent.tick (sql w))))
    as (err & w1 & Hrun & Hko & Hok).
  pose proof (UpdateSuccessValidateResult_error vr (with_sql w (Persistent.tick (sql w))))
    as Herr.
  rewrite Hrun in Herr. cbn [fst sql with_sql] in Herr. injection Herr as Herr.
  rewrite Hrun in Hsql |- *. cbn [fst snd sql with_sql Persistent.tick
                                  Persistent.set_tables Persistent.validate_result now]
    in Hsql, Hko, Hok |- *.
  exists err, w'. split; [reflexivity|]. split; [exact Herr|].
  rewrite Hsql. split; [exact Hko|exact Hok].
Qed.

(** What the body of the handler leaves alone: the ephemeral store, the
    engine, the batches sent. *)
Lemma scoring_quiet (vr : ValidateResults) (maxFid : Z) (blocks : gmap Z string)
    (todo : nat) :
  forall (index : Z) (r : Z * nat),
    preserves (fun w => (cache w, engine w, sent w))
              (scoring randIntn CIDString2HashString vr maxFid blocks todo index r).
Proof.
  induction todo as [|todo IH]; intros index r; cbn [scoring].
  - unfold UpdateSuccessValidateResult. preserve.
  - destruct (getRandNum randIntn maxFid r) as [n r'].
    destruct (if index <? 0 then None else Cids vr !! Z.to_nat index); [|preserve].
    destruct (String.eqb _ _); [apply IH|].
    destruct (negb _); [unfold UpdateFailValidateResult; preserve|apply IH].
Qed.

Lemma handleBody_quiet (vr : ValidateResults) :
  preserves (fun w => (cache w, engine w, sent w))
            (handleBody randIntn CIDString2HashString vr).
Proof.
  unfold handleBody.
  destruct (IsCancel vr); [unfold UpdateFailValidateResult; preserve|].
  destruct (IsTimeout vr); [unfold UpdateFailValidateResult; preserve|].
  apply preserves_bind; [preserve|intros w0].
  destruct (_ || _); [unfold UpdateFailValidateResult; preserve|].
  apply preserves_bind; [preserve|intros [cacheInfos err]].
  destruct (_ || _).
  { destruct (Error err); [unfold UpdateFailValidateResult; preserve|preserve]. }
  apply preserves_bind; [preserve|intros w1].
  destruct (maxFidMap (engine w1) !! DeviceID vr); [apply scoring_quiet|preserve].
Qed.

(** The two deferred closures when the ephemeral store answers. *)
Lemma deferred_cleanup {A} (vr : ValidateResults) (body : M A) (w : World) :
  cache (snd (body w)) = cache w ->
  engine (snd (body w)) = engine w ->
  (forall k, Cache.cache_fault (cache w) k = false) ->
  let w' := snd (defer deferredCount (defer (deferredRemove vr) body) w) in
  Cache.verifying (cache w') = Cache.verifying (cache w) ∖ {[DeviceID vr]}
  /\ vState (engine w')
     = (if decide (size (Cache.verifying (cache w) ∖ {[DeviceID vr]}) = 0%nat)
        then validationNotStarted else vState (engine w)).
Proof.
  intros Hc He Hnf. unfold defer.
  destruct (body w) as [r w1]. cbn [snd] in Hc, He.
  unfold deferredRemove, deferredCount, bind, onCache, ret, setState, modify,
    Cache.RemoveNodeWithVerifyingList, Cache.CountVerifyingNode, Cache.faulty.
  rewrite Hc, Hnf. cbn [cache with_cache Cache.set_keys Cache.cache_fault Cache.cache_calls].
  rewrite Hnf. cbn [is_nil negb Cache.verifying cache with_cache Cache.tick Cache.set_keys].
  destruct (decide (size (Cache.verifying (cache w) ∖ {[DeviceID vr]}) = 0%nat)) as [Hz|Hnz].
  - rewrite Hz. cbn. split; reflexivity.
  - destruct (Z.eqb_spec (Z.of_nat (size (Cache.verifying (cache w) ∖ {[DeviceID vr]}))) 0)
      as [Hz|_]; [lia|].
    cbn. split; [reflexivity|]. rewrite He. reflexivity.
Qed.

(** X5: whatever a report of the current round leads to (an outcome
    recorded, a store error, a panic of the handler), when the ephemeral
    store answers the device is taken out of the verifying set and no other
    device is; the validate state becomes [not started] exactly when the
    set is then empty, and keeps its value otherwise. *)
Theorem handleValidateResult_cleanup (vr : ValidateResults) (w : World) :
  RoundID vr = curRoundId (engine w) ->
  (forall k, Cache.cache_fault (cache w) k = false) ->
  let w' := snd (handleValidateResult randIntn CIDString2HashString vr w) in
  Cache.verifying (cache w') = Cache.verifying (cache w) ∖ {[DeviceID vr]}
  /\ vState (engine w')
     = (if decide (size (Cache.verifying (cache w) ∖ {[DeviceID vr]}) = 0%nat)
        then validationNotStarted else vState (engine w)).
Proof.
  intros Hr Hnf. rewrite (handleValidateResult_current _ _ vr w Hr).
  pose proof (handleBody_quiet vr w) as Hq.
  apply deferred_cleanup; [congruence|congruence|exact Hnf].
Qed.

(** X6: a report that would be scored (current round, neither cancelled
    nor timed out, cids and a positive [random_count]) from a device
    without a single row in the block table makes the handler panic on the
    nil error it formats; no outcome is recorded, the row stays as it
    was. *)
Theorem handleValidateResult_no_blocks (vr : ValidateResults) (w : World) :
  RoundID vr = curRoundId (engine w) ->
  IsCancel vr = false -> IsTimeout vr = false ->
  (0 < length (Cids vr))%nat -> 0 < RandomCount vr ->
  Persistent.faulty (sql w) = false ->
  Persistent.blocks_of (DeviceID vr) (Persistent.device_blocks (sql w)) = ∅ ->
  fst (handleValidateResult randIntn CIDString2HashString vr w)
  = Panic "invalid memory address or nil pointer dereference"
  /\ Persistent.validate_result (sql (snd (handleValidateResult randIntn
                                             CIDString2HashString vr w)))
     = Persistent.validate_result (sql w).
Proof.
  intros Hr Hc Ht Hl Hn Hf Hb. rewrite (handleValidateResult_current _ _ vr w Hr).
  destruct (deferred_result vr (handleBody randIntn CIDString2HashString vr) w)
    as (w' & -> & Hsql).
  assert (Hbody : handleBody randIntn CIDString2HashString vr w
                  = (Panic "invalid memory address or nil pointer dereference",
                     with_sql w (Persistent.tick (sql w)))).
  { unfold handleBody. rewrite Hc, Ht. unfold bind at 1, get at 1. cbv iota.
    destruct (Z.leb_spec (Z.of_nat (length (Cids vr))) 0); [lia|].
    destruct (Z.leb_spec (RandomCount vr) 0); [lia|].
    cbn [orb]. unfold bind at 1, onSql at 1, Persistent.GetBlocksFID.
    rewrite Hf. cbv iota. cbn [default is_nil negb orb]. unfold id. rewrite Hb.
    reflexivity. }
  rewrite Hbody in Hsql |- *. cbn [fst snd]. split; [reflexivity|].
  rewrite Hsql. reflexivity.
Qed.

(** X7: a report that would be scored, from a device with blocks for which
    the engine holds no [max_fid] (it was not dispatched since the engine
    started), makes the handler panic on the type assertion; no outcome is
    recorded. *)
Theorem handleValidateResult_unknown_max_fid (vr : ValidateResults) (w : World) :
  RoundID vr = curRoundId (engine w) ->
  IsCancel vr = false -> IsTimeout vr = false ->
  (0 < length (Cids vr))%nat -> 0 < RandomCount vr ->
  Persistent.faulty (sql w) = false ->
  (0 < size (Persistent.blocks_of (DeviceID vr) (Persistent.device_blocks (sql w))))%nat ->
  maxFidMap (engine w) !! DeviceID vr = None ->
  fst (handleValidateResult randIntn CIDString2HashString vr w)
  = Panic "interface conversion: interface {} is nil, not int64"
  /\ Persistent.validate_result (sql (snd (handleValidateResult randIntn
                                             CIDString2HashString vr w)))
     = Persistent.validate_result (sql w).
Proof.
  intros Hr Hc Ht Hl Hn Hf Hb Hm. rewrite (handleValidateResult_current _ _ vr w Hr).
  destruct (deferred_result vr (handleBody randIntn CIDString2HashString vr) w)
    as (w' & -> & Hsql).
  assert (Hbody : handleBody randIntn CIDString2HashString vr w
                  = (Panic "interface conversion: interface {} is nil, not int64",
                     with_sql w (Persistent.tick (sql w)))).
  { unfold handleBody. rewrite Hc, Ht. unfold bind at 1, get at 1. cbv iota.
    destruct (Z.leb_spec (Z.of_nat (length (Cids vr))) 0); [lia|].
    destruct (Z.leb_spec (RandomCount vr) 0); [lia|].
    cbn [orb]. unfold bind at 1, onSql at 1, Persistent.GetBlocksFID.
    rewrite Hf. cbv iota. cbn [default is_nil negb orb]. unfold id.
    destruct (Z.leb_spec (Z.of_nat (size (Persistent.blocks_of (DeviceID vr)
                                            (Persistent.device_blocks (sql w))))) 0);
      [lia|].
    unfold bind, get. cbn [engine with_sql]. rewrite Hm. reflexivity. }
  rewrite Hbody in Hsql |- *. cbn [fst snd]. split; [reflexivity|].
  rewrite Hsql. reflexivity.
Qed.

(** X8: [compareCid] is symmetric and transitive, it holds of a cid and
    itself exactly when the cid decodes, and it never holds when one of the
    two cids does not decode. *)
Theorem compareCid_partial_equivalence (a b c : string) :
  compareCid CIDString2HashString a b = compareCid CIDString2HashString b a
  /\ (compareCid CIDString2HashString a b = true ->
      compareCid CIDString2HashString b c = true ->
      compareCid CIDString2HashString a c = true)
  /\ (compareCid CIDString2HashString a a = true <-> is_Some (CIDString2HashString a))
  /\ (compareCid CIDString2HashString a b = true ->
      exists h, CIDString2HashString a = Some h /\ CIDString2HashString b = Some h).
Proof.
  unfold compareCid.
  destruct (CIDString2HashString a) as [ha|], (CIDString2HashString b) as [hb|],
    (CIDString2HashString c) as [hc|]; cbn;
    repeat split; try discriminate; try (intros; exact eq_refl);
    try (apply String.eqb_sym);
    try (intros H1 H2; apply String.eqb_eq in H1, H2; apply String.eqb_eq; congruence);
    try (intros _; rewrite String.eqb_refl; reflexivity);
    try (intros _; eexists; reflexivity);
    try (intros H; rewrite String.eqb_refl in H; discriminate);
    try (intros [x Hx]; discriminate);
    try (apply String.eqb_refl);
    try (intros H; apply String.eqb_eq in H; subst; eexists; split; reflexivity).
Qed.

(** X9: when [r.Intn(n)] keeps to its range, the fid challenged at an
    iteration lies in [1 .. max_fid] for a positive [max_fid]; for
    [max_fid <= 0] no number is drawn (the generator is left as it is) and
    the fid is [max_fid + 1]. *)
Theorem getRandNum_fid_range (maxFid : Z) (r : Z * nat) :
  (forall sd n k, 0 < n -> 0 <= randIntn sd n k < n) ->
  (0 < maxFid ->
   1 <= fst (getRandNum randIntn maxFid r) + 1 <= maxFid
   /\ snd (getRandNum randIntn maxFid r) = (fst r, S (snd r)))
  /\ (maxFid <= 0 ->
      fst (getRandNum randIntn maxFid r) + 1 = maxFid + 1
      /\ snd (getRandNum randIntn maxFid r) = r).
Proof.
  intros Hrange. unfold getRandNum. split; intros H.
  - destruct (Z.ltb_spec 0 maxFid); [|lia]. cbn [fst snd].
    pose proof (Hrange (fst r) maxFid (snd r) H). split; [lia|reflexivity].
  - destruct (Z.ltb_spec 0 maxFid); [lia|]. split; reflexivity.
Qed.

End HandlerOutcomes.

(* ===================================================================== *)
(** * Rounds under arbitrary store failures *)
(* ===================================================================== *)

Section Returns.

Lemma returns_ret {A} (a : A) : returns (ret a).
Proof. intros w. eexists _, _. reflexivity. Qed.

Lemma returns_get : returns get.
Proof. intros w. eexists _, _. reflexivity. Qed.

Lemma returns_modify (f : World -> World) : returns (modify f).
Proof. intros w. eexists _, _. reflexivity. Qed.

Lemma returns_onCache {A} (op : Cache.cacheDB -> A * Cache.cacheDB) : returns (onCache op).
Proof. intros w. unfold onCache. destruct (op (cache w)). eexists _, _. reflexivity. Qed.

Lemma returns_onSql {A} (op : Persistent.sqlDB -> A * Persistent.sqlDB) : returns (onSql op).
Proof. intros w. unfold onSql. destruct (op (sql w)). eexists _, _. reflexivity. Qed.

Lemma returns_bind {A B} (m : M A) (k : A -> M B) :
  returns m -> (forall a, returns (k a)) -> returns (bind m k).
Proof.
  intros Hm Hk w. destruct (Hm w) as (a & w1 & Hrun). unfold bind. rewrite Hrun. apply Hk.
Qed.

End Returns.

Ltac returning :=
  repeat first
    [ apply returns_ret
    | apply returns_get
    | apply returns_modify
    | apply returns_onCache
    | apply returns_onSql
    | apply returns_bind; [|intros]
    | match goal with
      | |- returns (if ?b then _ else _) => destruct b
      | |- returns (let '(_, _) := ?x in _) => destruct x
      | |- returns (match ?x with _ => _ end) => destruct x
      end
    | solve [eauto] ].

Section RoundsUnderFaults.

Lemma assemblyDevice_returns (validatorID : string) (device : tmpDeviceMeta)
    (req : list ReqValidate) : returns (assemblyDevice validatorID device req).
Proof. unfold assemblyDevice. returning. Qed.

Lemma assemblyLoop_returns (validatorID : string) (list_ : list tmpDeviceMeta) :
  forall req, returns (assemblyLoop validatorID list_ req).
Proof.
  induction list_ as [|device rest IH]; intros req; cbn [assemblyLoop]; [returning|].
  apply returns_bind; [apply assemblyDevice_returns|intros req'; apply IH].
Qed.

Lemma dispatchAll_returns (plan : list (string * list tmpDeviceMeta)) :
  returns (dispatchAll plan).
Proof.
  induction plan as [|[vId list_] rest IH]; cbn [dispatchAll]; [returning|].
  apply returns_bind; [|intros _; exact IH].
  unfold dispatch, assemblyValidateReqAndStore.
  apply returns_bind; [apply assemblyLoop_returns|intros req]. returning.
Qed.

Lemma timeOutAll_returns (deviceIDs : list string) : returns (timeOutAll deviceIDs).
Proof.
  induction deviceIDs as [|di rest IH]; cbn [timeOutAll]; [returning|].
  apply returns_bind; [returning|intros w0].
  apply returns_bind; [unfold UpdateFailValidateResult; returning|intros _; exact IH].
Qed.

Lemma execute_returns : returns execute.
Proof.
  unfold execute, setState.
  apply returns_bind; [returning|intros _].
  apply returns_bind; [returning|intros err].
  destruct (negb (is_nil err)); [returning|].
  apply returns_bind; [returning|intros [validatorList err']].
  destruct (negb (is_nil err')); [returning|].
  destruct (Z.eqb_spec (Z.of_nat (length validatorList)) 0) as [|Hne]; [returning|].
  apply returns_bind.
  - intros w. destruct (validateMapping_returns validatorList w) as (r & w' & Hrun & _).
    + intros ->. apply Hne. reflexivity.
    + eexists _, _. exact Hrun.
  - intros [validatorMap err2]. destruct (negb (is_nil err2)); [returning|].
    apply returns_bind; [apply dispatchAll_returns|intros _; returning].
Qed.

Lemma checkValidateTimeOut_returns : returns checkValidateTimeOut.
Proof.
  unfold checkValidateTimeOut.
  apply returns_bind; [returning|intros [deviceIDs err]].
  destruct (negb (is_nil err)); [returning|].
  apply returns_bind; [|intros _; returning].
  destruct (0 <? Z.of_nat (length deviceIDs)); [apply timeOutAll_returns|returning].
Qed.

Lemma startValidate_returns : returns startValidate.
Proof.
  unfold startValidate, setState.
  apply returns_bind; [returning|intros [[pre cur] err]].
  destruct (negb (is_nil err)); [returning|].
  apply returns_bind; [returning|intros _].
  apply returns_bind; [apply checkValidateTimeOut_returns|intros err1].
  destruct (negb (is_nil err1)); [returning|].
  apply returns_bind; [returning|intros w0].
  destruct (negb (enable (engine w0))); [returning|].
  apply returns_bind; [apply execute_returns|intros err2]. returning.
Qed.

(** What the dispatch of a plan leaves of the engine: the state and the
    switch. *)
Lemma dispatchAll_state (plan : list (string * list tmpDeviceMeta)) :
  preserves (fun w => (vState (engine w), enable (engine w))) (dispatchAll plan).
Proof.
  assert (Hd : forall v d req, preserves (fun w => (vState (engine w), enable (engine w)))
                                         (assemblyDevice v d req)).
  { intros v d req. unfold assemblyDevice. preserve. }
  assert (Hl : forall v l req, preserves (fun w => (vState (engine w), enable (engine w)))
                                         (assemblyLoop v l req)).
  { intros v l. induction l as [|d rest IH]; intros req; cbn [assemblyLoop]; [preserve|].
    apply preserves_bind; [apply Hd|intros req'; apply IH]. }
  induction plan as [|[vId list_] rest IH]; cbn [dispatchAll]; [preserve|].
  apply preserves_bind; [|intros _; exact IH].
  unfold dispatch, assemblyValidateReqAndStore.
  apply preserves_bind; [apply Hl|intros req]. preserve.
Qed.

Lemma still_state {A} (m : M A) :
  preserves still m -> preserves (fun w => (vState (engine w), enable (engine w))) m.
Proof.
  intros H w. specialize (H w). unfold still in H. congruence.
Qed.

Lemma bind_obs {T A B} (obs : World -> T) (m : M A) (k : A -> M B) (w : World) :
  (forall a, preserves obs (k a)) -> obs (snd (bind m k w)) = obs (snd (m w)).
Proof.
  intros Hk. unfold bind. destruct (m w) as [[a|msg] w1]; cbn [snd]; [apply Hk|reflexivity].
Qed.

(** [execute] leaves the state at [validationStarting], whatever it
    returns. *)
Lemma execute_state (w : World) :
  vState (engine (snd (execute w))) = validationStarting
  /\ enable (engine (snd (execute w))) = enable (engine w).
Proof.
  unfold execute.
  match goal with
  | |- context [bind ?m ?k w] =>
      pose proof (bind_obs (fun w => (vState (engine w), enable (engine w))) m k w) as H;
      assert (Hk : forall a : unit,
                 preserves (fun w => (vState (engine w), enable (engine w))) (k a))
  end.
  2: { specialize (H Hk). injection H as H1 H2. split; [exact H1|exact H2]. }
  intros _.
  apply preserves_bind; [preserve|intros err].
  destruct (negb (is_nil err)); [preserve|].
  apply preserves_bind; [preserve|intros [validatorList err']].
  destruct (negb (is_nil err')); [preserve|].
  destruct (Z.of_nat (length validatorList) =? 0); [preserve|].
  apply preserves_bind; [apply still_state, validateMapping_stores|intros [validatorMap err2]].
  destruct (negb (is_nil err2)); [preserve|].
  apply preserves_bind; [apply dispatchAll_state|intros _; preserve].
Qed.

Lemma checkValidateTimeOut_engine : preserves engine checkValidateTimeOut.
Proof.
  unfold checkValidateTimeOut.
  apply preserves_bind; [preserve|intros [deviceIDs err]].
  destruct (negb (is_nil err)); [preserve|].
  apply preserves_bind; [|intros _; preserve].
  destruct (0 <? Z.of_nat (length deviceIDs)); [|preserve].
  intros w. pose proof (timeOutAll_fixed deviceIDs w) as H. congruence.
Qed.

(** X10: a round never panics, whichever store calls fail, and ends with
    no error, a store error or the empty-registry error.  When it ends
    with no error and validation is switched on, the state is
    [validationStarting] - also when no validator was elected and nothing
    was dispatched - and a manual trigger run next is refused; with
    validation switched off the state is [validationNotStarted]; when it
    ends with an error the state is [validationNotStarted] or, if a store
    failed before [execute], what it was. *)
Theorem startValidate_state (w : World) :
  exists err w',
    startValidate w = (Ret err, w')
    /\ round_error err
    /\ (err = nil_err -> enable (engine w) = true ->
        vState (engine w') = validationStarting
        /\ StartValidateOnceTask w' = (Ret inProgress, w'))
    /\ (err = nil_err -> enable (engine w) = false ->
        vState (engine w') = validationNotStarted)
    /\ (err <> nil_err ->
        vState (engine w') = validationNotStarted \/ vState (engine w') = vState (engine w)).
Proof.
  destruct (startValidate_returns w) as (err & w' & Hrun).
  exists err, w'. split; [exact Hrun|]. split; [exact (startValidate_error w err w' Hrun)|].
  unfold startValidate, bind at 1, onCache at 1, Cache.GetPreviousAndCurrentRoundId in Hrun.
  destruct (Cache.faulty (cache w)).
  { cbv iota in Hrun. cbn [is_nil negb Cache.the_fault] in Hrun.
    injection Hrun as <- <-. split; [discriminate|]. split; [discriminate|].
    intros _. right. reflexivity. }
  cbv iota in Hrun. cbn [is_nil negb] in Hrun.
  unfold bind at 1, modify at 1 in Hrun.
  set (w1 := with_engine _ _) in Hrun.
  assert (He1 : vState (engine w1) = vState (engine w) /\ enable (engine w1) = enable (engine w))
    by (split; reflexivity).
  clearbody w1. destruct He1 as [Hv1 Hen1].
  unfold bind at 1 in Hrun.
  pose proof (checkValidateTimeOut_engine w1) as He2.
  destruct (checkValidateTimeOut w1) as [[err1|msg] w2]; [|discriminate].
  cbn [snd] in He2.
  destruct (negb (is_nil err1)) eqn:Hn1.
  { injection Hrun as <- <-. split; [intros ->; discriminate|]. split; [intros ->; discriminate|].
    intros _. right. congruence. }
  unfold bind at 1, get at 1 in Hrun. rewrite He2, Hen1 in Hrun.
  destruct (enable (engine w)) eqn:Hen; cbn [negb] in Hrun.
  - unfold bind at 1 in Hrun.
    pose proof (execute_state w2) as [Hst _].
    destruct (execute w2) as [[err2|msg] w3]; [|discriminate]. cbn [snd] in Hst.
    destruct (negb (is_nil err2)) eqn:Hn2.
    + unfold bind, setState, modify, ret in Hrun. injection Hrun as <- <-.
      split; [intros ->; discriminate|]. split; [discriminate|].
      intros _. left. reflexivity.
    + injection Hrun as <- <-. split; [|split; [discriminate|contradiction]].
      intros _ _. split; [exact Hst|].
      unfold StartValidateOnceTask, bind, get. rewrite Hst.
      destruct (decide (validationStarting = validationStarting)); [reflexivity|contradiction].
  - unfold bind, setState, modify, ret in Hrun. injection Hrun as <- <-.
    split; [discriminate|]. split; [reflexivity|contradiction].
Qed.

Lemma UpdateFailValidateResult_quiet (roundId : Z) (deviceID msg : string)
    (status : Persistent.ValidateStatus) :
  preserves (fun w => (sent w, engine w, Cache.verifying (cache w),
                       length (Persistent.validate_result (sql w)), randCalls w,
                       Persistent.device_blocks (sql w)))
            (UpdateFailValidateResult roundId deviceID msg status).
Proof.
  intros w. unfold UpdateFailValidateResult, bind, get, onSql,
    Persistent.UpdateFailValidateResultInfo.
  destruct (Persistent.faulty (sql w)); cbn; [reflexivity|].
  rewrite length_map. reflexivity.
Qed.

Lemma checkValidateTimeOut_quiet :
  preserves (fun w => (sent w, engine w, Cache.verifying (cache w),
                       length (Persistent.validate_result (sql w)), randCalls w,
                       Persistent.device_blocks (sql w)))
            checkValidateTimeOut.
Proof.
  unfold checkValidateTimeOut.
  apply preserves_bind; [preserve|intros [deviceIDs err]].
  destruct (negb (is_nil err)); [preserve|].
  apply preserves_bind; [|intros _; preserve].
  destruct (0 <? Z.of_nat (length deviceIDs)); [|preserve].
  induction deviceIDs as [|di rest IH]; cbn [timeOutAll]; [preserve|].
  apply preserves_bind; [preserve|intros w0].
  apply preserves_bind; [apply UpdateFailValidateResult_quiet|intros _; exact IH].
Qed.

(** X11: with validation switched off a round dispatches nothing,
    whichever store calls fail: no batch is sent, no row is inserted, no
    device joins or leaves the verifying set, no [max_fid] is stored, no
    random number is drawn and the block table is not written; the round
    returns without a panic. *)
Theorem startValidate_disabled (w : World) :
  enable (engine w) = false ->
  exists err w',
    startValidate w = (Ret err, w')
    /\ sent w' = sent w
    /\ maxFidMap (engine w') = maxFidMap (engine w)
    /\ Cache.verifying (cache w') = Cache.verifying (cache w)
    /\ length (Persistent.validate_result (sql w'))
       = length (Persistent.validate_result (sql w))
    /\ randCalls w' = randCalls w
    /\ Persistent.device_blocks (sql w') = Persistent.device_blocks (sql w).
Proof.
  intros Hoff. destruct (startValidate_returns w) as (err & w' & Hrun).
  exists err, w'. split; [exact Hrun|].
  unfold startValidate, bind at 1, onCache at 1, Cache.GetPreviousAndCurrentRoundId in Hrun.
  destruct (Cache.faulty (cache w)).
  { cbv iota in Hrun. cbn [is_nil negb Cache.the_fault] in Hrun.
    injection Hrun as <- <-. repeat split. }
  cbv iota in Hrun. cbn [is_nil negb] in Hrun.
  unfold bind at 1, modify at 1 in Hrun.
  set (w1 := with_engine _ _) in Hrun.
  assert (H1 : sent w1 = sent w /\ maxFidMap (engine w1) = maxFidMap (engine w)
               /\ Cache.verifying (cache w1) = Cache.verifying (cache w)
               /\ length (Persistent.validate_result (sql w1))
                  = length (Persistent.validate_result (sql w))
               /\ randCalls w1 = randCalls w
               /\ Persistent.device_blocks (sql w1) = Persistent.device_blocks (sql w)
               /\ enable (engine w1) = false)
    by (repeat split; exact Hoff).
  clearbody w1. destruct H1 as (Hs & Hm & Hv & Hl & Hr & Hb & Hen).
  unfold bind at 1 in Hrun.
  pose proof (checkValidateTimeOut_quiet w1) as Hq.
  destruct (checkValidateTimeOut w1) as [[err1|msg] w2]; [|discriminate].
  cbn [snd] in Hq. injection Hq as Hs2 He2 Hv2 Hl2 Hr2 Hb2.
  assert (Hfin : sent w2 = sent w /\ maxFidMap (engine w2) = maxFidMap (engine w)
               /\ Cache.verifying (cache w2) = Cache.verifying (cache w)
               /\ length (Persistent.validate_result (sql w2))
                  = length (Persistent.validate_result (sql w))
               /\ randCalls w2 = randCalls w
               /\ Persistent.device_blocks (sql w2) = Persistent.device_blocks (sql w)).
  { rewrite Hs2, He2, Hv2, Hl2, Hr2, Hb2. repeat split; assumption. }
  destruct (negb (is_nil err1)).
  { injection Hrun as <- <-. exact Hfin. }
  unfold bind at 1, get at 1 in Hrun. rewrite He2, Hen in Hrun. cbn [negb] in Hrun.
  unfold bind, setState, modify, ret in Hrun. injection Hrun as <- <-. exact Hfin.
Qed.

(** X12: the time-out pass of the preflight touches only what it is about,
    whichever store calls fail: a row of another round, or of a device
    that is not in the verifying set, is left as it is; no row is added or
    removed; the verifying set, the engine and the batches sent are left
    alone. *)
Theorem checkValidateTimeOut_scoped (w : World) :
  exists err w',
    checkValidateTimeOut w = (Ret err, w')
    /\ length (Persistent.validate_result (sql w'))
       = length (Persistent.validate_result (sql w))
    /\ (forall (i : nat) row,
          Persistent.validate_result (sql w) !! i = Some row ->
          (Persistent.vr_RoundID row <> preRoundId (engine w)
           \/ Persistent.vr_DeviceID row ∉ Cache.verifying (cache w)) ->
          Persistent.validate_result (sql w') !! i = Some row)
    /\ Cache.verifying (cache w') = Cache.verifying (cache w)
    /\ engine w' = engine w
    /\ sent w' = sent w.
Proof.
  destruct (checkValidateTimeOut_returns w) as (err & w' & Hrun).
  exists err, w'. split; [exact Hrun|].
  pose proof (checkValidateTimeOut_quiet w) as Hq. rewrite Hrun in Hq. cbn [snd] in Hq.
  injection Hq as Hs He Hv Hl _ _.
  split; [exact Hl|]. split; [|auto].
  assert (Hloop : forall deviceIDs w0 w1 r,
             timeOutAll deviceIDs w0 = (r, w1) ->
             forall (i : nat) row,
               Persistent.validate_result (sql w0) !! i = Some row ->
               (Persistent.vr_RoundID row <> preRoundId (engine w0)
                \/ Persistent.vr_DeviceID row ∉ deviceIDs) ->
               Persistent.validate_result (sql w1) !! i = Some row).
  { induction deviceIDs as [|di rest IH]; intros w0 w1 r Hloop i row Hi Hout;
      cbn [timeOutAll] in Hloop.
    - injection Hloop as _ <-. exact Hi.
    - unfold bind at 1, get at 1 in Hloop. cbv iota in Hloop. unfold bind at 1 in Hloop.
      destruct (UpdateFailValidateResult_outcome (preRoundId (engine w0)) di errMsgTimeOut
                  Persistent.ValidateStatusTimeOut w0) as (e & w2 & Hupd & Hout2).
      pose proof (UpdateFailValidateResult_fixed (preRoundId (engine w0)) di errMsgTimeOut
                    Persistent.ValidateStatusTimeOut w0) as Hfix.
      rewrite Hupd in Hloop, Hfix. cbn [snd] in Hfix.
      assert (Hpre : preRoundId (engine w2) = preRoundId (engine w0)) by congruence.
      apply (IH w2 w1 r Hloop).
      + destruct Hout2 as [[_ Hsame]|[_ [_ Hrows]]]; [rewrite Hsame; exact Hi|].
        destruct (Hrows i row Hi) as (row1 & Hi1 & _ & _ & _ & Hother).
        rewrite Hi1. f_equal. apply Hother.
        unfold Persistent.row_is. destruct Hout as [Hr|Hd].
        * destruct (Z.eqb_spec (Persistent.vr_RoundID row) (preRoundId (engine w0)));
            [contradiction|reflexivity].
        * destruct (String.eqb_spec (Persistent.vr_DeviceID row) di) as [Heq|_];
            [exfalso; apply Hd; rewrite Heq; left|apply andb_false_r].
      + rewrite Hpre. destruct Hout as [Hr|Hd]; [left; exact Hr|right].
        intros Hin. apply Hd. right. exact Hin. }
  intros i row Hi Hout.
  unfold checkValidateTimeOut, bind at 1, onCache at 1,
    Cache.GetNodesWithVerifyingList in Hrun.
  destruct (Cache.faulty (cache w)).
  { cbv iota in Hrun. cbn [is_nil negb Cache.the_fault] in Hrun.
    injection Hrun as _ <-. exact Hi. }
  cbv iota in Hrun. cbn [is_nil negb] in Hrun.
  destruct (0 <? Z.of_nat (length (elements (Cache.verifying (cache w))))).
  - unfold bind in Hrun.
    destruct (timeOutAll (elements (Cache.verifying (cache w)))
                (with_cache w (Cache.tick (cache w)))) as [r w2] eqn:Hloop2.
    assert (Hw2 : w' = w2) by (destruct r; injection Hrun as _ <-; reflexivity).
    subst w2. apply (Hloop _ _ _ _ Hloop2 i row Hi).
    destruct Hout as [Hr|Hd]; [left; exact Hr|right].
    intros Hin. apply Hd. apply elem_of_elements. exact Hin.
  - unfold bind, ret in Hrun. injection Hrun as _ <-. exact Hi.
Qed.

End RoundsUnderFaults.

(* ===================================================================== *)
(** * The partition: who is given to whom *)
(* ===================================================================== *)

Section PartitionFacts.
Variable validatorList : list string.

#[local] Abbreviation plan_t := (gmap string (list tmpDeviceMeta)).
#[local] Abbreviation keyed :=
  (fun result : plan_t => forall v l, result !! v = Some l -> v ∈ validatorList /\ l <> []).

Lemma targets_assign (result : plan_t) (v : string) (tn : tmpDeviceMeta) :
  targets (assign result v tn) ≡ₚ tn :: targets result.
Proof.
  unfold targets, assign. destruct (result !! v) as [l|] eqn:Hv.
  - rewrite <- (insert_delete_eq result).
    rewrite map_to_list_insert by apply lookup_delete_eq.
    rewrite <- (map_to_list_delete result v l Hv).
    cbn [mbind list_bind snd]. rewrite <- app_assoc. cbn [app].
    rewrite <- Permutation_middle. reflexivity.
  - rewrite map_to_list_insert by exact Hv. cbn [mbind list_bind snd app]. reflexivity.
Qed.

Lemma keyed_assign (result : plan_t) (v : string) (tn : tmpDeviceMeta) :
  v ∈ validatorList -> keyed result -> keyed (assign result v tn).
Proof.
  intros Hv Hk v' l Hl. unfold assign in Hl.
  destruct (decide (v' = v)) as [->|Hne].
  - split; [exact Hv|].
    destruct (result !! v); rewrite lookup_insert_eq in Hl; injection Hl as <-;
      intros Hnil; apply (f_equal length) in Hnil; rewrite ?length_app in Hnil;
      simpl in Hnil; lia.
  - destruct (result !! v); rewrite lookup_insert_ne in Hl by congruence;
      exact (Hk v' l Hl).
Qed.

(** A pick that succeeds has drawn one number. *)
Lemma picked_draws (w : World) (v : string) :
  picked validatorList w = Some v ->
  snd (generatorForRandomNumber 0 (Z.of_nat (length validatorList)) w)
  = with_randCalls w (S (randCalls w)).
Proof.
  unfold picked, generatorForRandomNumber.
  destruct (Z.leb_spec (Z.of_nat (length validatorList) - 0) 0) as [Hle|Hlt]; [|reflexivity].
  cbn [ret]. destruct validatorList; [|simpl in Hle; lia]. cbn. discriminate.
Qed.

Lemma Range_edges_partition (entries : list (string * Node)) :
  forall (acc r : plan_t) (w w' : World),
    Range (mapEdge validatorList) entries acc w = (Ret r, w') ->
    keyed acc ->
    targets r ≡ₚ targets acc ++ (edgeTarget <$> entries.*2)
    /\ keyed r
    /\ randCalls w' = (randCalls w + length entries)%nat.
Proof.
  induction entries as [|[key n] rest IH]; intros acc r w w' Hrun Hk; cbn [Range] in Hrun.
  - injection Hrun as <- <-. cbn. rewrite app_nil_r. split; [reflexivity|]. split; [exact Hk|lia].
  - unfold bind in Hrun. rewrite mapEdge_step in Hrun.
    destruct (picked validatorList w) as [v|] eqn:Hp; [|discriminate].
    rewrite (picked_draws w v Hp) in Hrun.
    destruct (IH _ _ _ _ Hrun) as (Ht & Hk' & Hc).
    { apply keyed_assign; [exact (picked_elem validatorList w v Hp)|exact Hk]. }
    split; [|split; [exact Hk'|]].
    + rewrite Ht, targets_assign. cbn [fmap list_fmap snd].
      change (mkTmpDeviceMeta (DeviceId n) NodeEdge (GetAddress n)) with (edgeTarget n).
      rewrite <- Permutation_middle. reflexivity.
    + rewrite Hc. cbn. lia.
Qed.

Lemma Range_candidates_partition (entries : list (string * Node)) :
  forall (acc r : plan_t) (w w' : World),
    Range (mapCandidate validatorList) entries acc w = (Ret r, w') ->
    keyed acc ->
    (exists cs, targets r ≡ₚ targets acc ++ cs
                /\ cs `sublist_of` (candidateTarget <$> entries.*2))
    /\ keyed r
    /\ randCalls w' = (randCalls w + length entries)%nat.
Proof.
  induction entries as [|[key n] rest IH]; intros acc r w w' Hrun Hk; cbn [Range] in Hrun.
  - injection Hrun as <- <-. split; [|split; [exact Hk|cbn; lia]].
    exists []. rewrite app_nil_r. split; [reflexivity|constructor].
  - unfold bind in Hrun. rewrite mapCandidate_step in Hrun.
    destruct (picked validatorList w) as [v|] eqn:Hp; [|discriminate].
    rewrite (picked_draws w v Hp) in Hrun.
    destruct (String.eqb v (DeviceId n)).
    + destruct (IH _ _ _ _ Hrun Hk) as ((cs & Ht & Hs) & Hk' & Hc).
      split; [|split; [exact Hk'|rewrite Hc; cbn; lia]].
      exists cs. split; [exact Ht|]. cbn [fmap list_fmap snd]. apply sublist_cons, Hs.
    + destruct (IH _ _ _ _ Hrun) as ((cs & Ht & Hs) & Hk' & Hc).
      { apply keyed_assign; [exact (picked_elem validatorList w v Hp)|exact Hk]. }
      split; [|split; [exact Hk'|rewrite Hc; cbn; lia]].
      exists (candidateTarget n :: cs). split.
      * rewrite Ht, targets_assign.
        change (mkTmpDeviceMeta (DeviceId n) NodeCandidate (GetAddress n))
          with (candidateTarget n).
        rewrite <- Permutation_middle. reflexivity.
      * cbn [fmap list_fmap snd]. apply sublist_skip, Hs.
Qed.

(** X13: in a plan built by [validateMapping] every session of the edge
    registry is given to exactly one validator, exactly once, and every
    session of the candidate registry at most once: the targets of the
    plan are, up to order, the targets of all the edge sessions and of
    some of the candidate sessions.  The keys of the plan are validators
    of the list, no validator is given an empty list, one random number
    was drawn for each session, and nothing else has changed. *)
Theorem validateMapping_partition (w w' : World) (plan : plan_t) :
  validateMapping validatorList w = (Ret (Some plan, nil_err), w') ->
  (exists cs, targets plan ≡ₚ (edgeTarget <$> (map_to_list (EdgeNodeMap w)).*2) ++ cs
              /\ cs `sublist_of` (candidateTarget <$> (map_to_list (CandidateNodeMap w)).*2))
  /\ (forall v l, plan !! v = Some l -> v ∈ validatorList /\ l <> [])
  /\ randCalls w' = (randCalls w + size (EdgeNodeMap w) + size (CandidateNodeMap w))%nat
  /\ still w' = still w.
Proof.
  intros Hrun. pose proof (validateMapping_stores validatorList w) as Hstill.
  rewrite Hrun in Hstill. cbn [snd] in Hstill.
  unfold validateMapping, bind, get in Hrun.
  destruct (Range (mapEdge validatorList) (map_to_list (EdgeNodeMap w)) ∅ w)
    as [[r1|msg] w1] eqn:H1; [|discriminate].
  destruct (Range (mapCandidate validatorList) (map_to_list (CandidateNodeMap w)) r1 w1)
    as [[r2|msg] w2] eqn:H2; [|discriminate].
  destruct (Z.of_nat (size r2) =? 0); [discriminate|].
  injection Hrun as <- <-.
  destruct (Range_edges_partition _ _ _ _ _ H1) as (Ht1 & Hk1 & Hc1).
  { intros v l Hl. rewrite lookup_empty in Hl. discriminate. }
  destruct (Range_candidates_partition _ _ _ _ _ H2 Hk1) as ((cs & Ht2 & Hs) & Hk2 & Hc2).
  split; [|split; [exact Hk2|split; [|exact Hstill]]].
  - exists cs. split; [|exact Hs]. rewrite Ht2, Ht1.
    unfold targets at 1. rewrite map_to_list_empty. reflexivity.
  - rewrite Hc2, Hc1. unfold size, map_size. rewrite !length_map_to_list. reflexivity.
Qed.

(** X14: the edge cases of [validateMapping].  With both registries empty
    it returns the error "edge node and candidate node are empty" and
    draws nothing; with an empty validator list and a session in either
    registry it panics on [validatorList[0]]; with a validator in the list
    it never panics, and returns a plan with no error or no plan with that
    error; and when the only session is the candidate session of the only
    validator, that candidate is dropped and the error for empty
    registries is returned. *)
Theorem validateMapping_edge_cases (w : World) :
  (EdgeNodeMap w = ∅ -> CandidateNodeMap w = ∅ ->
   validateMapping validatorList w
   = (Ret (None, Errorf "edge node and candidate node are empty"), w))
  /\ (validatorList = [] -> EdgeNodeMap w <> ∅ \/ CandidateNodeMap w <> ∅ ->
      fst (validateMapping validatorList w) = Panic "index out of range")
  /\ (validatorList <> [] ->
      exists r w', validateMapping validatorList w = (Ret r, w')
        /\ (r = (None, Errorf "edge node and candidate node are empty")
            \/ exists plan, r = (Some plan, nil_err) /\ plan <> ∅))
  /\ (forall v n, validatorList = [v] -> EdgeNodeMap w = ∅ ->
        CandidateNodeMap w = {[v := n]} -> DeviceId n = v ->
        fst (validateMapping validatorList w)
        = Ret (None, Errorf "edge node and candidate node are empty")).
Proof.
  split; [|split; [|split]].
  - intros He Hc. unfold validateMapping, bind, get. rewrite He, Hc, map_to_list_empty.
    reflexivity.
  - intros Hnil Hne. unfold validateMapping, bind at 1, get at 1. cbv iota.
    assert (Hp : forall w0, picked validatorList w0 = None).
    { intros w0. rewrite Hnil. reflexivity. }
    destruct (map_to_list (EdgeNodeMap w)) as [|[key n] rest] eqn:Hedges.
    + apply map_to_list_empty_iff in Hedges. destruct Hne as [Hne|Hne]; [contradiction|].
      destruct (map_to_list (CandidateNodeMap w)) as [|[key n] rest] eqn:Hcands.
      { apply map_to_list_empty_iff in Hcands. contradiction. }
      unfold bind. cbn [Range ret]. unfold bind. rewrite mapCandidate_step, Hp. reflexivity.
    + unfold bind. cbn [Range]. unfold bind. rewrite mapEdge_step, Hp. reflexivity.
  - intros Hne. destruct (validateMapping_returns validatorList w Hne) as (r & w' & Hrun & _).
    exists r, w'. split; [exact Hrun|].
    unfold validateMapping, bind, get in Hrun.
    destruct (Range (mapEdge validatorList) (map_to_list (EdgeNodeMap w)) ∅ w)
      as [[r1|msg] w1]; [|discriminate].
    destruct (Range (mapCandidate validatorList) (map_to_list (CandidateNodeMap w)) r1 w1)
      as [[r2|msg] w2]; [|discriminate].
    destruct (Z.eqb_spec (Z.of_nat (size r2)) 0) as [Hz|Hnz]; injection Hrun as <- <-.
    + left. reflexivity.
    + right. exists r2. split; [reflexivity|]. intros ->. apply Hnz. reflexivity.
  - intros v n Hl He Hc Hid. unfold validateMapping, bind at 1, get at 1. cbv iota.
    rewrite He, Hc, map_to_list_empty, map_to_list_singleton.
    unfold bind at 1. cbn [Range ret]. unfold bind at 1. cbn [Range]. unfold bind at 1.
    rewrite mapCandidate_step.
    assert (Hp : picked validatorList w = Some v).
    { rewrite Hl. unfold picked, generatorForRandomNumber.
      change (Z.of_nat (length [v]) - 0) with 1. cbv iota.
      change (1 <=? 0) with false. cbv beta iota. rewrite Z.mod_1_r. reflexivity. }
    rewrite Hp, Hid, String.eqb_refl. reflexivity.
Qed.

End PartitionFacts.

(* ===================================================================== *)
(** * The batch of one validator *)
(* ===================================================================== *)

Section BatchFacts.

Lemma statics_no_faults (w w' : World) : statics w' = statics w -> no_faults w -> no_faults w'.
Proof.
  unfold statics. intros H [Hs Hc].
  assert (Hfs : Persistent.sql_fault (sql w') = Persistent.sql_fault (sql w)) by congruence.
  assert (Hfc : Cache.cache_fault (cache w') = Cache.cache_fault (cache w)) by congruence.
  split; intros k; [rewrite Hfs; apply Hs|rewrite Hfc; apply Hc].
Qed.

Lemma statics_eligible (w w' : World) (d : tmpDeviceMeta) :
  statics w' = statics w -> eligible w' d = eligible w d.
Proof.
  unfold statics, eligible. intros H.
  assert (Hb : Persistent.device_blocks (sql w') = Persistent.device_blocks (sql w))
    by congruence.
  assert (Hf : Cache.nodeCacheFid (cache w') = Cache.nodeCacheFid (cache w)) by congruence.
  rewrite Hb, Hf. reflexivity.
Qed.

Lemma statics_requestFor (w w' : World) (d : tmpDeviceMeta) :
  statics w' = statics w -> requestFor w' d = requestFor w d.
Proof.
  unfold statics, requestFor. intros H.
  assert (Hf : Cache.nodeCacheFid (cache w') = Cache.nodeCacheFid (cache w)) by congruence.
  rewrite Hf. f_equal; congruence.
Qed.

Lemma statics_createdRow (w w' : World) (v : string) (d : tmpDeviceMeta) :
  statics w' = statics w -> createdRow w' v d = createdRow w v d.
Proof. unfold statics, createdRow. intros H. f_equal; congruence. Qed.

(** One target when both stores answer. *)
Lemma assemblyDevice_batch (validatorID : string) (device : tmpDeviceMeta)
    (req : list ReqValidate) (w : World) :
  no_faults w ->
  exists w',
    assemblyDevice validatorID device req w
    = (Ret (if eligible w device then req ++ [requestFor w device] else req), w')
    /\ statics w' = statics w
    /\ Cache.verifying (cache w')
       = (if eligible w device then {[deviceId device]} ∪ Cache.verifying (cache w)
          else Cache.verifying (cache w))
    /\ Persistent.validate_result (sql w')
       = (if eligible w device
          then Persistent.validate_result (sql w) ++ [createdRow w validatorID device]
          else Persistent.validate_result (sql w))
    /\ maxFidMap (engine w')
       = (if eligible w device
          then <[deviceId device := default 0 (Cache.nodeCacheFid (cache w) !! deviceId device)]>
                 (maxFidMap (engine w))
          else maxFidMap (engine w)).
Proof.
  intros [Hsql Hcache]. unfold eligible.
  unfold assemblyDevice, bind at 1, onSql at 1, Persistent.CountCidOfDevice, Persistent.faulty.
  rewrite Hsql. cbv iota. cbn [is_nil negb].
  destruct (Z.leb_spec (Z.of_nat (length (filter (fun r => Persistent.nb_DeviceID r
                                                           = deviceId device)
                                                 (Persistent.device_blocks (sql w))))) 0)
    as [Hle|Hlt].
  { destruct (Z.ltb_spec 0 (Z.of_nat (length (filter (fun r => Persistent.nb_DeviceID r
                                                              = deviceId device)
                                                 (Persistent.device_blocks (sql w))))));
      [lia|].
    cbn [andb]. eexists. split; [reflexivity|]. repeat split. }
  destruct (Z.ltb_spec 0 (Z.of_nat (length (filter (fun r => Persistent.nb_DeviceID r
                                                            = deviceId device)
                                               (Persistent.device_blocks (sql w))))));
    [|lia].
  cbn [andb].
  unfold bind at 1, onCache at 1, Cache.GetNodeCacheFid, Cache.faulty.
  cbn [cache with_sql]. rewrite Hcache.
  destruct (Cache.nodeCacheFid (cache w) !! deviceId device) as [maxFid|] eqn:Hfid.
  2: { cbv iota. cbn [is_nil negb Cache.the_fault].
       rewrite bool_decide_eq_false_2 by (intros [x Hx]; discriminate).
       eexists. split; [reflexivity|]. repeat split. }
  rewrite bool_decide_eq_true_2 by (eexists; reflexivity).
  cbv iota. cbn [is_nil negb].
  unfold bind at 1, modify at 1. unfold bind at 1, get at 1.
  unfold bind at 1, onCache at 1, Cache.SetNodeToVerifyingList, Cache.faulty.
  cbn [cache with_cache with_engine with_sql engine sql Cache.tick Cache.set_keys
       Cache.cache_fault Cache.cache_calls].
  rewrite Hcache. cbv iota. cbn [is_nil negb].
  unfold bind, onSql, Persistent.InsertValidateResultInfo, Persistent.faulty.
  cbn [cache with_cache with_engine with_sql engine sql Persistent.tick
       Persistent.set_tables Persistent.sql_fault Persistent.sql_calls
       curRoundId set_maxFidMap now].
  rewrite Hsql. cbv iota. unfold requestFor, createdRow. rewrite Hfid.
  eexists. split; [reflexivity|]. repeat split.
Qed.

Lemma assemblyLoop_batch (validatorID : string) (list_ : list tmpDeviceMeta) :
  forall (req : list ReqValidate) (w : World),
    no_faults w ->
    exists w',
      assemblyLoop validatorID list_ req w
      = (Ret (req ++ (requestFor w <$> List.filter (eligible w) list_)), w')
      /\ statics w' = statics w
      /\ Cache.verifying (cache w')
         = list_to_set (deviceId <$> List.filter (eligible w) list_) ∪ Cache.verifying (cache w)
      /\ Persistent.validate_result (sql w')
         = Persistent.validate_result (sql w)
           ++ (createdRow w validatorID <$> List.filter (eligible w) list_)
      /\ (forall d, d ∈ List.filter (eligible w) list_ ->
            maxFidMap (engine w') !! deviceId d = Cache.nodeCacheFid (cache w) !! deviceId d)
      /\ (forall id, id ∉ deviceId <$> List.filter (eligible w) list_ ->
            maxFidMap (engine w') !! id = maxFidMap (engine w) !! id).
Proof.
  induction list_ as [|device rest IH]; intros req w Hnf; cbn [assemblyLoop].
  - exists w. cbn [List.filter fmap list_fmap list_to_set]. rewrite !app_nil_r.
    split; [reflexivity|]. split; [reflexivity|].
    split; [rewrite union_empty_l_L; reflexivity|]. split; [reflexivity|].
    split; [|reflexivity]. intros d Hd. apply elem_of_nil in Hd. contradiction.
  - destruct (assemblyDevice_batch validatorID device req w Hnf)
      as (w1 & Hrun1 & Hst1 & Hv1 & Hr1 & Hm1).
    unfold bind. rewrite Hrun1.
    destruct (IH (if eligible w device then req ++ [requestFor w device] else req) w1
                (statics_no_faults _ _ Hst1 Hnf))
      as (w2 & Hrun2 & Hst2 & Hv2 & Hr2 & Hm2 & Hk2).
    assert (Hfil : List.filter (eligible w1) rest = List.filter (eligible w) rest).
    { apply List.filter_ext. intros d. apply statics_eligible, Hst1. }
    assert (Hreq : requestFor w1 <$> List.filter (eligible w) rest
                   = requestFor w <$> List.filter (eligible w) rest).
    { apply list_fmap_ext. intros i d _. apply statics_requestFor, Hst1. }
    assert (Hrow : createdRow w1 validatorID <$> List.filter (eligible w) rest
                   = createdRow w validatorID <$> List.filter (eligible w) rest).
    { apply list_fmap_ext. intros i d _. apply statics_createdRow, Hst1. }
    assert (Hfid : Cache.nodeCacheFid (cache w1) = Cache.nodeCacheFid (cache w))
      by (unfold statics in Hst1; congruence).
    rewrite Hfil in Hrun2, Hv2, Hr2, Hm2, Hk2. rewrite Hreq in Hrun2. rewrite Hrow in Hr2.
    rewrite Hfid in Hm2.
    exists w2. cbn [List.filter].
    destruct (eligible w device) eqn:Hel.
    + split; [rewrite Hrun2, <- app_assoc; reflexivity|].
      split; [congruence|].
      split; [rewrite Hv2, Hv1; cbn [fmap list_fmap list_to_set];
              apply set_eq; intros x; rewrite !elem_of_union; tauto|].
      split; [rewrite Hr2, Hr1, <- app_assoc; reflexivity|].
      split.
      * intros d Hd. apply elem_of_cons in Hd as [->|Hd]; [|exact (Hm2 d Hd)].
        destruct (decide (deviceId device ∈ deviceId <$> List.filter (eligible w) rest))
          as [Hin|Hout].
        -- apply list_elem_of_fmap in Hin as (d' & Hid & Hd'). rewrite Hid. exact (Hm2 d' Hd').
        -- rewrite (Hk2 _ Hout), Hm1, lookup_insert_eq.
           unfold eligible in Hel. apply andb_true_iff in Hel as [_ Hsome].
           apply bool_decide_eq_true in Hsome as [x Hx]. rewrite Hx. reflexivity.
      * intros id Hid. cbn [fmap list_fmap] in Hid. apply not_elem_of_cons in Hid as [Hne Hid].
        rewrite (Hk2 id Hid), Hm1, lookup_insert_ne by congruence. reflexivity.
    + split; [exact Hrun2|]. split; [congruence|].
      split; [rewrite Hv2, Hv1; reflexivity|].
      split; [rewrite Hr2, Hr1; reflexivity|].
      split; [exact Hm2|]. intros id Hid. rewrite (Hk2 id Hid), Hm1. reflexivity.
Qed.

(** X15: the batch of one validator when both stores answer.  The targets
    challenged are those of the list that hold a block and whose [max_fid]
    is in the ephemeral store, in the order of the list; the batch holds
    one request for each, with the seed, the duration and the round of the
    engine, the target's address and type and its [max_fid]; each of them
    joins the verifying set, gets a row [created] under the validator with
    the current time as its start, appended to the table, and its
    [max_fid] is remembered by the engine.  The other targets are skipped
    and leave no trace. *)
Theorem assemblyValidateReqAndStore_batch (validatorID : string)
    (list_ : list tmpDeviceMeta) (w : World) :
  no_faults w ->
  exists w',
    assemblyValidateReqAndStore validatorID list_ w
    = (Ret (requestFor w <$> List.filter (eligible w) list_), w')
    /\ Cache.verifying (cache w')
       = list_to_set (deviceId <$> List.filter (eligible w) list_) ∪ Cache.verifying (cache w)
    /\ Persistent.validate_result (sql w')
       = Persistent.validate_result (sql w)
         ++ (createdRow w validatorID <$> List.filter (eligible w) list_)
    /\ (forall d, d ∈ List.filter (eligible w) list_ ->
          maxFidMap (engine w') !! deviceId d = Cache.nodeCacheFid (cache w) !! deviceId d)
    /\ (forall id, id ∉ deviceId <$> List.filter (eligible w) list_ ->
          maxFidMap (engine w') !! id = maxFidMap (engine w) !! id)
    /\ sent w' = sent w.
Proof.
  intros Hnf. unfold assemblyValidateReqAndStore.
  destruct (assemblyLoop_batch validatorID list_ [] w Hnf)
    as (w' & Hrun & Hst & Hv & Hr & Hm & Hk).
  exists w'. split; [exact Hrun|]. split; [exact Hv|]. split; [exact Hr|].
  split; [exact Hm|]. split; [exact Hk|]. unfold statics in Hst. congruence.
Qed.

(** X16: a target is challenged even when its bookkeeping fails.  For a
    target that holds a block and has a [max_fid], when the count and the
    read of [max_fid] succeed but the ephemeral store refuses to add the
    device to the verifying set, or the insert of the row fails, the
    request is in the batch all the same and the engine remembers the
    [max_fid], yet no row is created; the device is in the verifying set
    only in the second case. *)
Theorem assemblyValidateReqAndStore_unrecorded (validatorID : string)
    (device : tmpDeviceMeta) (w : World) :
  eligible w device = true ->
  Persistent.sql_fault (sql w) (Persistent.sql_calls (sql w)) = false ->
  Cache.cache_fault (cache w) (Cache.cache_calls (cache w)) = false ->
  Cache.cache_fault (cache w) (S (Cache.cache_calls (cache w))) = true
  \/ Persistent.sql_fault (sql w) (S (Persistent.sql_calls (sql w))) = true ->
  exists w',
    assemblyValidateReqAndStore validatorID [device] w = (Ret [requestFor w device], w')
    /\ Persistent.validate_result (sql w') = Persistent.validate_result (sql w)
    /\ maxFidMap (engine w') !! deviceId device
       = Cache.nodeCacheFid (cache w) !! deviceId device
    /\ Cache.verifying (cache w')
       = (if Cache.cache_fault (cache w) (S (Cache.cache_calls (cache w)))
          then Cache.verifying (cache w)
          else {[deviceId device]} ∪ Cache.verifying (cache w)).
Proof.
  intros Hel Hsql Hcache Hfail. unfold eligible in Hel.
  apply andb_true_iff in Hel as [Hcount Hsome].
  apply bool_decide_eq_true in Hsome as [maxFid Hfid].
  unfold assemblyValidateReqAndStore. cbn [assemblyLoop]. unfold bind at 1.
  unfold assemblyDevice, bind at 1, onSql at 1, Persistent.CountCidOfDevice, Persistent.faulty.
  rewrite Hsql. cbv iota. cbn [is_nil negb].
  destruct (Z.leb_spec (Z.of_nat (length (filter (fun r => Persistent.nb_DeviceID r
                                                           = deviceId device)
                                                 (Persistent.device_blocks (sql w))))) 0)
    as [Hle|_]; [apply Z.ltb_lt in Hcount; lia|].
  unfold bind at 1, onCache at 1, Cache.GetNodeCacheFid, Cache.faulty.
  cbn [cache with_sql]. rewrite Hcache, Hfid. cbv iota. cbn [is_nil negb].
  unfold bind at 1, modify at 1. unfold bind at 1, get at 1.
  unfold bind at 1, onCache at 1, Cache.SetNodeToVerifyingList, Cache.faulty.
  cbn [cache with_cache with_engine with_sql engine sql Cache.tick Cache.set_keys
       Cache.cache_fault Cache.cache_calls].
  unfold requestFor. rewrite Hfid. cbn [default].
  destruct (Cache.cache_fault (cache w) (S (Cache.cache_calls (cache w)))) eqn:Hc2.
  - cbv iota. cbn [is_nil negb Cache.the_fault]. unfold ret.
    eexists. split; [reflexivity|].
    cbn [sql cache engine with_cache with_engine with_sql Persistent.tick
         Persistent.set_tables Persistent.validate_result set_maxFidMap maxFidMap
         Cache.tick Cache.set_keys Cache.verifying].
    rewrite lookup_insert_eq. repeat split.
  - destruct Hfail as [Hfail|Hs2]; [discriminate|].
    cbv iota. cbn [is_nil negb].
    unfold bind, onSql, Persistent.InsertValidateResultInfo, Persistent.faulty.
    cbn [cache with_cache with_engine with_sql engine sql Persistent.tick
         Persistent.set_tables Persistent.sql_fault Persistent.sql_calls
         curRoundId set_maxFidMap now].
    rewrite Hs2. cbv iota. unfold ret.
    eexists. split; [reflexivity|].
    cbn [sql cache engine with_cache with_engine with_sql Persistent.tick
         Persistent.set_tables Persistent.validate_result set_maxFidMap maxFidMap
         Cache.tick Cache.set_keys Cache.verifying].
    rewrite lookup_insert_eq. repeat split.
Qed.

End BatchFacts.

(* ===================================================================== *)
(** * The result queue *)
(* ===================================================================== *)

Section QueueFacts.
Import ValidateRest.
Variable randIntn : Z -> Z -> nat -> Z.
Variable CIDString2HashString : string -> option string.

#[local] Abbreviation doCallback' := (doCallback randIntn CIDString2HashString).
#[local] Abbreviation handler' := (handleValidateResult randIntn CIDString2HashString).

(** X17: the queue is served first in, first out: serving [q1 ++ q2] is
    serving [q1] and then [q2] in the world [q1] has left, and a panic
    while [q1] is served leaves [q2] unserved; a report pushed on a queue
    is handled after all the reports queued before it; and when the
    consumer returns the queue is empty. *)
Theorem doCallback_fifo (q1 q2 : list ValidateResults) (w : World) :
  doCallback' (q1 ++ q2) w
  = match doCallback' q1 w with
    | (Ret _, w1) => doCallback' q2 w1
    | (Panic msg, w1) => (Panic msg, w1)
    end
  /\ (forall vr, PushResultToQueue randIntn CIDString2HashString q1 vr w
                 = match doCallback' q1 w with
                   | (Ret _, w1) =>
                       match handler' vr w1 with
                       | (Ret _, w2) => (Ret [], w2)
                       | (Panic msg, w2) => (Panic msg, w2)
                       end
                   | (Panic msg, w1) => (Panic msg, w1)
                   end)
  /\ (forall rest w', doCallback' q1 w = (Ret rest, w') -> rest = []).
Proof.
  assert (Happ : forall q w0,
             doCallback' (q ++ q2) w0
             = match doCallback' q w0 with
               | (Ret _, w1) => doCallback' q2 w1
               | (Panic msg, w1) => (Panic msg, w1)
               end).
  { induction q as [|vr q IH]; intros w0; cbn [app doCallback]; [reflexivity|].
    unfold bind. destruct (handler' vr w0) as [[err|msg] w1]; [apply IH|reflexivity]. }
  assert (Hempty : forall q w0 rest w', doCallback' q w0 = (Ret rest, w') -> rest = []).
  { induction q as [|vr q IH]; intros w0 rest w' Hrun; cbn [doCallback] in Hrun.
    - injection Hrun as <- _. reflexivity.
    - unfold bind in Hrun. destruct (handler' vr w0) as [[err|msg] w1]; [|discriminate].
      exact (IH _ _ _ Hrun). }
  split; [apply Happ|]. split; [|apply Hempty].
  intros vr. unfold PushResultToQueue.
  assert (Hpush : forall q w0,
             doCallback' (q ++ [vr]) w0
             = match doCallback' q w0 with
               | (Ret _, w1) =>
                   match handler' vr w1 with
                   | (Ret _, w2) => (Ret [], w2)
                   | (Panic msg, w2) => (Panic msg, w2)
                   end
               | (Panic msg, w1) => (Panic msg, w1)
               end).
  { induction q as [|vr' q IH]; intros w0; cbn [app doCallback].
    - unfold bind, ret. destruct (handler' vr w0) as [[err|msg] w1]; reflexivity.
    - unfold bind. destruct (handler' vr' w0) as [[err|msg] w1]; [apply IH|reflexivity]. }
  apply Hpush.
Qed.

(** X18: reports of another round are dropped from the queue without a
    trace: the consumer returns with the queue empty and the world as it
    was. *)
Theorem doCallback_stale (q : list ValidateResults) (w : World) :
  (forall vr, vr ∈ q -> RoundID vr <> curRoundId (engine w)) ->
  doCallback' q w = (Ret [], w).
Proof.
  induction q as [|vr q IH]; intros Hstale; cbn [doCallback]; [reflexivity|].
  assert (Hdrop : handler' vr w = (Ret (Errorf "round id mismatch"), w)).
  { unfold handleValidateResult, bind, get.
    destruct (Z.eqb_spec (RoundID vr) (curRoundId (engine w))) as [Heq|_]; [|reflexivity].
    exfalso. apply (Hstale vr); [left|exact Heq]. }
  unfold bind. rewrite Hdrop. apply IH. intros vr' Hin. apply Hstale. right. exact Hin.
Qed.

Lemma handler_frame (vr : ValidateResults) :
  preserves (fun w => (curRoundId (engine w), Cache.cache_fault (cache w))) (handler' vr).
Proof.
  assert (Hb : preserves (fun w => (curRoundId (engine w), Cache.cache_fault (cache w)))
                         (handleBody randIntn CIDString2HashString vr)).
  { intros w. pose proof (handleBody_quiet randIntn CIDString2HashString vr w) as H.
    congruence. }
  unfold handleValidateResult, deferredRemove, deferredCount, setState.
  apply preserves_bind; [preserve|intros w0].
  destruct (negb _); [preserve|]. preserve.
Qed.

(** X19: reports of the current round close the round.  When the
    ephemeral store answers and the consumer returns, every device with a
    report in the queue has left the verifying set and no other device
    has; and when the queue is not empty and holds a report for every
    device of the verifying set, the set is empty and the validate state
    is [validationNotStarted]. *)
Theorem doCallback_closes_round (q : list ValidateResults) :
  forall (w w' : World) (rest : list ValidateResults),
    (forall vr, vr ∈ q -> RoundID vr = curRoundId (engine w)) ->
    (forall k, Cache.cache_fault (cache w) k = false) ->
    doCallback' q w = (Ret rest, w') ->
    Cache.verifying (cache w') = Cache.verifying (cache w) ∖ list_to_set (DeviceID <$> q)
    /\ (q <> [] -> Cache.verifying (cache w) ⊆ list_to_set (DeviceID <$> q) ->
        Cache.verifying (cache w') = ∅ /\ vState (engine w') = validationNotStarted).
Proof.
  induction q as [|vr q IH]; intros w w' rest Hcur Hnf Hrun; cbn [doCallback] in Hrun.
  - injection Hrun as _ <-. cbn [fmap list_fmap list_to_set].
    split; [rewrite difference_empty_L; reflexivity|]. intros Hne. contradiction.
  - unfold bind in Hrun.
    assert (Hr : RoundID vr = curRoundId (engine w)) by (apply Hcur; left).
    pose proof (handler_frame vr w) as Hframe.
    pose proof (handleValidateResult_current randIntn CIDString2HashString vr w Hr) as Hdef.
    pose proof (handleBody_quiet randIntn CIDString2HashString vr w) as Hq.
    destruct (deferred_cleanup vr (handleBody randIntn CIDString2HashString vr) w)
      as [Hv1 Hs1]; [congruence|congruence|exact Hnf|].
    rewrite <- Hdef in Hv1, Hs1. clear Hdef Hq.
    destruct (handler' vr w) as [[err|msg] w1]; [|discriminate].
    cbn [snd] in Hframe, Hv1, Hs1. injection Hframe as Hcur1 Hfault1.
    destruct (IH w1 w' rest) as [Hv Hclose]; [| |exact Hrun|].
    { intros vr' Hin. rewrite Hcur1. apply Hcur. right. exact Hin. }
    { intros k. rewrite Hfault1. apply Hnf. }
    cbn [fmap list_fmap list_to_set].
    assert (Hset : Cache.verifying (cache w')
                   = Cache.verifying (cache w)
                       ∖ ({[DeviceID vr]} ∪ list_to_set (DeviceID <$> q))).
    { rewrite Hv, Hv1. apply set_eq. intros x.
      rewrite !elem_of_difference, elem_of_union. tauto. }
    split; [exact Hset|]. intros _ Hsub.
    assert (Hempty : Cache.verifying (cache w') = ∅).
    { rewrite Hset. apply set_eq. intros x. rewrite elem_of_difference.
      split; [intros [Hin Hout]; exfalso; apply Hout, Hsub, Hin|].
      intros Hx. apply elem_of_empty in Hx. contradiction. }
    split; [exact Hempty|].
    destruct q as [|vr2 q2].
    + cbn [doCallback] in Hrun. injection Hrun as _ <-.
      rewrite Hs1. rewrite <- Hv1. rewrite Hempty.
      destruct (decide (size (∅ : gset string) = 0%nat)) as [_|Hne]; [reflexivity|].
      exfalso. apply Hne. apply size_empty.
    + apply Hclose; [discriminate|]. rewrite Hv1. intros x Hx.
      apply elem_of_difference in Hx as [Hin Hout].
      specialize (Hsub x Hin). apply elem_of_union in Hsub as [Hsub|Hsub];
        [contradiction|exact Hsub].
Qed.

End QueueFacts.

(* ===================================================================== *)
(** * The validator's goroutine and the switches of the API *)
(* ===================================================================== *)

Section GoroutineFacts.
Import SchedulerApi.

(** X20: the goroutine started for a validator does its bookkeeping before
    it looks the validator up.  When both stores answer, the targets it
    challenges join the verifying set and get their rows whether the
    validator has a session or not; the batch is sent only to a validator
    with a candidate session, and for a validator without one nothing is
    sent at all. *)
Theorem dispatch_offline_validator (vId : string) (list_ : list tmpDeviceMeta) (w : World) :
  no_faults w ->
  exists w',
    dispatch vId list_ w = (Ret tt, w')
    /\ Cache.verifying (cache w')
       = list_to_set (deviceId <$> List.filter (eligible w) list_) ∪ Cache.verifying (cache w)
    /\ Persistent.validate_result (sql w')
       = Persistent.validate_result (sql w)
         ++ (createdRow w vId <$> List.filter (eligible w) list_)
    /\ sent w'
       = match CandidateNodeMap w !! vId with
         | Some validator =>
             sent w ++ [(vId, requestFor w <$> List.filter (eligible w) list_)]
         | None => sent w
         end.
Proof.
  intros Hnf. unfold dispatch, assemblyValidateReqAndStore.
  destruct (assemblyLoop_batch vId list_ [] w Hnf) as (w1 & Hrun & Hst & Hv & Hr & _ & _).
  pose proof (assemblyLoop_fixed vId list_ [] w) as Hfix. rewrite Hrun in Hfix.
  cbn [snd] in Hfix.
  assert (Hreg : CandidateNodeMap w1 = CandidateNodeMap w) by (unfold fixed in Hfix; congruence).
  assert (Hsent : sent w1 = sent w) by (unfold statics in Hst; congruence).
  unfold bind at 1. rewrite Hrun. unfold bind, get. rewrite Hreg.
  destruct (CandidateNodeMap w !! vId).
  - eexists. split; [reflexivity|]. cbn [cache sql sent with_sent]. rewrite Hsent. auto.
  - eexists. split; [reflexivity|]. auto.
Qed.

(** X21: a manual start switches validation on again.  After
    [ValidateSwitch(false)], a [ValidateStart] that is refused (a round is
    running) leaves validation switched off; a [ValidateStart] that is not
    refused runs its round with validation on and leaves it on, so that
    [ValidateRunningState] answers [true], with the timer stopped until the
    sleeping goroutine restarts it. *)
Theorem ValidateStart_switches_on (w : World) :
  (vState (engine w) = validationStarting ->
   (ValidateSwitch false ;;; ValidateStart) w
   = (Ret inProgress, with_engine w (set_enable (engine w) false)))
  /\ (vState (engine w) <> validationStarting ->
      exists err w',
        (ValidateSwitch false ;;; ValidateStart) w = (Ret err, w')
        /\ err <> inProgress
        /\ ValidateRunningState w' = (Ret (true, nil_err), w')
        /\ crontabRunning (engine w') = false
        /\ sleepers w' = sleepers w ++ [interval (engine w) * Minute]).
Proof.
  unfold ValidateSwitch, ValidateRest.EnableValidate, ValidateStart, ValidateRunningState,
    ValidateRest.IsEnable.
  split; intros Hst.
  - unfold bind, modify, ret, StartValidateOnceTask, bind, get.
    cbn [engine with_engine vState set_enable].
    destruct (decide (vState (engine w) = validationStarting)); [reflexivity|contradiction].
  - unfold bind at 1, modify at 1, ret at 1. unfold bind at 1. cbv iota.
    unfold StartValidateOnceTask, bind at 1, get at 1. cbv iota.
    cbn [engine with_engine vState set_enable].
    destruct (decide (vState (engine w) = validationStarting)); [contradiction|].
    unfold bind at 1, modify at 1. unfold bind at 1, modify at 1.
    unfold bind at 1, modify at 1. cbv iota.
    set (w1 := with_engine _ _).
    destruct (startValidate_returns w1) as (err & w' & Hrun).
    pose proof (startValidate_fixed w1) as Hfix. rewrite Hrun in Hfix. cbn [snd] in Hfix.
    pose proof (startValidate_error w1 err w' Hrun) as Herr.
    unfold bind at 1. rewrite Hrun.
    assert (Hen1 : enable (engine w1) = true) by reflexivity.
    assert (Hcr1 : crontabRunning (engine w1) = false) by reflexivity.
    assert (Hsl1 : sleepers w1 = sleepers w ++ [interval (engine w) * Minute])
      by reflexivity.
    assert (Hen : enable (engine w') = true) by (unfold fixed in Hfix; congruence).
    assert (Hcr : crontabRunning (engine w') = false) by (unfold fixed in Hfix; congruence).
    assert (Hsl : sleepers w' = sleepers w ++ [interval (engine w) * Minute])
      by (unfold fixed in Hfix; congruence).
    exists err, w'. split; [destruct err; reflexivity|].
    split; [exact (round_error_not_inProgress err Herr)|].
    split; [unfold bind, get, ret; rewrite Hen; reflexivity|]. split; [exact Hcr|exact Hsl].
Qed.

End GoroutineFacts.

(* ===================================================================== *)
(** * The SQL store: node rows and block tables *)
(* ===================================================================== *)

Section FindFacts.
Context {A : Type}.

Lemma find_map_same (p : A -> bool) (f : A -> A) (l : list A) :
  (forall r, p (f r) = p r) -> List.find p (map f l) = option_map f (List.find p l).
Proof.
  intros Hp. induction l as [|r l IH]; cbn [map List.find]; [reflexivity|].
  rewrite Hp. destruct (p r); [reflexivity|exact IH].
Qed.

Lemma find_fixed (p : A -> bool) (f : A -> A) (l : list A) :
  (forall r, p r = true -> f r = r) -> option_map f (List.find p l) = List.find p l.
Proof.
  intros Hf. destruct (List.find p l) as [r|] eqn:Hfind; [|reflexivity].
  apply List.find_some in Hfind as [_ Hr]. cbn. rewrite (Hf r Hr). reflexivity.
Qed.

Lemma find_snoc (p : A -> bool) (l : list A) (x : A) :
  List.find p (l ++ [x])
  = match List.find p l with
    | Some r => Some r
    | None => if p x then Some x else None
    end.
Proof.
  induction l as [|r l IH]; cbn [app List.find]; [reflexivity|].
  destruct (p r); [reflexivity|exact IH].
Qed.

Lemma find_filter_keep (p q : A -> bool) (l : list A) :
  (forall r, p r = true -> q r = true) -> List.find p (List.filter q l) = List.find p l.
Proof.
  intros Hpq. induction l as [|r l IH]; cbn [List.filter List.find]; [reflexivity|].
  destruct (p r) eqn:Hp.
  - rewrite (Hpq r Hp). cbn [List.find]. rewrite Hp. reflexivity.
  - destruct (q r); [cbn [List.find]; rewrite Hp|]; exact IH.
Qed.

Lemma find_filter_drop (p : A -> bool) (l : list A) :
  List.find p (List.filter (fun r => negb (p r)) l) = None.
Proof.
  induction l as [|r l IH]; cbn [List.filter List.find]; [reflexivity|].
  destruct (p r) eqn:Hp; cbn [negb]; [exact IH|]. cbn [List.find]. rewrite Hp. exact IH.
Qed.

Lemma filter_filter_keep (p q : A -> bool) (l : list A) :
  (forall r, p r = true -> q r = true) ->
  List.filter p (List.filter q l) = List.filter p l.
Proof.
  intros Hpq. induction l as [|r l IH]; cbn [List.filter]; [reflexivity|].
  destruct (p r) eqn:Hp.
  - rewrite (Hpq r Hp). cbn [List.filter]. rewrite Hp, IH. reflexivity.
  - destruct (q r); [cbn [List.filter]; rewrite Hp|]; exact IH.
Qed.

Lemma find_all_false (p : A -> bool) (l : list A) :
  (forall r, In r l -> p r = false) -> List.find p l = None.
Proof.
  induction l as [|r l IH]; intros H; cbn [List.find]; [reflexivity|].
  rewrite (H r) by (left; reflexivity). apply IH. intros r' Hin. apply H. right. exact Hin.
Qed.

Lemma find_rev_none (p : A -> bool) (l : list A) :
  List.find p (rev l) = None <-> List.find p l = None.
Proof.
  split; intros H.
  - destruct (List.find p l) as [r|] eqn:Hf; [|reflexivity].
    apply List.find_some in Hf as [Hin Hp]. apply List.in_rev in Hin.
    rewrite (List.find_none _ _ H r Hin) in Hp. discriminate.
  - destruct (List.find p (rev l)) as [r|] eqn:Hf; [|reflexivity].
    apply List.find_some in Hf as [Hin Hp]. apply List.in_rev in Hin.
    rewrite (List.find_none _ _ H r Hin) in Hp. discriminate.
Qed.

Lemma find_filter_in (p q : A -> bool) (l : list A) :
  (forall r, In r l -> p r = true -> q r = true) ->
  List.find p (List.filter q l) = List.find p l.
Proof.
  induction l as [|r l IH]; intros Hpq; cbn [List.filter List.find]; [reflexivity|].
  assert (Hrest : forall r0, In r0 l -> p r0 = true -> q r0 = true)
    by (intros r0 Hin; apply Hpq; right; exact Hin).
  destruct (p r) eqn:Hp.
  - rewrite (Hpq r (or_introl eq_refl) Hp). cbn [List.find]. rewrite Hp. reflexivity.
  - destruct (q r); [cbn [List.find]; rewrite Hp|]; exact (IH Hrest).
Qed.

End FindFacts.

Section NodeStoreFacts.
Import NodeStore.

(** X22: [SetNodeInfo] is an upsert keyed by the device id.  When the
    server answers, the device's row read back by [GetNodeInfo] carries
    the [last_time], [geo], [is_online] and [address] written and the
    name of this scheduler; for a device that had a row, [node_type] and
    [create_time] keep the values of that row and no row is added; for a
    new device they are those written and the current time, and one row
    is added.  What [GetNodeInfo] answers for any other device is
    unchanged, and so are the other tables. *)
Theorem SetNodeInfo_upsert (serverName now_ deviceID : string) (info : Persistent.NodeInfo)
    (db : Persistent.sqlDB) :
  (forall k, Persistent.sql_fault db k = false) ->
  exists db' row,
    SetNodeInfo serverName now_ deviceID info db = (Ret nil_err, db')
    /\ fst (GetNodeInfo deviceID db') = (Some row, nil_err)
    /\ Persistent.DeviceID row = deviceID
    /\ Persistent.LastTime row = Persistent.LastTime info
    /\ Persistent.Geo row = Persistent.Geo info
    /\ Persistent.IsOnline row = Persistent.IsOnline info
    /\ Persistent.Address row = Persistent.Address info
    /\ Persistent.ServerName row = serverName
    /\ match fst (fst (GetNodeInfo deviceID db)) with
       | Some old =>
           Persistent.NodeType row = Persistent.NodeType old
           /\ Persistent.CreateTime row = Persistent.CreateTime old
           /\ length (Persistent.node db') = length (Persistent.node db)
       | None =>
           Persistent.NodeType row = Persistent.NodeType info
           /\ Persistent.CreateTime row = now_
           /\ length (Persistent.node db') = S (length (Persistent.node db))
       end
    /\ (forall other, other <> deviceID ->
          fst (GetNodeInfo other db') = fst (GetNodeInfo other db))
    /\ Persistent.validate_result db' = Persistent.validate_result db
    /\ Persistent.device_blocks db' = Persistent.device_blocks db.
Proof.
  intros Hnf.
  set (info' := stamp serverName now_ deviceID info).
  set (is_dev := fun d (r : Persistent.NodeInfo) => String.eqb (Persistent.DeviceID r) d).
  assert (Hget : forall d tables calls,
             fst (GetNodeInfo d (Persistent.mkSqlDB tables (Persistent.validate_result db)
                                   (Persistent.device_blocks db) (Persistent.sql_fault db)
                                   calls))
             = match List.find (is_dev d) tables with
               | Some row => (Some row, nil_err)
               | None => (None, Errorf errNodeNotFind)
               end).
  { intros d tables calls. unfold GetNodeInfo, Persistent.faulty.
    cbn [Persistent.sql_fault Persistent.sql_calls Persistent.node]. rewrite Hnf.
    fold (is_dev d). destruct (List.find (is_dev d) tables); reflexivity. }
  assert (Hdb : db = Persistent.mkSqlDB (Persistent.node db) (Persistent.validate_result db)
                       (Persistent.device_blocks db) (Persistent.sql_fault db)
                       (Persistent.sql_calls db)) by (destruct db; reflexivity).
  assert (Hget0 : forall d, fst (GetNodeInfo d db)
                            = match List.find (is_dev d) (Persistent.node db) with
                              | Some row => (Some row, nil_err)
                              | None => (None, Errorf errNodeNotFind)
                              end).
  { intros d. rewrite Hdb at 1. apply Hget. }
  assert (Hkey : forall d r, is_dev d (update_node info' r) = is_dev d r).
  { intros d r. unfold is_dev, update_node.
    destruct (String.eqb (Persistent.DeviceID r) (Persistent.DeviceID info')); reflexivity. }
  rewrite (Hget0 deviceID).
  destruct (List.find (is_dev deviceID) (Persistent.node db)) as [old|] eqn:Hfind.
  - pose proof (List.find_some _ _ Hfind) as [_ Hold]. unfold is_dev in Hold.
    apply String.eqb_eq in Hold.
    exists (Persistent.mkSqlDB (map (update_node info') (Persistent.node db))
              (Persistent.validate_result db) (Persistent.device_blocks db)
              (Persistent.sql_fault db) (S (S (Persistent.sql_calls db)))),
           (update_node info' old).
    split.
    { unfold SetNodeInfo, GetNodeInfo, Persistent.faulty. rewrite Hnf.
      fold info'. fold (is_dev deviceID). rewrite Hfind. cbn [is_nil negb].
      unfold update_nodes, Persistent.faulty.
      cbn [Persistent.tick Persistent.set_tables Persistent.sql_fault Persistent.sql_calls].
      rewrite Hnf. reflexivity. }
    split.
    { rewrite Hget, (find_map_same (is_dev deviceID) _ _ (Hkey deviceID)), Hfind.
      reflexivity. }
    unfold update_node. cbn [info' stamp Persistent.DeviceID]. rewrite Hold, String.eqb_refl.
    cbn. rewrite length_map.
    repeat match goal with |- _ /\ _ => split end; try reflexivity.
    intros other Hne. rewrite Hget, Hget0.
    rewrite (find_map_same (is_dev other) _ _ (Hkey other)), find_fixed; [reflexivity|].
    intros r Hr. unfold is_dev in Hr. apply String.eqb_eq in Hr.
    unfold update_node. cbn [info' stamp Persistent.DeviceID].
    destruct (String.eqb_spec (Persistent.DeviceID r) deviceID) as [Heq|_];
      [congruence|reflexivity].
  - exists (Persistent.mkSqlDB (Persistent.node db ++ [info'])
              (Persistent.validate_result db) (Persistent.device_blocks db)
              (Persistent.sql_fault db) (S (S (Persistent.sql_calls db)))),
           info'.
    split.
    { unfold SetNodeInfo, GetNodeInfo, Persistent.faulty. rewrite Hnf.
      fold info'. fold (is_dev deviceID). rewrite Hfind.
      cbn [is_nil negb IsNilErr Error]. rewrite String.eqb_refl.
      unfold insert_node, Persistent.faulty.
      cbn [Persistent.tick Persistent.set_tables Persistent.sql_fault Persistent.sql_calls].
      rewrite Hnf. reflexivity. }
    split.
    { rewrite Hget, find_snoc, Hfind. unfold is_dev.
      cbn [info' stamp Persistent.DeviceID]. rewrite String.eqb_refl. reflexivity. }
    cbn. rewrite length_app, Nat.add_1_r.
    repeat match goal with |- _ /\ _ => split end; try reflexivity.
    intros other Hne. rewrite Hget, Hget0, find_snoc.
    destruct (List.find (is_dev other) (Persistent.node db)); [reflexivity|].
    unfold is_dev. cbn [info' stamp Persistent.DeviceID].
    destruct (String.eqb_spec deviceID other) as [Heq|_]; [congruence|reflexivity].
Qed.

End NodeStoreFacts.

Section BlockStoreFacts.
Import BlockStore.

Lemma blockDB_eta (db : blockDB) :
  db = mkBlockDB (device_blocks db) (block_info db) (fault db) (calls db).
Proof. destruct db; reflexivity. Qed.

(** The answers of the queries on a connection that does not fail. *)
Lemma GetBlockFidWithCid_answer (d c : string) (db : blockDB) :
  faulty db = false ->
  fst (GetBlockFidWithCid d c db)
  = match List.find (is_block d c) (device_blocks db) with
    | Some row => (nb_FID row, nil_err)
    | None => (EmptyString, Errorf errNodeNotFind)
    end.
Proof.
  intros Hnf. unfold GetBlockFidWithCid. rewrite Hnf.
  destruct (List.find (is_block d c) (device_blocks db)); reflexivity.
Qed.

Lemma GetBlockCidWithFid_answer (d f : string) (db : blockDB) :
  faulty db = false ->
  fst (GetBlockCidWithFid d f db)
  = match List.find (is_fid d f) (device_blocks db) with
    | Some row => (nb_CID row, nil_err)
    | None => (EmptyString, Errorf errNodeNotFind)
    end.
Proof.
  intros Hnf. unfold GetBlockCidWithFid. rewrite Hnf.
  destruct (List.find (is_fid d f) (device_blocks db)); reflexivity.
Qed.

Lemma is_block_other (deviceID cid d c : string) (r : NodeBlocks) :
  d <> deviceID \/ c <> cid -> is_block d c r = true -> negb (is_block deviceID cid r) = true.
Proof.
  unfold is_block. intros Hne Hr. apply andb_true_iff in Hr as [Hc Hd].
  apply String.eqb_eq in Hc, Hd. rewrite Hc, Hd.
  destruct (String.eqb_spec c cid) as [->|_]; [|reflexivity].
  destruct (String.eqb_spec d deviceID) as [->|_]; [|reflexivity].
  destruct Hne; contradiction.
Qed.

(** X23: [DeleteBlockInfo], when the server answers, removes the pair: the
    transaction commits, [GetBlockFidWithCid] no longer finds the cid on
    the device, the device is no longer among the holders of the cid that
    [GetNodesWithCacheList] lists, and the answers for every other pair,
    the block counts of the other devices and the block-info table are
    as they were. *)
Theorem DeleteBlockInfo_deletes (deviceID cid : string) (db : blockDB) :
  (forall k, fault db k = false) ->
  exists db',
    DeleteBlockInfo deviceID cid db = (Ret nil_err, db')
    /\ fst (GetBlockFidWithCid deviceID cid db') = (EmptyString, Errorf errNodeNotFind)
    /\ (forall d c, d <> deviceID \/ c <> cid ->
          fst (GetBlockFidWithCid d c db') = fst (GetBlockFidWithCid d c db))
    /\ (forall holders, fst (GetNodesWithCacheList cid db) = (Some holders, nil_err) ->
          fst (GetNodesWithCacheList cid db')
          = (Some (List.filter (fun d => negb (String.eqb d deviceID)) holders), nil_err))
    /\ (forall d, d <> deviceID ->
          fst (GetDeviceBlockNum d db') = fst (GetDeviceBlockNum d db))
    /\ block_info db' = block_info db.
Proof.
  intros Hnf.
  exists (mkBlockDB (List.filter (fun r => negb (is_block deviceID cid r)) (device_blocks db))
            (block_info db) (fault db) (S (S (S (calls db))))).
  split.
  { unfold DeleteBlockInfo, faulty, tick, set_tables. cbn [fault calls device_blocks block_info].
    rewrite !Hnf. reflexivity. }
  split.
  { rewrite GetBlockFidWithCid_answer by apply Hnf. cbn [device_blocks].
    rewrite find_filter_drop. reflexivity. }
  split.
  { intros d c Hne. rewrite !GetBlockFidWithCid_answer by apply Hnf. cbn [device_blocks].
    rewrite find_filter_keep; [reflexivity|]. intros r. apply is_block_other, Hne. }
  split.
  { intros holders. unfold GetNodesWithCacheList, faulty. cbn [fault calls device_blocks].
    rewrite !Hnf. cbn [fst]. intros Hold. injection Hold as <-. f_equal. f_equal.
    induction (device_blocks db) as [|r rows IH]; [reflexivity|].
    cbn [List.filter]. unfold is_block at 1.
    destruct (String.eqb_spec (nb_CID r) cid) as [Hc|Hc]; cbn [andb negb].
    - destruct (String.eqb (nb_DeviceID r) deviceID) eqn:Hd; cbn [negb map List.filter].
      + rewrite Hd. cbn [negb]. exact IH.
      + apply String.eqb_eq in Hc. rewrite Hc, Hd. cbn [negb map]. rewrite IH. reflexivity.
    - cbn [List.filter]. apply String.eqb_neq in Hc. rewrite Hc. exact IH. }
  split; [|reflexivity].
  intros d Hne. unfold GetDeviceBlockNum, faulty. cbn [fault calls device_blocks].
  rewrite !Hnf. cbn [fst]. rewrite filter_filter_keep; [reflexivity|].
  intros r Hr. unfold of_device in Hr. apply String.eqb_eq in Hr. unfold is_block.
  destruct (String.eqb_spec (nb_DeviceID r) deviceID) as [Hd|_]; [congruence|].
  rewrite andb_false_r. reflexivity.
Qed.

(** X24: the first row wins.  [SetBlockInfo] with a fid appends a row to
    the block table of the device, so the device counts one block more;
    but [GetBlockFidWithCid] and [GetBlockCidWithFid] read the first row
    of their key: the pair answers its new fid, and the fid its new cid,
    only if the key had no row before, and the earlier answer is kept
    otherwise. *)
Theorem SetBlockInfo_first_row_wins (newID : list BlockInfo -> Z) (info : BlockInfo)
    (carfileCid fid : string) (isUpdate : bool) (db : blockDB) :
  (forall k, fault db k = false) ->
  fid <> EmptyString ->
  exists db',
    SetBlockInfo newID info carfileCid fid isUpdate db = (Ret nil_err, db')
    /\ fst (GetBlockFidWithCid (bi_DeviceID info) (bi_CID info) db')
       = (if is_nil (snd (fst (GetBlockFidWithCid (bi_DeviceID info) (bi_CID info) db)))
          then fst (GetBlockFidWithCid (bi_DeviceID info) (bi_CID info) db)
          else (fid, nil_err))
    /\ fst (GetBlockCidWithFid (bi_DeviceID info) fid db')
       = (if is_nil (snd (fst (GetBlockCidWithFid (bi_DeviceID info) fid db)))
          then fst (GetBlockCidWithFid (bi_DeviceID info) fid db)
          else (bi_CID info, nil_err))
    /\ fst (fst (GetDeviceBlockNum (bi_DeviceID info) db'))
       = fst (fst (GetDeviceBlockNum (bi_DeviceID info) db)) + 1.
Proof.
  intros Hnf Hfid.
  exists (mkBlockDB (device_blocks db
                     ++ [mkNodeBlocks (bi_CID info) fid (bi_CacheID info) carfileCid
                                      (bi_DeviceID info)])
            (if isUpdate then map (update_block info) (block_info db)
             else insert_block newID info (block_info db))
            (fault db) (S (S (S (S (calls db)))))).
  split.
  { unfold SetBlockInfo, faulty, tick, set_tables. cbn [fault calls device_blocks block_info].
    rewrite !Hnf. destruct (String.eqb_spec fid EmptyString) as [|_]; [contradiction|].
    reflexivity. }
  rewrite !GetBlockFidWithCid_answer, !GetBlockCidWithFid_answer by apply Hnf.
  cbn [device_blocks]. rewrite !find_snoc.
  split; [|split].
  - destruct (List.find _ (device_blocks db)); [reflexivity|].
    unfold is_block. cbn [nb_CID nb_DeviceID nb_FID]. rewrite !String.eqb_refl. reflexivity.
  - destruct (List.find _ (device_blocks db)); [reflexivity|].
    unfold is_fid. cbn [nb_CID nb_DeviceID nb_FID]. rewrite !String.eqb_refl. reflexivity.
  - unfold GetDeviceBlockNum, faulty. cbn [fault calls device_blocks]. rewrite !Hnf.
    cbn [fst]. rewrite List.filter_app, length_app. cbn [List.filter].
    unfold of_device at 2. cbn [nb_DeviceID]. rewrite String.eqb_refl. cbn [length]. lia.
Qed.

Section ScanFacts.
Variable scanBlock : NodeBlocks -> bool.
Variable scanInfo : BlockInfo -> bool.

Lemma fid_map_snoc (d : string) (rows : list NodeBlocks) (r : NodeBlocks) :
  fid_map scanBlock d (rows ++ [r])
  = if of_device d r
    then (if scanBlock r then <[nb_FID r := nb_CID r]> (fid_map scanBlock d rows)
          else fid_map scanBlock d rows)
    else fid_map scanBlock d rows.
Proof. unfold fid_map. rewrite foldl_app. reflexivity. Qed.

(** The map holds, for a fid, the cid of the last row of the device that
    scans. *)
Lemma fid_map_last (d : string) (rows : list NodeBlocks) (fid : string) :
  fid_map scanBlock d rows !! fid
  = nb_CID <$> List.find (is_fid d fid) (rev (List.filter scanBlock rows)).
Proof.
  induction rows as [|r rows IH] using rev_ind; [reflexivity|].
  rewrite fid_map_snoc, List.filter_app, rev_app_distr. cbn [List.filter].
  destruct (scanBlock r).
  - cbn [rev app List.find]. unfold is_fid at 1, of_device.
    destruct (String.eqb (nb_DeviceID r) d); [|rewrite andb_false_r; exact IH].
    rewrite andb_true_r. destruct (String.eqb_spec (nb_FID r) fid) as [->|Hne].
    + rewrite lookup_insert_eq. reflexivity.
    + rewrite lookup_insert_ne by exact Hne. exact IH.
  - cbn [rev app]. destruct (of_device d r); exact IH.
Qed.

(** When the rows of the device scan, the last row that scans is the last
    row. *)
Lemma find_last_scanned (d fid : string) (rows : list NodeBlocks) :
  (forall r, r ∈ rows -> of_device d r = true -> scanBlock r = true) ->
  List.find (is_fid d fid) (rev (List.filter scanBlock rows))
  = List.find (is_fid d fid) (rev rows).
Proof.
  intros Hall. rewrite <- List.filter_rev. apply find_filter_in.
  intros r Hin Hr. apply List.in_rev in Hin. apply Hall; [apply list_elem_of_In; exact Hin|].
  unfold is_fid in Hr. apply andb_true_iff in Hr as [_ Hd]. exact Hd.
Qed.

(** X25: the map of [GetBlocksFID] against the single lookups.  For a
    connection that answers, the map holds for a fid the cid of the last
    row of the device that scans (a row on which [StructScan] fails is
    skipped without an error), and it is empty when [GetDeviceBlockNum]
    counts no block.  When every row of the device scans, the map holds a
    fid exactly when [GetBlockCidWithFid] finds it, and it is empty
    exactly when [GetDeviceBlockNum] counts no block; the lookup answers
    the cid of the first row where the map keeps the cid of the last, so
    the two agree on a fid whose rows all carry the same cid. *)
Theorem GetBlocksFID_against_lookups (deviceID : string) (db : blockDB) :
  faulty db = false ->
  exists m,
    fst (GetBlocksFID scanBlock deviceID db) = (Some m, nil_err)
    /\ (forall fid, m !! fid
                    = nb_CID <$> List.find (is_fid deviceID fid)
                                           (rev (List.filter scanBlock (device_blocks db))))
    /\ (fst (GetDeviceBlockNum deviceID db) = (0, nil_err) -> m = ∅)
    /\ ((forall r, r ∈ device_blocks db -> of_device deviceID r = true ->
                   scanBlock r = true) ->
        (forall fid, m !! fid = None
                     <-> fst (GetBlockCidWithFid deviceID fid db)
                         = (EmptyString, Errorf errNodeNotFind))
        /\ (forall fid,
              (forall r r', r ∈ device_blocks db -> r' ∈ device_blocks db ->
                            is_fid deviceID fid r = true -> is_fid deviceID fid r' = true ->
                            nb_CID r = nb_CID r') ->
              forall cid, m !! fid = Some cid
                          <-> fst (GetBlockCidWithFid deviceID fid db) = (cid, nil_err))
        /\ (m = ∅ <-> fst (GetDeviceBlockNum deviceID db) = (0, nil_err))).
Proof.
  intros Hnf. exists (fid_map scanBlock deviceID (device_blocks db)).
  split; [unfold GetBlocksFID; rewrite Hnf; reflexivity|].
  split; [intros fid; apply fid_map_last|].
  assert (Hzero : fst (GetDeviceBlockNum deviceID db) = (0, nil_err) ->
                  fid_map scanBlock deviceID (device_blocks db) = ∅).
  { unfold GetDeviceBlockNum. rewrite Hnf. cbn [fst]. intros Hcount.
    injection Hcount as Hcount. apply map_eq. intros fid.
    rewrite lookup_empty, fid_map_last, fmap_None.
    apply find_all_false. intros r Hin. apply List.in_rev, List.filter_In in Hin as [Hin _].
    destruct (is_fid deviceID fid r) eqn:Hr; [|reflexivity]. exfalso.
    unfold is_fid in Hr. apply andb_true_iff in Hr as [_ Hd].
    assert (Hin' : In r (List.filter (of_device deviceID) (device_blocks db)))
      by (apply List.filter_In; split; [exact Hin|exact Hd]).
    destruct (List.filter (of_device deviceID) (device_blocks db));
      [inversion Hin'|simpl in Hcount; lia]. }
  split; [exact Hzero|]. intros Hall.
  assert (Hlast : forall fid,
             fid_map scanBlock deviceID (device_blocks db) !! fid
             = nb_CID <$> List.find (is_fid deviceID fid) (rev (device_blocks db))).
  { intros fid. rewrite fid_map_last, (find_last_scanned deviceID fid _ Hall). reflexivity. }
  split; [|split].
  - intros fid. rewrite Hlast, GetBlockCidWithFid_answer by exact Hnf.
    rewrite fmap_None, find_rev_none.
    destruct (List.find (is_fid deviceID fid) (device_blocks db)); split;
      (reflexivity || discriminate).
  - intros fid Hsame cid. rewrite Hlast, GetBlockCidWithFid_answer by exact Hnf.
    destruct (List.find (is_fid deviceID fid) (device_blocks db)) as [r|] eqn:Hfirst.
    + destruct (List.find (is_fid deviceID fid) (rev (device_blocks db))) as [r'|] eqn:Hlast'.
      * apply List.find_some in Hfirst as [Hin Hr].
        apply List.find_some in Hlast' as [Hin' Hr'].
        apply List.in_rev in Hin'. apply list_elem_of_In in Hin, Hin'.
        rewrite (Hsame r r' Hin Hin' Hr Hr'). cbn.
        split; intros H; injection H as <-; reflexivity.
      * apply (proj1 (find_rev_none _ _)) in Hlast'. rewrite Hlast' in Hfirst. discriminate.
    + apply (proj2 (find_rev_none _ _)) in Hfirst. rewrite Hfirst. cbn. split; discriminate.
  - split; [|exact Hzero].
    unfold GetDeviceBlockNum. rewrite Hnf. cbn [fst].
    intros Hempty. f_equal. f_equal.
    destruct (List.filter (of_device deviceID) (device_blocks db)) as [|r rest] eqn:Hfil;
      [reflexivity|].
    exfalso.
    assert (Hin : In r (List.filter (of_device deviceID) (device_blocks db)))
      by (rewrite Hfil; left; reflexivity).
    apply List.filter_In in Hin as [Hin Hdev].
    assert (Hlook : fid_map scanBlock deviceID (device_blocks db) !! nb_FID r = None)
      by (rewrite Hempty; apply lookup_empty).
    rewrite Hlast, fmap_None, find_rev_none in Hlook.
    pose proof (List.find_none _ _ Hlook r Hin) as Hno. unfold is_fid in Hno.
    unfold of_device in Hdev. rewrite Hdev, String.eqb_refl in Hno. discriminate.
Qed.



End ScanFacts.

End BlockStoreFacts.

(* ===================================================================== *)
(** * The scheduler API: validators on line, node tokens *)
(* ===================================================================== *)

Section OnlineFacts.
Import SchedulerApi.
Variable GetOnlineNodes : NodeType -> World -> option (list string) * error.

Lemma onlineValidators_filter (candidates : gmap string Node) (list_ : list string) :
  onlineValidators candidates list_
  = List.filter (fun id => bool_decide (is_Some (candidates !! id))) list_.
Proof.
  induction list_ as [|id rest IH]; cbn [onlineValidators List.filter]; [reflexivity|].
  destruct (candidates !! id) as [n|] eqn:Hn.
  - rewrite bool_decide_eq_true_2 by (eexists; reflexivity). rewrite IH. reflexivity.
  - rewrite bool_decide_eq_false_2 by (intros [x Hx]; discriminate). exact IH.
Qed.

(** X27: [GetOnlineDeviceIDs] for validators lists the elected validators
    that have a candidate session, in the order of the election and as
    often as the election lists them; a validator without a session - the
    one [execute] would prepare a batch for and send nothing to - is left
    out.  When the ephemeral store fails, its error is returned and no
    list.  The only trace of the call is the one command sent to the
    ephemeral store. *)
Theorem GetOnlineDeviceIDs_validators (w : World) :
  GetOnlineDeviceIDs GetOnlineNodes NodeValidate w
  = (Ret (if Cache.faulty (cache w) then (None, Cache.the_fault (cache w))
          else (Some (List.filter
                        (fun id => bool_decide (is_Some (CandidateNodeMap w !! id)))
                        (Cache.validators (cache w))),
                nil_err)),
     with_cache w (Cache.tick (cache w)))
  /\ (forall out id,
        fst (GetOnlineDeviceIDs GetOnlineNodes NodeValidate w) = Ret (Some out, nil_err) ->
        (id ∈ out <-> id ∈ Cache.validators (cache w) /\ is_Some (CandidateNodeMap w !! id))
        /\ (forall list_, CandidateNodeMap w !! id = None ->
              sent (snd (dispatch id list_ w)) = sent w)).
Proof.
  assert (Hrun : GetOnlineDeviceIDs GetOnlineNodes NodeValidate w
                 = (Ret (if Cache.faulty (cache w) then (None, Cache.the_fault (cache w))
                         else (Some (List.filter
                                       (fun id => bool_decide
                                                    (is_Some (CandidateNodeMap w !! id)))
                                       (Cache.validators (cache w))),
                               nil_err)),
                    with_cache w (Cache.tick (cache w)))).
  { unfold GetOnlineDeviceIDs.
    destruct (decide (NodeValidate = NodeValidate)) as [_|Hne]; [|contradiction].
    unfold bind, onCache, Cache.GetValidatorsWithList, get, ret.
    destruct (Cache.faulty (cache w)); cbn [is_nil negb Cache.the_fault]; [reflexivity|].
    cbn [CandidateNodeMap with_cache]. rewrite onlineValidators_filter. reflexivity. }
  split; [exact Hrun|]. intros out id Hout. rewrite Hrun in Hout. cbn [fst] in Hout.
  destruct (Cache.faulty (cache w)); [discriminate|]. injection Hout as <-. split.
  - rewrite list_elem_of_In, List.filter_In, bool_decide_eq_true, <- list_elem_of_In.
    reflexivity.
  - intros list_ Hoff. unfold dispatch, assemblyValidateReqAndStore, bind.
    assert (Hsent : preserves sent (assemblyLoop id list_ [])).
    { generalize (@nil ReqValidate). induction list_ as [|d rest IH]; intros req;
        cbn [assemblyLoop]; [preserve|].
      apply preserves_bind; [unfold assemblyDevice; preserve|intros req'; apply IH]. }
    specialize (Hsent w).
    pose proof (assemblyLoop_fixed id list_ [] w) as Hfix.
    destruct (assemblyLoop id list_ [] w) as [[req|msg] w1]; cbn [snd] in *; [|exact Hsent].
    unfold get. assert (Hreg : CandidateNodeMap w1 = CandidateNodeMap w)
      by (unfold fixed in Hfix; congruence).
    rewrite Hreg, Hoff. exact Hsent.
Qed.

End OnlineFacts.

Section TokenFacts.
Import SchedulerApi.
Variable Token : Type.
Variable Permission : Type.
Variable Sign : list Permission -> string -> option Token * error.
Variable Verify : Token -> string -> list Permission * error.
Variable GetNodeSecret : string -> string * error.
Variable APISecret : string.

(** X28: the tokens of a node.  [AuthNodeNew] issues a token only for the
    secret registered for the device: with any other secret it answers
    "device ... secret not match", and with no registered secret the
    wrapped error of the lookup, and signs nothing.  And a token issued
    for a device is accepted for that device: when the JWT library
    verifies what it has signed with the same key, [AuthNodeVerify] on the
    token answers the permissions the token was issued for. *)
Theorem AuthNode_round_trip (perms : list Permission) (deviceID deviceSecret : string)
    (t : Token) :
  (forall p key tok, Sign p key = (Some tok, nil_err) -> Verify tok key = (p, nil_err)) ->
  deviceID <> EmptyString ->
  AuthNodeNew Token Permission Sign GetNodeSecret perms deviceID deviceSecret
  = (Some t, nil_err) ->
  GetNodeSecret deviceID = (deviceSecret, nil_err)
  /\ AuthNodeVerify Token Permission Verify GetNodeSecret APISecret deviceID t
     = (Some perms, nil_err)
  /\ (forall other, other <> deviceSecret ->
        AuthNodeNew Token Permission Sign GetNodeSecret perms deviceID other
        = (None, Errorf ("device " +:+ deviceID +:+ " secret not match"))).
Proof.
  intros Hjwt Hid Hnew. unfold AuthNodeNew in Hnew.
  destruct (GetNodeSecret deviceID) as [secret err] eqn:Hsecret.
  destruct err; cbn [is_nil negb] in Hnew; try discriminate.
  destruct (String.eqb_spec secret deviceSecret) as [->|Hne]; cbn [negb] in Hnew;
    [|discriminate].
  split; [reflexivity|]. split.
  - unfold AuthNodeVerify. rewrite Hsecret.
    destruct (String.eqb_spec deviceID EmptyString) as [|_]; [contradiction|].
    cbn [is_nil negb]. rewrite (Hjwt perms deviceSecret t Hnew). reflexivity.
  - intros other Hother. unfold AuthNodeNew. rewrite Hsecret. cbn [is_nil negb].
    destruct (String.eqb_spec deviceSecret other) as [Heq|_]; [congruence|].
    cbn [negb]. reflexivity.
Qed.

End TokenFacts.

(* ===================================================================== *)
(** * The properties at concrete worlds *)
(* ===================================================================== *)

Section ConcreteProperties.
Import Examples MoreExamples.



Lemma reaches_measured :
  reachesScoring report_measured world_fid1
    (Persistent.blocks_of "d" (Persistent.device_blocks sql_fid1)) 1.
Proof. unfold reachesScoring. repeat split; vm_compute; (reflexivity || lia). Qed.

(** X4 at a report whose two cids match the block drawn twice. *)
Lemma handleValidateResult_success_witness :
  exists err w',
    handleValidateResult rnd hash report_measured world_fid1 = (Ret err, w')
    /\ err = nil_err
    /\ (err <> nil_err ->
        Persistent.validate_result (sql w') = Persistent.validate_result (sql world_fid1))
    /\ (err = nil_err ->
        recorded (Persistent.validate_result (sql world_fid1))
                 (Persistent.validate_result (sql w'))
                 1 "d" Persistent.ValidateStatusSuccess "ok"
        /\ forall (i : nat) row,
             Persistent.validate_result (sql world_fid1) !! i = Some row ->
             Persistent.row_is 1 "d" row = true ->
             exists row', Persistent.validate_result (sql w') !! i = Some row'
               /\ Persistent.vr_BlockNumber row' = 2
               /\ Persistent.vr_Bandwidth row' = 8
               /\ Persistent.vr_Duration row' = 3
               /\ Persistent.vr_EndTime row' = 100
               /\ Persistent.vr_StartTime row' = Persistent.vr_StartTime row
               /\ Persistent.vr_ValidatorID row' = Persistent.vr_ValidatorID row).
Proof.
  apply (handleValidateResult_success rnd hash report_measured world_fid1
           (Persistent.blocks_of "d" (Persistent.device_blocks sql_fid1)) 1).
  - exact reaches_measured.
  - vm_compute. discriminate.
  - intros [|[|index]] H; [reflexivity|reflexivity|].
    change (RandomCount report_measured) with 2 in H. lia.
Defined.

Lemma reaches_wrong :
  reachesScoring (report ["X"; "A"]) world_fid1
    (Persistent.blocks_of "d" (Persistent.device_blocks sql_fid1)) 1.
Proof. unfold reachesScoring. repeat split; vm_compute; (reflexivity || lia). Qed.

(** X3 at a report whose first cid is wrong. *)
Lemma handleValidateResult_first_mismatch_witness :
  exists err w',
    handleValidateResult rnd hash (report ["X"; "A"]) world_fid1 = (Ret err, w')
    /\ err = nil_err
    /\ (err = nil_err ->
        recorded (Persistent.validate_result (sql world_fid1))
                 (Persistent.validate_result (sql w'))
                 1 "d" Persistent.ValidateStatusFail
                 "validate fail; resultCid:X,cid_db:A,fid:1,index:0")
    /\ (err <> nil_err ->
        Persistent.validate_result (sql w') = Persistent.validate_result (sql world_fid1)).
Proof.
  apply (handleValidateResult_first_mismatch rnd hash (report ["X"; "A"]) world_fid1
           (Persistent.blocks_of "d" (Persistent.device_blocks sql_fid1)) 1 0 "X").
  - exact reaches_wrong.
  - vm_compute. reflexivity.
  - reflexivity.
  - vm_compute. reflexivity.
  - intros i Hi. lia.
Defined.

(** X5 at the only device of the verifying set. *)
Lemma handleValidateResult_cleanup_witness :
  Cache.verifying (cache (snd (handleValidateResult rnd hash report_measured world_fid1)))
  = Cache.verifying (cache world_fid1) ∖ {["d"]}
  /\ vState (engine (snd (handleValidateResult rnd hash report_measured world_fid1)))
     = (if decide (size (Cache.verifying (cache world_fid1) ∖ {["d"]}) = 0%nat)
        then validationNotStarted else vState (engine world_fid1)).
Proof.
  apply (handleValidateResult_cleanup rnd hash report_measured world_fid1);
    [reflexivity|intros k; reflexivity].
Defined.

(** X6 at a device without blocks. *)
Lemma handleValidateResult_no_blocks_witness :
  fst (handleValidateResult rnd hash report_measured world_no_blocks)
  = Panic "invalid memory address or nil pointer dereference"
  /\ Persistent.validate_result
       (sql (snd (handleValidateResult rnd hash report_measured world_no_blocks)))
     = Persistent.validate_result (sql world_no_blocks).
Proof.
  apply (handleValidateResult_no_blocks rnd hash report_measured world_no_blocks);
    vm_compute; (reflexivity || lia).
Defined.

(** X7 at an engine that holds no [max_fid]. *)
Lemma handleValidateResult_unknown_max_fid_witness :
  fst (handleValidateResult rnd hash report_measured world_no_max_fid)
  = Panic "interface conversion: interface {} is nil, not int64"
  /\ Persistent.validate_result
       (sql (snd (handleValidateResult rnd hash report_measured world_no_max_fid)))
     = Persistent.validate_result (sql world_no_max_fid).
Proof.
  apply (handleValidateResult_unknown_max_fid rnd hash report_measured world_no_max_fid);
    vm_compute; (reflexivity || lia).
Defined.

(** X9 at the stand-in generator and [max_fid] 3. *)
Lemma getRandNum_fid_range_witness :
  (0 < 3 ->
   1 <= fst (getRandNum rnd 3 (42, 0%nat)) + 1 <= 3
   /\ snd (getRandNum rnd 3 (42, 0%nat)) = (fst (42, 0%nat), S (snd (42, 0%nat))))
  /\ (3 <= 0 ->
      fst (getRandNum rnd 3 (42, 0%nat)) + 1 = 3 + 1
      /\ snd (getRandNum rnd 3 (42, 0%nat)) = (42, 0%nat)).
Proof.
  apply (getRandNum_fid_range rnd 3 (42, 0%nat)).
  intros sd n k Hn. unfold rnd. apply Z.mod_pos_bound. lia.
Defined.

(** X11 at the registry of two edges and two candidates, validation off. *)
Lemma startValidate_disabled_witness :
  exists err w',
    startValidate world_disabled = (Ret err, w')
    /\ sent w' = sent world_disabled
    /\ maxFidMap (engine w') = maxFidMap (engine world_disabled)
    /\ Cache.verifying (cache w') = Cache.verifying (cache world_disabled)
    /\ length (Persistent.validate_result (sql w'))
       = length (Persistent.validate_result (sql world_disabled))
    /\ randCalls w' = randCalls world_disabled
    /\ Persistent.device_blocks (sql w') = Persistent.device_blocks (sql world_disabled).
Proof. apply (startValidate_disabled world_disabled). reflexivity. Defined.

(** X13 at the plan of [world_round]. *)
Lemma validateMapping_partition_witness :
  (exists cs,
      targets plan_round ≡ₚ (edgeTarget <$> (map_to_list (EdgeNodeMap world_round)).*2) ++ cs
      /\ cs `sublist_of` (candidateTarget <$> (map_to_list (CandidateNodeMap world_round)).*2))
  /\ (forall v l, plan_round !! v = Some l -> v ∈ ["c1"; "c2"] /\ l <> [])
  /\ randCalls (snd (validateMapping ["c1"; "c2"] world_round))
     = (randCalls world_round + size (EdgeNodeMap world_round)
        + size (CandidateNodeMap world_round))%nat
  /\ still (snd (validateMapping ["c1"; "c2"] world_round)) = still world_round.
Proof.
  apply (validateMapping_partition ["c1"; "c2"] world_round
           (snd (validateMapping ["c1"; "c2"] world_round)) plan_round).
  vm_compute. reflexivity.
Defined.

(** X15 at the two edges of [world_round]. *)
Lemma assemblyValidateReqAndStore_batch_witness :
  exists w',
    assemblyValidateReqAndStore "c1" [target_e1; target_e2] world_round
    = (Ret (requestFor world_round
              <$> List.filter (eligible world_round) [target_e1; target_e2]), w')
    /\ Cache.verifying (cache w')
       = list_to_set (deviceId <$> List.filter (eligible world_round) [target_e1; target_e2])
         ∪ Cache.verifying (cache world_round)
    /\ Persistent.validate_result (sql w')
       = Persistent.validate_result (sql world_round)
         ++ (createdRow world_round "c1"
               <$> List.filter (eligible world_round) [target_e1; target_e2])
    /\ (forall d, d ∈ List.filter (eligible world_round) [target_e1; target_e2] ->
          maxFidMap (engine w') !! deviceId d
          = Cache.nodeCacheFid (cache world_round) !! deviceId d)
    /\ (forall id, id ∉ deviceId <$> List.filter (eligible world_round) [target_e1; target_e2] ->
          maxFidMap (engine w') !! id = maxFidMap (engine world_round) !! id)
    /\ sent w' = sent world_round.
Proof.
  apply (assemblyValidateReqAndStore_batch "c1" [target_e1; target_e2] world_round).
  exact world_round_no_faults.
Defined.

(** Edge ["e1"] holds blocks and edge ["e2"] none: one request. *)
Example batch_round_value :
  fst (assemblyValidateReqAndStore "c1" [target_e1; target_e2] world_round)
  = Ret [mkReqValidate 0 "10.0.0.1" 10 1 NodeEdge 3].
Proof. vm_compute. reflexivity. Qed.

(** X16 at an ephemeral store that refuses its second command. *)
Lemma assemblyValidateReqAndStore_unrecorded_witness :
  exists w',
    assemblyValidateReqAndStore "c1" [target_e1] world_refusing
    = (Ret [requestFor world_refusing target_e1], w')
    /\ Persistent.validate_result (sql w') = Persistent.validate_result (sql world_refusing)
    /\ maxFidMap (engine w') !! deviceId target_e1
       = Cache.nodeCacheFid (cache world_refusing) !! deviceId target_e1
    /\ Cache.verifying (cache w')
       = (if Cache.cache_fault (cache world_refusing)
               (S (Cache.cache_calls (cache world_refusing)))
          then Cache.verifying (cache world_refusing)
          else {[deviceId target_e1]} ∪ Cache.verifying (cache world_refusing)).
Proof.
  apply (assemblyValidateReqAndStore_unrecorded "c1" target_e1 world_refusing);
    [vm_compute; reflexivity|reflexivity|reflexivity|left; reflexivity].
Defined.

(** X18 at two reports of round 0 while round 1 is running. *)
Lemma doCallback_stale_witness :
  ValidateRest.doCallback rnd hash [report_stale; report_stale] world_fid1
  = (Ret [], world_fid1).
Proof.
  apply (doCallback_stale rnd hash [report_stale; report_stale] world_fid1).
  intros vr Hin. apply elem_of_cons in Hin as [->|Hin];
    [|apply elem_of_cons in Hin as [->|Hin]; [|apply elem_of_nil in Hin; contradiction]];
    vm_compute; discriminate.
Defined.

(** X19 at the report of the only device of the verifying set. *)
Lemma doCallback_closes_round_witness :
  Cache.verifying
    (cache (snd (ValidateRest.doCallback rnd hash [report_measured] world_fid1)))
  = Cache.verifying (cache world_fid1) ∖ list_to_set (DeviceID <$> [report_measured])
  /\ ([report_measured] <> [] ->
      Cache.verifying (cache world_fid1) ⊆ list_to_set (DeviceID <$> [report_measured]) ->
      Cache.verifying
        (cache (snd (ValidateRest.doCallback rnd hash [report_measured] world_fid1))) = ∅
      /\ vState (engine (snd (ValidateRest.doCallback rnd hash [report_measured] world_fid1)))
         = validationNotStarted).
Proof.
  apply (doCallback_closes_round rnd hash [report_measured] world_fid1
           (snd (ValidateRest.doCallback rnd hash [report_measured] world_fid1)) []).
  - intros vr Hin. apply list_elem_of_singleton in Hin. subst vr. reflexivity.
  - intros k. reflexivity.
  - vm_compute. reflexivity.
Defined.

(** X20 at a validator without a session. *)
Lemma dispatch_offline_validator_witness :
  exists w',
    dispatch "zz" [target_e1; target_e2] world_round = (Ret tt, w')
    /\ Cache.verifying (cache w')
       = list_to_set (deviceId <$> List.filter (eligible world_round) [target_e1; target_e2])
         ∪ Cache.verifying (cache world_round)
    /\ Persistent.validate_result (sql w')
       = Persistent.validate_result (sql world_round)
         ++ (createdRow world_round "zz"
               <$> List.filter (eligible world_round) [target_e1; target_e2])
    /\ sent w'
       = match CandidateNodeMap world_round !! "zz" with
         | Some validator =>
             sent world_round
             ++ [("zz", requestFor world_round
                          <$> List.filter (eligible world_round) [target_e1; target_e2])]
         | None => sent world_round
         end.
Proof.
  apply (dispatch_offline_validator "zz" [target_e1; target_e2] world_round).
  exact world_round_no_faults.
Defined.

(** X22 at a device that has a row. *)
Lemma SetNodeInfo_upsert_witness :
  exists db' row,
    NodeStore.SetNodeInfo "S" "t9" "n1"
      (Persistent.mkNodeInfo EmptyString "t5" "geo2" 7 1 "a9" EmptyString EmptyString)
      sql_nodes
    = (Ret nil_err, db')
    /\ fst (NodeStore.GetNodeInfo "n1" db') = (Some row, nil_err)
    /\ Persistent.DeviceID row = "n1"
    /\ Persistent.LastTime row = "t5"
    /\ Persistent.Geo row = "geo2"
    /\ Persistent.IsOnline row = 1
    /\ Persistent.Address row = "a9"
    /\ Persistent.ServerName row = "S"
    /\ match fst (fst (NodeStore.GetNodeInfo "n1" sql_nodes)) with
       | Some old =>
           Persistent.NodeType row = Persistent.NodeType old
           /\ Persistent.CreateTime row = Persistent.CreateTime old
           /\ length (Persistent.node db') = length (Persistent.node sql_nodes)
       | None =>
           Persistent.NodeType row = 7
           /\ Persistent.CreateTime row = "t9"
           /\ length (Persistent.node db') = S (length (Persistent.node sql_nodes))
       end
    /\ (forall other, other <> "n1" ->
          fst (NodeStore.GetNodeInfo other db') = fst (NodeStore.GetNodeInfo other sql_nodes))
    /\ Persistent.validate_result db' = Persistent.validate_result sql_nodes
    /\ Persistent.device_blocks db' = Persistent.device_blocks sql_nodes.
Proof.
  apply (SetNodeInfo_upsert "S" "t9" "n1"
           (Persistent.mkNodeInfo EmptyString "t5" "geo2" 7 1 "a9" EmptyString EmptyString)
           sql_nodes).
  intros k. reflexivity.
Defined.

(** X23 at a cid held by two devices. *)
Lemma DeleteBlockInfo_deletes_witness :
  exists db',
    BlockStore.DeleteBlockInfo "d" "A" blocks_db = (Ret nil_err, db')
    /\ fst (BlockStore.GetBlockFidWithCid "d" "A" db')
       = (EmptyString, Errorf BlockStore.errNodeNotFind)
    /\ (forall d c, d <> "d" \/ c <> "A" ->
          fst (BlockStore.GetBlockFidWithCid d c db')
          = fst (BlockStore.GetBlockFidWithCid d c blocks_db))
    /\ (forall holders,
          fst (BlockStore.GetNodesWithCacheList "A" blocks_db) = (Some holders, nil_err) ->
          fst (BlockStore.GetNodesWithCacheList "A" db')
          = (Some (List.filter (fun d => negb (String.eqb d "d")) holders), nil_err))
    /\ (forall d, d <> "d" ->
          fst (BlockStore.GetDeviceBlockNum d db')
          = fst (BlockStore.GetDeviceBlockNum d blocks_db))
    /\ BlockStore.block_info db' = BlockStore.block_info blocks_db.
Proof.
  apply (DeleteBlockInfo_deletes "d" "A" blocks_db). intros k. reflexivity.
Defined.

(** X24 at a new block stored under a fid in use. *)
Lemma SetBlockInfo_first_row_wins_witness :
  exists db',
    BlockStore.SetBlockInfo nextID block_C "car" "1" false blocks_db = (Ret nil_err, db')
    /\ fst (BlockStore.GetBlockFidWithCid "d" "C" db')
       = (if is_nil (snd (fst (BlockStore.GetBlockFidWithCid "d" "C" blocks_db)))
          then fst (BlockStore.GetBlockFidWithCid "d" "C" blocks_db)
          else ("1", nil_err))
    /\ fst (BlockStore.GetBlockCidWithFid "d" "1" db')
       = (if is_nil (snd (fst (BlockStore.GetBlockCidWithFid "d" "1" blocks_db)))
          then fst (BlockStore.GetBlockCidWithFid "d" "1" blocks_db)
          else ("C", nil_err))
    /\ fst (fst (BlockStore.GetDeviceBlockNum "d" db'))
       = fst (fst (BlockStore.GetDeviceBlockNum "d" blocks_db)) + 1.
Proof.
  apply (SetBlockInfo_first_row_wins nextID block_C "car" "1" false blocks_db);
    [intros k; reflexivity|discriminate].
Defined.

(** Block ["C"] is stored under fid ["1"], which device ["d"] already uses
    for ["A"]: the lookup by fid still answers ["A"], the map of
    [GetBlocksFID] now answers ["C"]. *)
Example fid_reused :
  match BlockStore.SetBlockInfo nextID block_C "car" "1" false blocks_db with
  | (Ret _, db') =>
      fst (BlockStore.GetBlockCidWithFid "d" "1" db') = ("A", nil_err)
      /\ (default ∅ (fst (fst (BlockStore.GetBlocksFID unreadable_e "d" db')))) !! "1"
         = Some "C"
  | _ => False
  end.
Proof. vm_compute. split; reflexivity. Qed.

(** X25 at the blocks of device ["d"], which scan, while those of device
    ["e"] do not. *)
Lemma GetBlocksFID_against_lookups_witness :
  exists m,
    fst (BlockStore.GetBlocksFID unreadable_e "d" blocks_db) = (Some m, nil_err)
    /\ (forall fid, m !! fid
                    = BlockStore.nb_CID
                        <$> List.find (BlockStore.is_fid "d" fid)
                              (rev (List.filter unreadable_e
                                                (BlockStore.device_blocks blocks_db))))
    /\ (fst (BlockStore.GetDeviceBlockNum "d" blocks_db) = (0, nil_err) -> m = ∅)
    /\ ((forall r, r ∈ BlockStore.device_blocks blocks_db ->
                   BlockStore.of_device "d" r = true -> unreadable_e r = true) ->
        (forall fid, m !! fid = None
                     <-> fst (BlockStore.GetBlockCidWithFid "d" fid blocks_db)
                         = (EmptyString, Errorf BlockStore.errNodeNotFind))
        /\ (forall fid,
              (forall r r', r ∈ BlockStore.device_blocks blocks_db ->
                            r' ∈ BlockStore.device_blocks blocks_db ->
                            BlockStore.is_fid "d" fid r = true ->
                            BlockStore.is_fid "d" fid r' = true ->
                            BlockStore.nb_CID r = BlockStore.nb_CID r') ->
              forall cid, m !! fid = Some cid
                          <-> fst (BlockStore.GetBlockCidWithFid "d" fid blocks_db)
                              = (cid, nil_err))
        /\ (m = ∅ <-> fst (BlockStore.GetDeviceBlockNum "d" blocks_db) = (0, nil_err))).
Proof. apply (GetBlocksFID_against_lookups unreadable_e "d" blocks_db). reflexivity. Defined.

(** The rows of device ["d"] scan. *)
Example blocks_of_d_scan :
  forall r, r ∈ BlockStore.device_blocks blocks_db ->
            BlockStore.of_device "d" r = true -> unreadable_e r = true.
Proof.
  intros r Hin Hd. unfold BlockStore.of_device in Hd. apply String.eqb_eq in Hd.
  unfold unreadable_e. rewrite Hd. reflexivity.
Qed.

(** The one row of device ["e"] does not scan: [GetDeviceBlockNum] counts
    it, the map of [GetBlocksFID] is empty, and no error is returned. *)
Example unscanned_block :
  fst (BlockStore.GetBlocksFID unreadable_e "e" blocks_db) = (Some ∅, nil_err)
  /\ fst (BlockStore.GetDeviceBlockNum "e" blocks_db) = (1, nil_err).
Proof. vm_compute. split; reflexivity. Qed.


(** The row of the block that is not done does not scan: [HaveBlocks]
    finds it under status 1, the map of [GetUndoneBlocks] is empty. *)
Example unscanned_undone :
  fst (BlockStore.GetUndoneBlocks unreadable_2 "k1" blocks_db) = (∅, nil_err)
  /\ fst (BlockStore.HaveBlocks "k1" 1 blocks_db) = (true, nil_err).
Proof. vm_compute. split; reflexivity. Qed.

(** X28 at the toy token library. *)
Lemma AuthNode_round_trip_witness :
  toySecret "n1" = ("s1", nil_err)
  /\ SchedulerApi.AuthNodeVerify (list string * string) string toyVerify toySecret "api"
       "n1" (["read"], "s1")
     = (Some ["read"], nil_err)
  /\ (forall other, other <> "s1" ->
        SchedulerApi.AuthNodeNew (list string * string) string toySign toySecret
          ["read"] "n1" other
        = (None, Errorf ("device " +:+ "n1" +:+ " secret not match"))).
Proof.
  apply (AuthNode_round_trip (list string * string) string toySign toyVerify toySecret "api"
           ["read"] "n1" "s1" (["read"], "s1")).
  - intros p key tok H. unfold toySign in H. injection H as <-.
    unfold toyVerify. cbn [fst snd]. rewrite String.eqb_refl. reflexivity.
  - discriminate.
  - reflexivity.
Defined.

End ConcreteProperties.
